(** * A shallow embedding of the recommendation engine

    The four model classes of [backend/app/models] (content-based,
    item-based, user-based and hybrid) are embedded as functions over explicit
    model records, followed by the pure parts of the services the models are
    trained and judged with ([services/vectorization.py],
    [services/evaluation.py], [services/data_processing.py]) and of
    [utils/helpers.py].

    Conventions of the embedding:
    - a numpy [float64] is read as a real number ([R]); [NaN] and the
      infinities only appear where the source handles them explicitly
      ([np.nan_to_num]) and are modelled there by a separate cell type.
      The theorems state what this reading does not change: comparisons,
      clipping, the structure of an answer, and bounds that rounding to
      nearest keeps because it is monotone.  Where the source hands back a
      quotient of rounded sums without clipping it, the last bit can leave
      the interval the real quotient lies in ([Binary64] evaluates two such
      places in binary64), and no bound is stated there;
    - a Python [dict] is an insertion-ordered association list;
    - a Python exception is the [Raise] case of the result type [res];
    - a mutable [set] handed over by a caller lives in a [heap] of set objects
      and is passed by reference where the source can mutate it. *)

From Stdlib Require Import String DecimalString.
From Stdlib Require Import Reals Lra Lia ZArith Bool List Permutation Sorted.
From Stdlib Require PrimFloat Uint63.
Import ListNotations.
Open Scope R_scope.

(* ================================================================== *)
(** * Numbers *)

Definition Rltb (x y : R) : bool := if Rlt_dec x y then true else false.
Definition Rleb (x y : R) : bool := if Rle_dec x y then true else false.
Definition Reqb (x y : R) : bool := if Req_dec_T x y then true else false.

(** [np.clip(x, lo, hi)] is [minimum(maximum(x, lo), hi)]. *)
Definition clip (x lo hi : R) : R := Rmin (Rmax x lo) hi.

Definition vec := list R.
Definition matrix := list (list R).

Definition sum (v : vec) : R := fold_right Rplus 0 v.

Fixpoint map2 {A B C : Type} (f : A -> B -> C) (u : list A) (v : list B) : list C :=
  match u, v with
  | a :: u', b :: v' => f a b :: map2 f u' v'
  | _, _ => []
  end.

Definition dot (u v : vec) : R := sum (map2 Rmult u v).

(** [np.linalg.norm] of a row: the Euclidean norm. *)
Definition norm (v : vec) : R := sqrt (dot v v).

(** [A @ A.T]: the matrix of the dot products of the rows of [A]. *)
Definition gram (A : matrix) : matrix :=
  map (fun r => map (fun c => dot r c) A) A.

(** Scaling the rows by their norms, rows of norm zero left as they are:
    [norms = np.where(norms > 0, norms, 1); A / norms]. *)
Definition safe_norm (v : vec) : R := if Rltb 0 (norm v) then norm v else 1.
Definition normalize_rows (A : matrix) : matrix :=
  map (fun r => map (fun x => x / safe_norm r) r) A.

(** [sklearn.metrics.pairwise.cosine_similarity(X)]: the rows are scaled to
    unit length (a zero row stays zero) and multiplied pairwise. *)
Definition cosine_similarity (X : matrix) : matrix := gram (normalize_rows X).

Fixpoint set_nth {A : Type} (i : nat) (x : A) (l : list A) : list A :=
  match l, i with
  | [], _ => []
  | _ :: l', O => x :: l'
  | a :: l', S i' => a :: set_nth i' x l'
  end.

Fixpoint fill_diagonal_from (i : nat) (M : matrix) (c : R) : matrix :=
  match M with
  | [] => []
  | row :: M' => set_nth i c row :: fill_diagonal_from (S i) M' c
  end.

(** [np.fill_diagonal(M, c)]. *)
Definition fill_diagonal (M : matrix) (c : R) : matrix := fill_diagonal_from 0 M c.

(** Entry [M[i][j]] of a matrix known to hold it. *)
Definition entry (M : matrix) (i j : nat) : R := nth j (nth i M []) 0.

(* ================================================================== *)
(** * Sorting *)

Section Argsort.
Variable v : vec.

(** Insertion of index [i] before the first index whose value is not
    smaller: equal values keep the order of their indices. *)
Fixpoint insert_idx (i : nat) (l : list nat) : list nat :=
  match l with
  | [] => [i]
  | j :: l' => if Rleb (nth i v 0) (nth j v 0) then i :: j :: l'
               else j :: insert_idx i l'
  end.

(** [np.argsort(v)]: the indices of [v] by ascending value.  numpy's default
    sort is an introsort that handles short arrays by insertion; the order of
    equal values on long arrays is the implementation's choice, and is taken
    here to be the index order throughout. *)
Definition argsort : list nat := fold_right insert_idx [] (seq 0 (length v)).
End Argsort.

Section SortDesc.
Context {A : Type}.
Variable key : A -> R.

Fixpoint insert_desc (x : A) (l : list A) : list A :=
  match l with
  | [] => [x]
  | y :: l' => if Rleb (key y) (key x) then x :: y :: l'
               else y :: insert_desc x l'
  end.

(** [l.sort(key=key, reverse=True)]: descending and stable (equal keys keep
    their original order). *)
Definition sort_desc (l : list A) : list A := fold_right insert_desc [] l.
End SortDesc.

(** A Python slice [l[:n]]; a negative [n] counts from the end. *)
Definition py_take {A : Type} (n : Z) (l : list A) : list A :=
  if (0 <=? n)%Z then firstn (Z.to_nat n) l
  else firstn (length l - Z.to_nat (- n)) l.

(* ================================================================== *)
(** * Exceptions *)

Inductive exn : Type :=
  RuntimeError | KeyError | IndexError | TypeError | ValueError | ZeroDivisionError.

Inductive res (A : Type) : Type :=
| Ok (a : A)
| Raise (e : exn).
Arguments Ok {A} a.
Arguments Raise {A} e.

Definition bind {A B : Type} (c : res A) (k : A -> res B) : res B :=
  match c with
  | Ok a => k a
  | Raise e => Raise e
  end.

Notation "x <- c ;; k" := (bind c (fun x => k))
  (at level 61, c at next level, right associativity).

(** [l[i]] on an array or [df.iloc[i]]. *)
Definition getitem {A : Type} (l : list A) (i : nat) : res A :=
  match nth_error l i with
  | Some x => Ok x
  | None => Raise IndexError
  end.

(** Use of an attribute that is still [None]. *)
Definition the {A : Type} (o : option A) : res A :=
  match o with
  | Some x => Ok x
  | None => Raise TypeError
  end.

(* ================================================================== *)
(** * Dictionaries and sets *)

Section Dict.
Context {K V : Type}.
Variable eqb : K -> K -> bool.

Definition dict : Type := list (K * V).

Fixpoint dict_get (d : dict) (k : K) : option V :=
  match d with
  | [] => None
  | (k', v) :: d' => if eqb k k' then Some v else dict_get d' k
  end.

(** [d[k] = v]: an existing key keeps its place. *)
Fixpoint dict_set (d : dict) (k : K) (v : V) : dict :=
  match d with
  | [] => [(k, v)]
  | (k', v') :: d' => if eqb k k' then (k', v) :: d'
                      else (k', v') :: dict_set d' k v
  end.

(** [d[k]], raising [KeyError] on a missing key. *)
Definition dict_item (d : dict) (k : K) : res V :=
  match dict_get d k with
  | Some v => Ok v
  | None => Raise KeyError
  end.
End Dict.
Arguments dict : clear implicits.

(** A set of movie ids, by its members. *)
Definition idset := list Z.

Definition mem (x : Z) (s : idset) : bool := existsb (Z.eqb x) s.

Definition set_add (s : idset) (x : Z) : idset := if mem x s then s else s ++ [x].

(** [s.update(xs)] and [s.union(xs)] compute the same members; the former
    stores them back into the object [s]. *)
Definition set_union (s : idset) (xs : list Z) : idset := fold_left set_add xs s.

(** The heap of set objects; a reference is a position in it. *)
Definition ref := nat.
Definition heap := list idset.

Definition deref (h : heap) (r : ref) : idset := nth r h [].
Definition alloc (h : heap) (s : idset) : ref * heap := (length h, h ++ [s]).
Definition store (h : heap) (r : ref) (s : idset) : heap := set_nth r s h.

(** [exclude or set()]: a [None] or an empty set is replaced by a fresh empty
    set object, a non-empty set is the caller's object itself. *)
Definition or_new_set (exclude : option ref) (h : heap) : ref * heap :=
  match exclude with
  | Some r => match deref h r with
              | [] => alloc h []
              | _ :: _ => (r, h)
              end
  | None => alloc h []
  end.

(** The same on a set that is only read afterwards. *)
Definition or_empty (exclude : option idset) : idset :=
  match exclude with
  | Some s => s
  | None => []
  end.

(* ================================================================== *)
(** * Data frames and result rows *)

Record movie_row : Type := MovieRow {
  movieId : Z;
  title : string;
  genres : list string;
  avgRating : R;
  ratingCount : Z
}.

Record rating_row : Type := RatingRow {
  userId : Z;
  r_movieId : Z;
  rating : R
}.

(** An entry of [user_rated_movies]: [{'movieId': .., 'rating': ..}], the
    rating possibly absent. *)
Record rated : Type := Rated {
  rated_movieId : Z;
  rated_rating : option R
}.

(** A recommendation as returned by [recommend]. *)
Record recommendation : Type := Rec {
  rec_movieId : Z;
  rec_title : string;
  rec_genres : list string;
  rec_avgRating : R;
  rec_score : R;
  rec_method : string
}.

(** A neighbour as returned by [get_similar_movies] / [get_similar_items]. *)
Record similar : Type := Similar {
  sim_movieId : Z;
  sim_title : string;
  sim_genres : list string;
  sim_avgRating : R;
  similarity : R
}.

(** [for idx, key in enumerate(keys): fwd[key] = idx; bwd[idx] = key]. *)
Fixpoint enumerate_into (keys : list Z) (idx : nat)
    (fwd : dict Z nat) (bwd : dict nat Z) : dict Z nat * dict nat Z :=
  match keys with
  | [] => (fwd, bwd)
  | key :: keys' =>
      enumerate_into keys' (S idx)
        (dict_set Z.eqb fwd key idx) (dict_set Nat.eqb bwd idx key)
  end.

(* ================================================================== *)
(** * Floating-point cells

    [np.divide(.., where=..)] without [out=] allocates its result with
    [np.empty]: the positions the mask leaves out keep whatever the fresh
    buffer held.  Such a cell can hold any bit pattern, so the buffer is a
    function from positions to cells that may also be [NaN] or infinite. *)

Inductive cell : Type :=
| Fin (x : R)
| NaN
| PosInf
| NegInf.

(** The largest finite [float64]. *)
Definition DBL_MAX : R := IZR (2 ^ 1024 - 2 ^ 971).

(** [np.nan_to_num]: [NaN] becomes 0, the infinities the largest finite
    values; a finite cell is left as it is. *)
Definition nan_to_num (c : cell) : R :=
  match c with
  | Fin x => x
  | NaN => 0
  | PosInf => DBL_MAX
  | NegInf => - DBL_MAX
  end.

Fixpoint divide_where_from (i : nat) (a b : vec) (fresh : nat -> cell) : list cell :=
  match a, b with
  | x :: a', y :: b' =>
      (if Rltb 0 y then Fin (x / y) else fresh i)
        :: divide_where_from (S i) a' b' fresh
  | _, _ => []
  end.

(** [np.divide(a, b, where=b > 0)], [fresh] being the content of the newly
    allocated result buffer. *)
Definition divide_where (a b : vec) (fresh : nat -> cell) : list cell :=
  divide_where_from 0 a b fresh.

(** Broadcasting of a row against an array of [n] entries in [acc += row]. *)
Definition broadcast_to (n : nat) (row : vec) : res vec :=
  if Nat.eqb (length row) n then Ok row
  else match row with
       | [x] => Ok (repeat x n)
       | _ => Raise ValueError
       end.

(** [np.hstack([A, B])]. *)
Definition hstack (A B : matrix) : res matrix :=
  if Nat.eqb (length A) (length B) then Ok (map2 (@app R) A B)
  else Raise ValueError.

(* ================================================================== *)
(** * Content-based model ([content_based.py]) *)

Module ContentBased.

Record model : Type := Model {
  movies_df : option (list movie_row);
  tfidf_matrix : option matrix;
  similarity_matrix : option matrix;
  movie_id_to_idx : dict Z nat;
  idx_to_movie_id : dict nat Z;
  embeddings : option matrix;
  is_fitted : bool
}.

(** [__init__] *)
Definition init : model :=
  {| movies_df := None; tfidf_matrix := None; similarity_matrix := None;
     movie_id_to_idx := []; idx_to_movie_id := []; embeddings := None;
     is_fitted := false |}.

(** [_combine_features] *)
Definition combine_features (tfidf emb : matrix) (tfidf_weight : R) : res matrix :=
  let tfidf_norm := map (fun r => map (fun x => x / (norm r + / 100000000)) r) tfidf in
  let emb_norm := map (fun r => map (fun x => x / (norm r + / 100000000)) r) emb in
  hstack (map (map (fun x => x * tfidf_weight)) tfidf_norm)
         (map (map (fun x => x * (1 - tfidf_weight))) emb_norm).

(** [fit].  [vectorize] stands for [Vectorizer.tfidf_vectorize], which
    delegates to scikit-learn's [TfidfVectorizer]; it is only consulted when
    no matrix is passed.  scikit-learn's [cosine_similarity] refuses a
    feature matrix without a row or a column with [ValueError]; the result
    below is the fitted object for every matrix it accepts. *)
Definition fit (vectorize : list (list string) -> matrix) (self : model)
    (df : list movie_row) (tfidf : option matrix) (emb : option matrix)
    (use_embeddings : bool) : res model :=
  let maps := enumerate_into (map movieId df) 0
                (movie_id_to_idx self) (idx_to_movie_id self) in
  let tfidf' := match tfidf with
                | Some t => t
                | None => vectorize (map genres df)
                end in
  let emb' := match emb with
              | Some e => Some e
              | None => embeddings self
              end in
  sim <- match use_embeddings, emb' with
         | true, Some e =>
             feature_matrix <- combine_features tfidf' e (1 / 2) ;;
             Ok (cosine_similarity feature_matrix)
         | _, _ => Ok (cosine_similarity tfidf')
         end ;;
  Ok {| movies_df := Some df; tfidf_matrix := Some tfidf';
        similarity_matrix := Some sim;
        movie_id_to_idx := fst maps; idx_to_movie_id := snd maps;
        embeddings := emb'; is_fitted := true |}.

Section Queries.
Variable self : model.

(** The loop of [get_similar_movies]. *)
Fixpoint similar_loop (similarities : vec)
    (movie_id : Z) (n : Z) (exclude : idset)
    (indices : list nat) (results : list similar) : res (list similar) :=
  match indices with
  | [] => Ok results
  | sim_idx :: rest =>
      if (Z.of_nat (length results) >=? n)%Z then Ok results
      else
        sim_movie_id <- dict_item Nat.eqb (idx_to_movie_id self) sim_idx ;;
        if (sim_movie_id =? movie_id)%Z || mem sim_movie_id exclude
        then similar_loop similarities movie_id n exclude rest results
        else
          df <- the (movies_df self) ;;
          movie_data <- getitem df sim_idx ;;
          similar_loop similarities movie_id n exclude rest
            (results ++ [ {| sim_movieId := sim_movie_id;
                             sim_title := title movie_data;
                             sim_genres := genres movie_data;
                             sim_avgRating := avgRating movie_data;
                             similarity := nth sim_idx similarities 0 |} ])
  end.

(** [get_similar_movies] *)
Definition get_similar_movies (movie_id : Z) (n : Z)
    (exclude : option idset) : res (list similar) :=
  if negb (is_fitted self) then Raise RuntimeError
  else match dict_get Z.eqb (movie_id_to_idx self) movie_id with
       | None => Ok []
       | Some idx =>
           S <- the (similarity_matrix self) ;;
           similarities <- getitem S idx ;;
           similar_loop similarities movie_id n (or_empty exclude)
             (rev (argsort similarities)) []
       end.

Fixpoint insert_popular (x : movie_row) (l : list movie_row) : list movie_row :=
  match l with
  | [] => [x]
  | y :: l' =>
      if Rltb (IZR (ratingCount y)) (IZR (ratingCount x))
         || (Reqb (IZR (ratingCount y)) (IZR (ratingCount x))
             && Rleb (avgRating y) (avgRating x))
      then x :: y :: l'
      else y :: insert_popular x l'
  end.

(** The loop of [_get_popular_movies]; the length is tested after the
    append. *)
Fixpoint popular_loop (n : Z) (exclude : idset) (rows : list movie_row)
    (results : list recommendation) : list recommendation :=
  match rows with
  | [] => results
  | row :: rest =>
      if mem (movieId row) exclude then popular_loop n exclude rest results
      else
        let results' :=
          results ++ [ {| rec_movieId := movieId row; rec_title := title row;
                          rec_genres := genres row;
                          rec_avgRating := avgRating row;
                          rec_score := avgRating row;
                          rec_method := "popular" |} ] in
        if (Z.of_nat (length results') >=? n)%Z then results'
        else popular_loop n exclude rest results'
  end.

(** [_get_popular_movies], on a frame that has the [ratingCount] column:
    [sort_values(by=['ratingCount', 'avgRating'], ascending=[False, False])]
    is a stable sort on the pair. *)
Definition get_popular_movies (n : Z) (exclude : option idset)
    : res (list recommendation) :=
  df <- the (movies_df self) ;;
  Ok (popular_loop n (or_empty exclude) (fold_right insert_popular [] df) []).

(** The accumulation loop of [recommend_for_user]: the pair of [scores]
    and [weights]. *)
Fixpoint accumulate (S : matrix) (n_movies : nat) (rated_movies : list rated)
    (scores weights : vec) : res (vec * vec) :=
  match rated_movies with
  | [] => Ok (scores, weights)
  | r :: rest =>
      match dict_get Z.eqb (movie_id_to_idx self) (rated_movieId r) with
      | None => accumulate S n_movies rest scores weights
      | Some idx =>
          let rating := match rated_rating r with
                        | Some x => x
                        | None => 3
                        end in
          let weight := (rating - 5 / 2) / (5 / 2) in
          row <- getitem S idx ;;
          row' <- broadcast_to n_movies row ;;
          accumulate S n_movies rest
            (map2 Rplus scores (map (fun s => s * weight) row'))
            (map2 Rplus weights (map Rabs row'))
      end
  end.

(** The result loop of [recommend_for_user]. *)
Fixpoint recommend_loop (scores : vec) (n : Z)
    (exclude : idset) (indices : list nat)
    (results : list recommendation) : res (list recommendation) :=
  match indices with
  | [] => Ok results
  | idx :: rest =>
      if (Z.of_nat (length results) >=? n)%Z then Ok results
      else
        movie_id <- dict_item Nat.eqb (idx_to_movie_id self) idx ;;
        if mem movie_id exclude
        then recommend_loop scores n exclude rest results
        else
          df <- the (movies_df self) ;;
          movie_data <- getitem df idx ;;
          recommend_loop scores n exclude rest
            (results ++ [ {| rec_movieId := movie_id;
                             rec_title := title movie_data;
                             rec_genres := genres movie_data;
                             rec_avgRating := avgRating movie_data;
                             rec_score := nth idx scores 0;
                             rec_method := "content_based" |} ])
  end.

(** The normalised scores of [recommend_for_user] (lines 180-198). *)
Definition normalized_scores (fresh : nat -> cell)
    (user_rated_movies : list rated) : res vec :=
  df <- the (movies_df self) ;;
  S <- the (similarity_matrix self) ;;
  let n_movies := length df in
  sw <- accumulate S n_movies user_rated_movies
          (repeat 0 n_movies) (repeat 0 n_movies) ;;
  Ok (map nan_to_num (divide_where (fst sw) (snd sw) fresh)).

(** [recommend_for_user].  [exclude] is a reference: the set it names is
    updated in place when it is not empty.  [fresh] is the content of the
    buffer [np.divide] allocates. *)
Definition recommend_for_user (fresh : nat -> cell) (user_id : Z)
    (user_rated_movies : list rated) (n : Z) (exclude : option ref)
    (h : heap) : res (list recommendation) * heap :=
  if negb (is_fitted self) then (Raise RuntimeError, h)
  else match user_rated_movies with
       | [] => (get_popular_movies n (option_map (deref h) exclude), h)
       | _ :: _ =>
           let (r, h1) := or_new_set exclude h in
           let h2 := store h1 r
                       (set_union (deref h1 r)
                                  (map rated_movieId user_rated_movies)) in
           (scores <- normalized_scores fresh user_rated_movies ;;
            recommend_loop scores n (deref h2 r)
              (rev (argsort scores)) [],
            h2)
       end.

(** The loop of [predict_rating]: [weighted_sum] and [similarity_sum]. *)
Fixpoint predict_loop (S : matrix) (movie_idx : nat) (rated_movies : list rated)
    (weighted_sum similarity_sum : R) : res (R * R) :=
  match rated_movies with
  | [] => Ok (weighted_sum, similarity_sum)
  | r :: rest =>
      match dict_get Z.eqb (movie_id_to_idx self) (rated_movieId r) with
      | None => predict_loop S movie_idx rest weighted_sum similarity_sum
      | Some rated_idx =>
          row <- getitem S movie_idx ;;
          sim <- getitem row rated_idx ;;
          if Rltb 0 sim then
            match rated_rating r with
            | None => Raise KeyError
            | Some x =>
                predict_loop S movie_idx rest
                  (weighted_sum + sim * x) (similarity_sum + sim)
            end
          else predict_loop S movie_idx rest weighted_sum similarity_sum
      end
  end.

(** [predict_rating]; [None] is the "no prediction" answer. *)
Definition predict_rating (user_id movie_id : Z)
    (user_rated_movies : option (list rated)) : res (option R) :=
  if negb (is_fitted self) then Ok None
  else match dict_get Z.eqb (movie_id_to_idx self) movie_id with
       | None => Ok None
       | Some movie_idx =>
           match user_rated_movies with
           | None | Some [] => Ok None
           | Some rated_movies =>
               S <- the (similarity_matrix self) ;;
               ws <- predict_loop S movie_idx rated_movies 0 0 ;;
               if Rltb 0 (snd ws) then Ok (Some (fst ws / snd ws))
               else Ok None
           end
       end.
End Queries.

End ContentBased.

(* ================================================================== *)
(** * Array helpers shared by the collaborative models *)

(** [np.where(v > 0)[0]] *)
Fixpoint where_pos_from (i : nat) (v : vec) : list nat :=
  match v with
  | [] => []
  | x :: v' => if Rltb 0 x then i :: where_pos_from (S i) v'
               else where_pos_from (S i) v'
  end.
Definition where_pos (v : vec) : list nat := where_pos_from 0 v.

(** [a[mask]] for a boolean mask. *)
Fixpoint mask_sel {A : Type} (mask : list bool) (a : list A) : list A :=
  match mask, a with
  | b :: mask', x :: a' => if b then x :: mask_sel mask' a' else mask_sel mask' a'
  | _, _ => []
  end.

(** [a[indices]] for an index array, [IndexError] on an index out of range. *)
Fixpoint take_items {A : Type} (a : list A) (indices : list nat) : res (list A) :=
  match indices with
  | [] => Ok []
  | i :: rest =>
      x <- getitem a i ;;
      xs <- take_items a rest ;;
      Ok (x :: xs)
  end.

(** [a[positions]] for positions computed from [a] itself. *)
Definition select {A : Type} (d : A) (a : list A) (positions : list nat) : list A :=
  map (fun p => nth p a d) positions.

(** [M[:, j]] *)
Definition column (M : matrix) (j : nat) : res vec :=
  (fix go (rows : matrix) : res vec :=
     match rows with
     | [] => Ok []
     | row :: rows' =>
         x <- getitem row j ;;
         xs <- go rows' ;;
         Ok (x :: xs)
     end) M.

(** [M.T] for a matrix of [n_cols] columns. *)
Definition transpose (n_cols : nat) (M : matrix) : matrix :=
  map (fun j => map (fun row => nth j row 0) M) (seq 0 n_cols).

Fixpoint insert_sorted (x : Z) (l : list Z) : list Z :=
  match l with
  | [] => [x]
  | y :: l' => if (x <? y)%Z then x :: y :: l'
               else if (x =? y)%Z then y :: l'
               else y :: insert_sorted x l'
  end.

(** [sorted(column.unique())] *)
Definition sorted_unique (l : list Z) : list Z := fold_right insert_sorted [] l.

(** [sparse.csr_matrix((data, (rows, cols)), shape).toarray()]: the entries
    that share a position are added up, the other positions are 0. *)
Definition toarray (n_rows n_cols : nat)
    (entries : list (option nat * option nat * R)) : matrix :=
  map (fun u =>
         map (fun i =>
                sum (map snd
                       (filter (fun e =>
                                  match fst (fst e), snd (fst e) with
                                  | Some r, Some c => Nat.eqb r u && Nat.eqb c i
                                  | _, _ => false
                                  end) entries)))
             (seq 0 n_cols))
      (seq 0 n_rows).

(** The user-item matrix of a ratings frame under the two index mappings. *)
Definition rating_matrix (user_to_idx movie_to_idx : dict Z nat)
    (n_users n_items : nat) (df : list rating_row) : matrix :=
  toarray n_users n_items
    (map (fun r => (dict_get Z.eqb user_to_idx (userId r),
                    dict_get Z.eqb movie_to_idx (r_movieId r),
                    rating r)) df).

Definition string_of_Z (z : Z) : string := NilZero.string_of_int (Z.to_int z).

(** [_get_movie_info], the same in both collaborative models. *)
Definition get_movie_info (movies : option (list movie_row)) (movie_id : Z)
    : movie_row :=
  let info := {| movieId := movie_id;
                 title := String.append "Movie " (string_of_Z movie_id);
                 genres := []; avgRating := 0; ratingCount := 0 |} in
  match movies with
  | None => info
  | Some df =>
      match find (fun row => (movieId row =? movie_id)%Z) df with
      | None => info
      | Some row => {| movieId := movie_id; title := title row;
                       genres := genres row; avgRating := avgRating row;
                       ratingCount := 0 |}
      end
  end.

(** The loop of [_get_popular_items], the same in both collaborative models. *)
Fixpoint popular_items_loop (movie_to_idx : dict Z nat) (n : Z) (exclude : idset)
    (rows : list movie_row) (results : list recommendation)
    : list recommendation :=
  match rows with
  | [] => results
  | row :: rest =>
      if mem (movieId row) exclude
      then popular_items_loop movie_to_idx n exclude rest results
      else match dict_get Z.eqb movie_to_idx (movieId row) with
           | None => popular_items_loop movie_to_idx n exclude rest results
           | Some _ =>
               let results' :=
                 results ++ [ {| rec_movieId := movieId row;
                                 rec_title := title row;
                                 rec_genres := genres row;
                                 rec_avgRating := avgRating row;
                                 rec_score := avgRating row;
                                 rec_method := "popular" |} ] in
               if (Z.of_nat (length results') >=? n)%Z then results'
               else popular_items_loop movie_to_idx n exclude rest results'
           end
  end.

(** [_get_popular_items]: [sort_values(by='avgRating', ascending=False)],
    equal averages taken in frame order. *)
Definition get_popular_items (movies : option (list movie_row))
    (movie_to_idx : dict Z nat) (n : Z) (exclude : idset) : list recommendation :=
  match movies with
  | Some df => popular_items_loop movie_to_idx n exclude (sort_desc avgRating df) []
  | None => []
  end.

(** The rows of [recommend]'s answer for the sorted [(movie_id, score)] pairs. *)
Definition to_recommendations (movies : option (list movie_row)) (method : string)
    (predictions : list (Z * R)) : list recommendation :=
  map (fun p =>
         let info := get_movie_info movies (fst p) in
         {| rec_movieId := movieId info; rec_title := title info;
            rec_genres := genres info; rec_avgRating := avgRating info;
            rec_score := snd p; rec_method := method |})
      predictions.

(** The neighbourhood kept by the prediction routines: the similarities and
    the indices of the candidates, cut to the [k] most similar when there are
    more than [k] of them. *)
Definition top_k (k : Z) (similarities : vec) (indices : list nat)
    : vec * list nat :=
  if (k <? Z.of_nat (length indices))%Z then
    let top_k_pos := py_take k (rev (argsort similarities)) in
    (select 0 similarities top_k_pos, select O indices top_k_pos)
  else (similarities, indices).

(* ================================================================== *)
(** * Item-based model ([item_based.py]) *)

Module ItemBased.

Record model : Type := Model {
  k : Z;
  min_ratings : Z;
  ratings_df : option (list rating_row);
  movies_df : option (list movie_row);
  item_similarity : option matrix;
  user_item_matrix : option matrix;
  user_ids : list Z;
  movie_ids : list Z;
  movie_to_idx : dict Z nat;
  idx_to_movie : dict nat Z;
  user_to_idx : dict Z nat;
  idx_to_user : dict nat Z;
  is_fitted : bool
}.

(** [__init__] *)
Definition init (k min_ratings : Z) : model :=
  {| k := k; min_ratings := min_ratings; ratings_df := None; movies_df := None;
     item_similarity := None; user_item_matrix := None;
     user_ids := []; movie_ids := [];
     movie_to_idx := []; idx_to_movie := [];
     user_to_idx := []; idx_to_user := []; is_fitted := false |}.

(** [np.nanmean] of a row in which 0 was replaced by [NaN]: the mean of the
    non-zero entries, [NaN] when there is none. *)
Definition nanmean (row : vec) : cell :=
  let rated := filter (fun x => negb (Reqb x 0)) row in
  match rated with
  | [] => NaN
  | _ :: _ => Fin (sum rated / INR (length rated))
  end.

(** [np.nan_to_num(np.where(row == 0, nan, row) - mean)] *)
Definition center_row (row : vec) : vec :=
  map (fun x =>
         nan_to_num (if Reqb x 0 then NaN
                     else match nanmean row with
                          | Fin m => Fin (x - m)
                          | c => c
                          end))
      row.

(** [_compute_item_similarity] *)
Definition compute_item_similarity (n_items : nat) (user_item : matrix) : matrix :=
  let item_user_matrix := transpose n_items user_item in
  let item_user_centered := map center_row item_user_matrix in
  fill_diagonal (cosine_similarity item_user_centered) 0.

(** [fit].  The record is what the assignments of [fit] build.  The last of
    them, [_compute_item_similarity], hands the centred matrix to
    scikit-learn's [cosine_similarity], which refuses an array without rows
    with [ValueError]: the record is the fitted object whenever the
    [min_ratings] filter keeps a movie. *)
Definition fit (self : model) (ratings : list rating_row)
    (movies : option (list movie_row)) : model :=
  let item_count := fun m =>
    length (filter (fun r => (r_movieId r =? m)%Z) ratings) in
  let filtered_df :=
    filter (fun r => (min_ratings self <=? Z.of_nat (item_count (r_movieId r)))%Z)
           ratings in
  let user_ids' := sorted_unique (map userId filtered_df) in
  let movie_ids' := sorted_unique (map r_movieId filtered_df) in
  let umaps := enumerate_into user_ids' 0 (user_to_idx self) (idx_to_user self) in
  let mmaps := enumerate_into movie_ids' 0 (movie_to_idx self) (idx_to_movie self) in
  let n_users := length user_ids' in
  let n_items := length movie_ids' in
  let M := rating_matrix (fst umaps) (fst mmaps) n_users n_items filtered_df in
  {| k := k self; min_ratings := min_ratings self;
     ratings_df := Some ratings; movies_df := movies;
     item_similarity := Some (compute_item_similarity n_items M);
     user_item_matrix := Some M;
     user_ids := user_ids'; movie_ids := movie_ids';
     movie_to_idx := fst mmaps; idx_to_movie := snd mmaps;
     user_to_idx := fst umaps; idx_to_user := snd umaps;
     is_fitted := true |}.

Section Queries.
Variable self : model.

Fixpoint similar_loop (similarities : vec) (indices : list nat)
    : res (list similar) :=
  match indices with
  | [] => Ok []
  | sim_idx :: rest =>
      sim_movie_id <- dict_item Nat.eqb (idx_to_movie self) sim_idx ;;
      let info := get_movie_info (movies_df self) sim_movie_id in
      results <- similar_loop similarities rest ;;
      Ok ({| sim_movieId := movieId info; sim_title := title info;
             sim_genres := genres info; sim_avgRating := avgRating info;
             similarity := nth sim_idx similarities 0 |} :: results)
  end.

(** [get_similar_items] *)
Definition get_similar_items (movie_id : Z) (n : Z) : res (list similar) :=
  if negb (is_fitted self) then Ok []
  else match dict_get Z.eqb (movie_to_idx self) movie_id with
       | None => Ok []
       | Some idx =>
           S <- the (item_similarity self) ;;
           similarities <- getitem S idx ;;
           similar_loop similarities (py_take n (rev (argsort similarities)))
       end.

(** The weighted average shared by [predict_rating] and
    [_predict_for_idx]; [None] when no similarity is positive. *)
Definition weighted_average (user_ratings : vec) (similarities : vec)
    (rated_indices : list nat) : res (option R) :=
  let pos_mask := map (Rltb 0) similarities in
  if negb (existsb (fun b : bool => b) pos_mask) then Ok None
  else
    let weights := mask_sel pos_mask similarities in
    ratings <- take_items user_ratings (mask_sel pos_mask rated_indices) ;;
    Ok (Some (sum (map2 Rmult weights ratings) / sum weights)).

(** [predict_rating] *)
Definition predict_rating (user_id movie_id : Z) : res (option R) :=
  if negb (is_fitted self) then Ok None
  else match dict_get Z.eqb (user_to_idx self) user_id,
             dict_get Z.eqb (movie_to_idx self) movie_id with
       | Some user_idx, Some movie_idx =>
           M <- the (user_item_matrix self) ;;
           user_ratings <- getitem M user_idx ;;
           let rated_indices := where_pos user_ratings in
           match rated_indices with
           | [] => Ok None
           | _ :: _ =>
               S <- the (item_similarity self) ;;
               similarities <- getitem S movie_idx ;;
               rated_similarities <- take_items similarities rated_indices ;;
               let (sims, idxs) := top_k (k self) rated_similarities rated_indices in
               p <- weighted_average user_ratings sims idxs ;;
               Ok (option_map (fun x => clip x (1 / 2) 5) p)
           end
       | _, _ => Ok None
       end.

(** [_predict_for_idx] *)
Definition predict_for_idx (user_idx movie_idx : nat) (user_ratings : vec)
    (rated_indices : list nat) : res (option R) :=
  match rated_indices with
  | [] => Ok None
  | _ :: _ =>
      S <- the (item_similarity self) ;;
      row <- getitem S movie_idx ;;
      similarities <- take_items row rated_indices ;;
      let (sims, idxs) := top_k (k self) similarities rated_indices in
      weighted_average user_ratings sims idxs
  end.

(** The prediction loop of [recommend]. *)
Fixpoint predictions_loop (user_idx : nat) (user_ratings : vec)
    (rated_indices : list nat) (exclude : idset) (movie_indices : list nat)
    : res (list (Z * R)) :=
  match movie_indices with
  | [] => Ok []
  | movie_idx :: rest =>
      movie_id <- dict_item Nat.eqb (idx_to_movie self) movie_idx ;;
      if mem movie_id exclude
      then predictions_loop user_idx user_ratings rated_indices exclude rest
      else
        pred <- predict_for_idx user_idx movie_idx user_ratings rated_indices ;;
        preds <- predictions_loop user_idx user_ratings rated_indices exclude rest ;;
        Ok (match pred with
            | Some p => (movie_id, p) :: preds
            | None => preds
            end)
  end.

(** [recommend] *)
Definition recommend (user_id : Z) (n : Z) (exclude : option idset)
    : res (list recommendation) :=
  if negb (is_fitted self) then Ok []
  else
    let exclude := or_empty exclude in
    match dict_get Z.eqb (user_to_idx self) user_id with
    | None => Ok (get_popular_items (movies_df self) (movie_to_idx self) n exclude)
    | Some user_idx =>
        M <- the (user_item_matrix self) ;;
        user_ratings <- getitem M user_idx ;;
        let rated_indices := where_pos user_ratings in
        rated_movie_ids <- (fix ids (l : list nat) : res (list Z) :=
                              match l with
                              | [] => Ok []
                              | i :: l' =>
                                  m <- dict_item Nat.eqb (idx_to_movie self) i ;;
                                  ms <- ids l' ;;
                                  Ok (m :: ms)
                              end) rated_indices ;;
        let exclude := set_union exclude rated_movie_ids in
        predictions <- predictions_loop user_idx user_ratings rated_indices
                         exclude (seq 0 (length (movie_ids self))) ;;
        Ok (to_recommendations (movies_df self) "item_based"
              (py_take n (sort_desc snd predictions)))
    end.
End Queries.

End ItemBased.

(* ================================================================== *)
(** * User-based model ([user_based.py]) *)

Module UserBased.

Record model : Type := Model {
  k : Z;
  min_common : Z;
  ratings_df : option (list rating_row);
  movies_df : option (list movie_row);
  user_similarity : option matrix;
  user_item_matrix : option matrix;
  user_means : option vec;
  user_ids : list Z;
  movie_ids : list Z;
  user_to_idx : dict Z nat;
  idx_to_user : dict nat Z;
  movie_to_idx : dict Z nat;
  idx_to_movie : dict nat Z;
  is_fitted : bool
}.

(** [__init__] *)
Definition init (k min_common : Z) : model :=
  {| k := k; min_common := min_common; ratings_df := None; movies_df := None;
     user_similarity := None; user_item_matrix := None; user_means := None;
     user_ids := []; movie_ids := [];
     user_to_idx := []; idx_to_user := [];
     movie_to_idx := []; idx_to_movie := []; is_fitted := false |}.

(** [_compute_user_means]: the row sum over the number of positive entries,
    3.0 for a row without any. *)
Definition compute_user_means (M : matrix) : vec :=
  map (fun row =>
         let counts := length (filter (Rltb 0) row) in
         if Nat.ltb 0 counts then sum row / INR counts else 3)
      M.

(** [_compute_user_similarity] *)
Definition compute_user_similarity (M : matrix) (means : vec) : matrix :=
  let centered :=
    map2 (fun row m => map (fun x => if Rltb 0 x then x - m else 0) row) M means in
  let normalized := normalize_rows centered in
  fill_diagonal (gram normalized) 0.

(** [fit] *)
Definition fit (self : model) (ratings : list rating_row)
    (movies : option (list movie_row)) : model :=
  let user_ids' := sorted_unique (map userId ratings) in
  let movie_ids' := sorted_unique (map r_movieId ratings) in
  let umaps := enumerate_into user_ids' 0 (user_to_idx self) (idx_to_user self) in
  let mmaps := enumerate_into movie_ids' 0 (movie_to_idx self) (idx_to_movie self) in
  let n_users := length user_ids' in
  let n_items := length movie_ids' in
  let M := rating_matrix (fst umaps) (fst mmaps) n_users n_items ratings in
  let means := compute_user_means M in
  {| k := k self; min_common := min_common self;
     ratings_df := Some ratings; movies_df := movies;
     user_similarity := Some (compute_user_similarity M means);
     user_item_matrix := Some M;
     user_means := Some means;
     user_ids := user_ids'; movie_ids := movie_ids';
     user_to_idx := fst umaps; idx_to_user := snd umaps;
     movie_to_idx := fst mmaps; idx_to_movie := snd mmaps;
     is_fitted := true |}.

Section Queries.
Variable self : model.

Fixpoint similar_loop (similarities : vec) (indices : list nat)
    : res (list (Z * R)) :=
  match indices with
  | [] => Ok []
  | sim_idx :: rest =>
      sim_user_id <- dict_item Nat.eqb (idx_to_user self) sim_idx ;;
      results <- similar_loop similarities rest ;;
      Ok ((sim_user_id, nth sim_idx similarities 0) :: results)
  end.

(** [get_similar_users]: the pairs of [userId] and [similarity]. *)
Definition get_similar_users (user_id : Z) (n : Z) : res (list (Z * R)) :=
  if negb (is_fitted self) then Ok []
  else match dict_get Z.eqb (user_to_idx self) user_id with
       | None => Ok []
       | Some user_idx =>
           S <- the (user_similarity self) ;;
           similarities <- getitem S user_idx ;;
           similar_loop similarities (py_take n (rev (argsort similarities)))
       end.

(** The prediction from the neighbours that are left (lines 183-198 and
    256-263): the user's mean plus the weighted mean deviation. *)
Definition deviation_prediction (user_mean : R) (weights ratings neighbor_means : vec)
    : R :=
  let deviations := map2 Rminus ratings neighbor_means in
  let predicted := user_mean + sum (map2 Rmult weights deviations) / sum weights in
  clip predicted (1 / 2) 5.

(** [predict_rating] *)
Definition predict_rating (user_id movie_id : Z) : res (option R) :=
  if negb (is_fitted self) then Ok None
  else match dict_get Z.eqb (user_to_idx self) user_id,
             dict_get Z.eqb (movie_to_idx self) movie_id with
       | Some user_idx, Some movie_idx =>
           M <- the (user_item_matrix self) ;;
           movie_ratings <- column M movie_idx ;;
           let rated_indices := where_pos movie_ratings in
           match rated_indices with
           | [] =>
               means <- the (user_means self) ;;
               user_mean <- getitem means user_idx ;;
               Ok (Some user_mean)
           | _ :: _ =>
               S <- the (user_similarity self) ;;
               row <- getitem S user_idx ;;
               similarities <- take_items row rated_indices ;;
               let (sims, idxs) := top_k (k self) similarities rated_indices in
               let pos_mask := map (Rltb 0) sims in
               if negb (existsb (fun b : bool => b) pos_mask)
               then
                 means <- the (user_means self) ;;
                 user_mean <- getitem means user_idx ;;
                 Ok (Some user_mean)
               else
                 let weights := mask_sel pos_mask sims in
                 let neighbor_indices := mask_sel pos_mask idxs in
                 ratings <- take_items movie_ratings neighbor_indices ;;
                 means <- the (user_means self) ;;
                 neighbor_means <- take_items means neighbor_indices ;;
                 user_mean <- getitem means user_idx ;;
                 Ok (Some (deviation_prediction user_mean weights ratings
                             neighbor_means))
           end
       | _, _ => Ok None
       end.

(** The prediction loop of [recommend]. *)
Fixpoint predictions_loop (M : matrix) (user_idx : nat)
    (similar_indices : list nat) (similarities : vec) (exclude : idset)
    (movie_indices : list nat) : res (list (Z * R)) :=
  match movie_indices with
  | [] => Ok []
  | movie_idx :: rest =>
      movie_id <- dict_item Nat.eqb (idx_to_movie self) movie_idx ;;
      if mem movie_id exclude
      then predictions_loop M user_idx similar_indices similarities exclude rest
      else
        rows <- take_items M similar_indices ;;
        neighbor_ratings <- column rows movie_idx ;;
        let rated_mask := map (Rltb 0) neighbor_ratings in
        if negb (existsb (fun b : bool => b) rated_mask)
        then predictions_loop M user_idx similar_indices similarities exclude rest
        else
          let weights := mask_sel rated_mask similarities in
          let ratings := mask_sel rated_mask neighbor_ratings in
          means <- the (user_means self) ;;
          neighbor_means <- take_items means (mask_sel rated_mask similar_indices) ;;
          user_mean <- getitem means user_idx ;;
          let pred := deviation_prediction user_mean weights ratings
                        neighbor_means in
          preds <- predictions_loop M user_idx similar_indices
                     similarities exclude rest ;;
          Ok ((movie_id, pred) :: preds)
  end.

(** [recommend] *)
Definition recommend (user_id : Z) (n : Z) (exclude : option idset)
    : res (list recommendation) :=
  if negb (is_fitted self) then Ok []
  else
    let exclude := or_empty exclude in
    match dict_get Z.eqb (user_to_idx self) user_id with
    | None => Ok (get_popular_items (movies_df self) (movie_to_idx self) n exclude)
    | Some user_idx =>
        M <- the (user_item_matrix self) ;;
        user_ratings <- getitem M user_idx ;;
        let rated_indices := where_pos user_ratings in
        rated_movie_ids <- (fix ids (l : list nat) : res (list Z) :=
                              match l with
                              | [] => Ok []
                              | i :: l' =>
                                  m <- dict_item Nat.eqb (idx_to_movie self) i ;;
                                  ms <- ids l' ;;
                                  Ok (m :: ms)
                              end) rated_indices ;;
        let exclude := set_union exclude rated_movie_ids in
        S <- the (user_similarity self) ;;
        row <- getitem S user_idx ;;
        let similar_indices := py_take (k self) (rev (argsort row)) in
        let similarities := select 0 row similar_indices in
        let pos_mask := map (Rltb 0) similarities in
        if negb (existsb (fun b : bool => b) pos_mask)
        then Ok (get_popular_items (movies_df self) (movie_to_idx self) n exclude)
        else
          predictions <- predictions_loop M user_idx
                           (mask_sel pos_mask similar_indices)
                           (mask_sel pos_mask similarities) exclude
                           (seq 0 (length (movie_ids self))) ;;
          Ok (to_recommendations (movies_df self) "user_based"
                (py_take n (sort_desc snd predictions)))
    end.
End Queries.

End UserBased.

(* ================================================================== *)
(** * Hybrid model ([hybrid.py]) *)

Module Hybrid.

Record model : Type := Model {
  content_weight : R;
  item_weight : R;
  user_weight : R;
  content_model : option ContentBased.model;
  item_model : option ItemBased.model;
  user_model : option UserBased.model;
  movies_df : option (list movie_row);
  ratings_df : option (list rating_row);
  is_fitted : bool
}.

(** [__init__]: the weights are divided by their total, a Python float
    division. *)
Definition init (content_weight item_weight user_weight : R) : res model :=
  let total := content_weight + item_weight + user_weight in
  if Reqb total 0 then Raise ZeroDivisionError
  else Ok {| content_weight := content_weight / total;
             item_weight := item_weight / total;
             user_weight := user_weight / total;
             content_model := None; item_model := None; user_model := None;
             movies_df := None; ratings_df := None; is_fitted := false |}.

(** [set_weights] *)
Definition set_weights (self : model) (content_weight item_weight user_weight : R)
    : res model :=
  let total := content_weight + item_weight + user_weight in
  if Reqb total 0 then Raise ZeroDivisionError
  else Ok {| content_weight := content_weight / total;
             item_weight := item_weight / total;
             user_weight := user_weight / total;
             content_model := content_model self;
             item_model := item_model self; user_model := user_model self;
             movies_df := movies_df self; ratings_df := ratings_df self;
             is_fitted := is_fitted self |}.

(** [fit]: a sub-model that is not handed over is built with the defaults of
    its class and fitted here. *)
Definition fit (vectorize : list (list string) -> matrix) (self : model)
    (movies : list movie_row) (ratings : list rating_row)
    (content : option ContentBased.model) (item : option ItemBased.model)
    (user : option UserBased.model) : res model :=
  cm <- match content with
        | Some m => Ok m
        | None => ContentBased.fit vectorize ContentBased.init movies None None false
        end ;;
  let im := match item with
            | Some m => m
            | None => ItemBased.fit (ItemBased.init 20 5) ratings (Some movies)
            end in
  let um := match user with
            | Some m => m
            | None => UserBased.fit (UserBased.init 20 3) ratings (Some movies)
            end in
  Ok {| content_weight := content_weight self;
        item_weight := item_weight self;
        user_weight := user_weight self;
        content_model := Some cm; item_model := Some im; user_model := Some um;
        movies_df := Some movies; ratings_df := Some ratings;
        is_fitted := true |}.

(** The scores the sub-models gave for one movie: the dictionary
    [scores] with the keys ['content'], ['item'] and ['user']. *)
Record component_scores : Type := Scores {
  content_score : option R;
  item_score : option R;
  user_score : option R
}.

(** A value of [all_scores]. *)
Record candidate : Type := Candidate {
  c_movieId : Z;
  c_title : string;
  c_genres : list string;
  c_avgRating : R;
  scores : component_scores;
  total_weight : R
}.

(** A row of the hybrid's answer. *)
Record hybrid_rec : Type := HybridRec {
  h_movieId : Z;
  h_title : string;
  h_genres : list string;
  h_avgRating : R;
  h_score : R;
  h_method : string;
  h_component_scores : component_scores
}.

Inductive source : Type := FromContent | FromItem | FromUser.

Definition set_score (src : source) (x : R) (s : component_scores)
    : component_scores :=
  match src with
  | FromContent => {| content_score := Some x; item_score := item_score s;
                      user_score := user_score s |}
  | FromItem => {| content_score := content_score s; item_score := Some x;
                   user_score := user_score s |}
  | FromUser => {| content_score := content_score s; item_score := item_score s;
                   user_score := Some x |}
  end.

Section Queries.
Variable self : model.

Definition weight_of (src : source) : R :=
  match src with
  | FromContent => content_weight self
  | FromItem => item_weight self
  | FromUser => user_weight self
  end.

(** One round of a merge loop of [recommend] (lines 168-180, 185-197 and
    202-214). *)
Definition merge_one (src : source) (all_scores : dict Z candidate)
    (rec : recommendation) : dict Z candidate :=
  let movie_id := rec_movieId rec in
  let all_scores' :=
    match dict_get Z.eqb all_scores movie_id with
    | Some _ => all_scores
    | None =>
        dict_set Z.eqb all_scores movie_id
          {| c_movieId := movie_id; c_title := rec_title rec;
             c_genres := rec_genres rec; c_avgRating := rec_avgRating rec;
             scores := {| content_score := None; item_score := None;
                          user_score := None |};
             total_weight := 0 |}
    end in
  match dict_get Z.eqb all_scores' movie_id with
  | None => all_scores'
  | Some c =>
      dict_set Z.eqb all_scores' movie_id
        {| c_movieId := c_movieId c; c_title := c_title c;
           c_genres := c_genres c; c_avgRating := c_avgRating c;
           scores := set_score src (rec_score rec) (scores c);
           total_weight := total_weight c + weight_of src |}
  end.

Definition merge (src : source) (all_scores : dict Z candidate)
    (recs : list recommendation) : dict Z candidate :=
  fold_left (merge_one src) recs all_scores.

(** Lines 225-239: the weighted sum of the scores that are there, divided
    by the sum of their weights when that is positive. *)
Definition final_score (s : component_scores) : R :=
  let acc0 := (0, 0) in
  let acc1 := match content_score s with
              | Some x => (fst acc0 + x * content_weight self,
                           snd acc0 + content_weight self)
              | None => acc0
              end in
  let acc2 := match item_score s with
              | Some x => (fst acc1 + x * item_weight self,
                           snd acc1 + item_weight self)
              | None => acc1
              end in
  let acc3 := match user_score s with
              | Some x => (fst acc2 + x * user_weight self,
                           snd acc2 + user_weight self)
              | None => acc2
              end in
  if Rltb 0 (snd acc3) then fst acc3 / snd acc3 else fst acc3.

(** The loop over [all_scores.items()] (lines 217-249). *)
Fixpoint final_loop (exclude : idset) (items : dict Z candidate)
    : list hybrid_rec :=
  match items with
  | [] => []
  | (movie_id, data) :: rest =>
      if mem movie_id exclude then final_loop exclude rest
      else {| h_movieId := movie_id; h_title := c_title data;
              h_genres := c_genres data; h_avgRating := c_avgRating data;
              h_score := final_score (scores data); h_method := "hybrid";
              h_component_scores := scores data |}
           :: final_loop exclude rest
  end.

(** [_get_user_ratings] *)
Definition get_user_ratings (user_id : Z) : list rated :=
  match ratings_df self with
  | None => []
  | Some df =>
      map (fun row => {| rated_movieId := r_movieId row;
                         rated_rating := Some (rating row) |})
          (filter (fun row => (userId row =? user_id)%Z) df)
  end.

(** Lines 162-163: the history handed over, or else the user's rows of
    [ratings_df]. *)
Definition user_history (user_id : Z) (user_rated_movies : option (list rated))
    : list rated :=
  match user_rated_movies with
  | Some l => l
  | None => get_user_ratings user_id
  end.

(** The three sub-model calls of [recommend], each asked for [n*2]
    candidates, in the order of the source.  The set [r] is the hybrid's
    own [exclude] object: the content model gets the reference, the two
    collaborative models read its members as they are at their call. *)
Definition content_candidates (fresh : nat -> cell) (user_id n : Z) (r : ref)
    (user_rated_movies : option (list rated)) (h : heap)
    : res (list recommendation) * heap :=
  match content_model self with
  | None => (Ok [], h)
  | Some cm =>
      ContentBased.recommend_for_user cm fresh user_id
        (user_history user_id user_rated_movies) (n * 2) (Some r) h
  end.

Definition item_candidates (user_id n : Z) (exclude : idset)
    : res (list recommendation) :=
  match item_model self with
  | None => Ok []
  | Some im => ItemBased.recommend im user_id (n * 2) (Some exclude)
  end.

Definition user_candidates (user_id n : Z) (exclude : idset)
    : res (list recommendation) :=
  match user_model self with
  | None => Ok []
  | Some um => UserBased.recommend um user_id (n * 2) (Some exclude)
  end.

(** [recommend] *)
Definition recommend (fresh : nat -> cell) (user_id : Z) (n : Z)
    (exclude : option ref) (user_rated_movies : option (list rated))
    (h : heap) : res (list hybrid_rec) * heap :=
  if negb (is_fitted self) then (Ok [], h)
  else
    let (r, h1) := or_new_set exclude h in
    let (cb, h2) := content_candidates fresh user_id n r user_rated_movies h1 in
    (cb_recs <- cb ;;
     ib_recs <- item_candidates user_id n (deref h2 r) ;;
     ub_recs <- user_candidates user_id n (deref h2 r) ;;
     let all_scores :=
       merge FromUser (merge FromItem (merge FromContent [] cb_recs) ib_recs)
             ub_recs in
     let results := final_loop (deref h2 r) all_scores in
     Ok (py_take n (sort_desc h_score results)),
     h2).

(** The similarities the two movie-to-movie models gave for one movie. *)
Record pair_sims : Type := Sims {
  content_sim : option R;
  item_sim : option R
}.

Definition merge_similar (from_content : bool)
    (all_similar : dict Z (similar * pair_sims)) (movie : similar)
    : dict Z (similar * pair_sims) :=
  let mid := sim_movieId movie in
  let all_similar' :=
    match dict_get Z.eqb all_similar mid with
    | Some _ => all_similar
    | None => dict_set Z.eqb all_similar mid
                (movie, {| content_sim := None; item_sim := None |})
    end in
  match dict_get Z.eqb all_similar' mid with
  | None => all_similar'
  | Some (info, sims) =>
      dict_set Z.eqb all_similar' mid
        (info,
         if from_content
         then {| content_sim := Some (similarity movie);
                 item_sim := item_sim sims |}
         else {| content_sim := content_sim sims;
                 item_sim := Some (similarity movie) |})
  end.

Definition hybrid_sim (s : pair_sims) : R :=
  let acc0 := (0, 0) in
  let acc1 := match content_sim s with
              | Some x => (fst acc0 + x * content_weight self,
                           snd acc0 + content_weight self)
              | None => acc0
              end in
  let acc2 := match item_sim s with
              | Some x => (fst acc1 + x * item_weight self,
                           snd acc1 + item_weight self)
              | None => acc1
              end in
  if Rltb 0 (snd acc2) then fst acc2 / snd acc2 else fst acc2.

(** [get_similar_movies] *)
Definition get_similar_movies (movie_id : Z) (n : Z) : res (list similar) :=
  if negb (is_fitted self) then Ok []
  else
    cb_similar <- match content_model self with
                  | None => Ok []
                  | Some cm => ContentBased.get_similar_movies cm movie_id (n * 2) None
                  end ;;
    ib_similar <- match item_model self with
                  | None => Ok []
                  | Some im => ItemBased.get_similar_items im movie_id (n * 2)
                  end ;;
    let all_similar :=
      fold_left (merge_similar false)
                ib_similar (fold_left (merge_similar true) cb_similar []) in
    let results :=
      map (fun kv =>
             let info := fst (snd kv) in
             {| sim_movieId := fst kv; sim_title := sim_title info;
                sim_genres := sim_genres info;
                sim_avgRating := sim_avgRating info;
                similarity := hybrid_sim (snd (snd kv)) |})
          all_similar in
    Ok (py_take n (sort_desc similarity results)).

(** Lines 131-135: [weights / weights.sum()] is a numpy division, so
    weights that add up to zero give [NaN] weights, a [NaN] average, and
    [np.clip] and [float] hand the [NaN] on. *)
Definition blend (predictions weights : vec) : cell :=
  if Reqb (sum weights) 0 then NaN
  else
    let weights' := map (fun w => w / sum weights) weights in
    Fin (clip (sum (map2 Rmult predictions weights') / sum weights') (1 / 2) 5).

(** [predict_rating] *)
Definition predict_rating (user_id movie_id : Z)
    (user_rated_movies : option (list rated)) : res (option cell) :=
  if negb (is_fitted self) then Ok None
  else
    pw1 <- match content_model self, user_rated_movies with
           | Some cm, Some (_ :: _) =>
               cb_pred <- ContentBased.predict_rating cm user_id movie_id
                            user_rated_movies ;;
               Ok (match cb_pred with
                   | Some p => ([p], [content_weight self])
                   | None => ([], [])
                   end)
           | _, _ => Ok ([], [])
           end ;;
    pw2 <- match item_model self with
           | Some im =>
               ib_pred <- ItemBased.predict_rating im user_id movie_id ;;
               Ok (match ib_pred with
                   | Some p => (fst pw1 ++ [p], snd pw1 ++ [item_weight self])
                   | None => pw1
                   end)
           | None => Ok pw1
           end ;;
    pw3 <- match user_model self with
           | Some um =>
               ub_pred <- UserBased.predict_rating um user_id movie_id ;;
               Ok (match ub_pred with
                   | Some p => (fst pw2 ++ [p], snd pw2 ++ [user_weight self])
                   | None => pw2
                   end)
           | None => Ok pw2
           end ;;
    match fst pw3 with
    | [] => Ok None
    | _ :: _ => Ok (Some (blend (fst pw3) (snd pw3)))
    end.
End Queries.

End Hybrid.

(* ================================================================== *)
(** * Example data *)

(** A hybrid model as [HybridModel()] leaves it: the default weights 0.3,
    0.35 and 0.35 (their total is 1), nothing fitted. *)
Definition hybrid_unfitted : Hybrid.model :=
  {| Hybrid.content_weight := 3 / 10; Hybrid.item_weight := 7 / 20;
     Hybrid.user_weight := 7 / 20;
     Hybrid.content_model := None; Hybrid.item_model := None;
     Hybrid.user_model := None;
     Hybrid.movies_df := None; Hybrid.ratings_df := None;
     Hybrid.is_fitted := false |}.

(* ================================================================== *)
(** * Properties of a similarity matrix

    [entry] reads 0 outside the matrix, so the statements below quantify over
    all positions. *)

Definition is_square (M : matrix) : Prop :=
  Forall (fun row => length row = length M) M.

Definition is_symmetric (M : matrix) : Prop :=
  forall i j : nat, entry M i j = entry M j i.

Definition has_zero_diagonal (M : matrix) : Prop :=
  forall i : nat, entry M i i = 0.

(** The diagonal [cosine_similarity] leaves when nothing zeroes it: the
    cosine of each row with itself, positive at a row of positive norm and 0
    at a row of zeros. *)
Definition keeps_cosine_diagonal (X M : matrix) : Prop :=
  forall i : nat, (i < length X)%nat ->
    (0 < norm (nth i X []) -> 0 < entry M i i) /\
    (~ 0 < norm (nth i X []) -> entry M i i = 0).

(** What scikit-learn's [cosine_similarity] requires of its argument before
    it computes anything: at least one row and at least one column.  On any
    other array it raises [ValueError], and so does the [fit] that called
    it. *)
Definition has_rows_and_columns (X : matrix) : bool :=
  match X with
  | (_ :: _) :: _ => true
  | _ => false
  end.

(** The feature matrix [fit] takes the cosine similarity of. *)
Definition content_features (vectorize : list (list string) -> matrix)
    (self : ContentBased.model) (df : list movie_row) (tfidf emb : option matrix)
    (use_embeddings : bool) : res matrix :=
  let tfidf' := match tfidf with
                | Some t => t
                | None => vectorize (map genres df)
                end in
  let emb' := match emb with
              | Some e => Some e
              | None => ContentBased.embeddings self
              end in
  match use_embeddings, emb' with
  | true, Some e => ContentBased.combine_features tfidf' e (1 / 2)
  | _, _ => Ok tfidf'
  end.

(** Two movies without a genre in common, with one-hot feature rows. *)
Definition movies2 : list movie_row :=
  [ MovieRow 1 "Heat" ["Action"%string] 4 10;
    MovieRow 2 "Emma" ["Romance"%string] 3 5 ].

Definition tfidf2 : matrix := [[1; 0]; [0; 1]].

(** A stand-in for the vectorizer where a matrix is passed to [fit]. *)
Definition no_vectorizer : list (list string) -> matrix := fun _ => [].

(** The content model [ContentBasedModel().fit(movies2, tfidf_matrix=tfidf2)]
    (lemma [fit_cb_two]). *)
Definition cb_two : ContentBased.model :=
  {| ContentBased.movies_df := Some movies2;
     ContentBased.tfidf_matrix := Some tfidf2;
     ContentBased.similarity_matrix := Some [[1; 0]; [0; 1]];
     ContentBased.movie_id_to_idx := [(1%Z, 0%nat); (2%Z, 1%nat)];
     ContentBased.idx_to_movie_id := [(0%nat, 1%Z); (1%nat, 2%Z)];
     ContentBased.embeddings := None;
     ContentBased.is_fitted := true |}.

(** Two users and the two movies of [movies2]: both users rate movie 1 with
    5.0, and they disagree on movie 2. *)
Definition ratings_two : list rating_row :=
  [ RatingRow 1 1 5; RatingRow 2 1 5; RatingRow 1 2 5; RatingRow 2 2 1 ].

(** A hybrid model with the default weights around [cb_two] and the two
    collaborative models fitted on [ratings_two]. *)
Definition hy_two : Hybrid.model :=
  {| Hybrid.content_weight := 3 / 10; Hybrid.item_weight := 7 / 20;
     Hybrid.user_weight := 7 / 20;
     Hybrid.content_model := Some cb_two;
     Hybrid.item_model :=
       Some (ItemBased.fit (ItemBased.init 20 1) ratings_two (Some movies2));
     Hybrid.user_model :=
       Some (UserBased.fit (UserBased.init 20 3) ratings_two (Some movies2));
     Hybrid.movies_df := Some movies2; Hybrid.ratings_df := Some ratings_two;
     Hybrid.is_fitted := true |}.

(** A second catalogue, with other movie ids, and the two content models
    fitted on it: [cb_refit] by calling [fit] again on [cb_two], [cb_fresh]
    by fitting a newly constructed model (lemmas [fit_cb_refit] and
    [fit_cb_fresh]). *)
Definition movies34 : list movie_row :=
  [ MovieRow 3 "Alien" ["Horror"%string] 4 8;
    MovieRow 4 "Big" ["Comedy"%string] 3 6 ].

Definition cb_refit : ContentBased.model :=
  {| ContentBased.movies_df := Some movies34;
     ContentBased.tfidf_matrix := Some tfidf2;
     ContentBased.similarity_matrix := Some [[1; 0]; [0; 1]];
     ContentBased.movie_id_to_idx :=
       [(1%Z, 0%nat); (2%Z, 1%nat); (3%Z, 0%nat); (4%Z, 1%nat)];
     ContentBased.idx_to_movie_id := [(0%nat, 3%Z); (1%nat, 4%Z)];
     ContentBased.embeddings := None;
     ContentBased.is_fitted := true |}.

Definition cb_fresh : ContentBased.model :=
  {| ContentBased.movies_df := Some movies34;
     ContentBased.tfidf_matrix := Some tfidf2;
     ContentBased.similarity_matrix := Some [[1; 0]; [0; 1]];
     ContentBased.movie_id_to_idx := [(3%Z, 0%nat); (4%Z, 1%nat)];
     ContentBased.idx_to_movie_id := [(0%nat, 3%Z); (1%nat, 4%Z)];
     ContentBased.embeddings := None;
     ContentBased.is_fitted := true |}.

(** The item model [ItemBasedModel(k=20, min_ratings=1).fit(ratings_two,
    movies2)] (lemma [fit_ib_two]): after mean-centering, movie 1 is a row
    of zeros, so every similarity is 0. *)
Definition ib_two : ItemBased.model :=
  {| ItemBased.k := 20; ItemBased.min_ratings := 1;
     ItemBased.ratings_df := Some ratings_two;
     ItemBased.movies_df := Some movies2;
     ItemBased.item_similarity := Some [[0; 0]; [0; 0]];
     ItemBased.user_item_matrix := Some [[5; 5]; [5; 1]];
     ItemBased.user_ids := [1; 2]%Z; ItemBased.movie_ids := [1; 2]%Z;
     ItemBased.movie_to_idx := [(1%Z, 0%nat); (2%Z, 1%nat)];
     ItemBased.idx_to_movie := [(0%nat, 1%Z); (1%nat, 2%Z)];
     ItemBased.user_to_idx := [(1%Z, 0%nat); (2%Z, 1%nat)];
     ItemBased.idx_to_user := [(0%nat, 1%Z); (1%nat, 2%Z)];
     ItemBased.is_fitted := true |}.

(** [HybridModel(content_weight=0, item_weight=1, user_weight=1)]: the
    content model is switched off by its weight (lemma [init_hy_zero]). *)
Definition hy_zero_unfitted : Hybrid.model :=
  {| Hybrid.content_weight := 0; Hybrid.item_weight := 1 / 2;
     Hybrid.user_weight := 1 / 2;
     Hybrid.content_model := None; Hybrid.item_model := None;
     Hybrid.user_model := None;
     Hybrid.movies_df := None; Hybrid.ratings_df := None;
     Hybrid.is_fitted := false |}.

(** The same model after [fit(movies2, ratings_two, cb_two, ib_two, ub)],
    [ub] being the user model fitted on [ratings_two]. *)
Definition hy_zero : Hybrid.model :=
  {| Hybrid.content_weight := 0; Hybrid.item_weight := 1 / 2;
     Hybrid.user_weight := 1 / 2;
     Hybrid.content_model := Some cb_two;
     Hybrid.item_model := Some ib_two;
     Hybrid.user_model :=
       Some (UserBased.fit (UserBased.init 20 3) ratings_two (Some movies2));
     Hybrid.movies_df := Some movies2; Hybrid.ratings_df := Some ratings_two;
     Hybrid.is_fitted := true |}.

(** Ratings as the data model allows them: between 0.5 and 5.0. *)
Definition valid_rating (x : R) : Prop := 1 / 2 <= x <= 5.

(** A cell of the rating matrix: unrated (0) or a valid rating. *)
Definition valid_cell (x : R) : Prop := x = 0 \/ valid_rating x.

(* ================================================================== *)
(** * The neighbourhood of a prediction, as the design describes it *)






(** Two users who have one movie in common: both rated movie 10; user 1
    also rated movie 11 and user 2 movie 12. *)
Definition ratings_three : list rating_row :=
  [ RatingRow 1 10 5; RatingRow 1 11 1; RatingRow 2 10 4; RatingRow 2 12 2 ].

(** The user model [UserBasedModel(k=20, min_common=mc).fit(ratings_three)]
    (lemma [fit_ub_three]). *)
Definition ub_three (mc : Z) : UserBased.model :=
  {| UserBased.k := 20; UserBased.min_common := mc;
     UserBased.ratings_df := Some ratings_three;
     UserBased.movies_df := None;
     UserBased.user_similarity := Some [[0; 1 / 2]; [1 / 2; 0]];
     UserBased.user_item_matrix := Some [[5; 1; 0]; [4; 0; 2]];
     UserBased.user_means := Some [3; 3];
     UserBased.user_ids := [1; 2]%Z; UserBased.movie_ids := [10; 11; 12]%Z;
     UserBased.user_to_idx := [(1%Z, 0%nat); (2%Z, 1%nat)];
     UserBased.idx_to_user := [(0%nat, 1%Z); (1%nat, 2%Z)];
     UserBased.movie_to_idx := [(10%Z, 0%nat); (11%Z, 1%nat); (12%Z, 2%nat)];
     UserBased.idx_to_movie := [(0%nat, 10%Z); (1%nat, 11%Z); (2%nat, 12%Z)];
     UserBased.is_fitted := true |}.

(* ================================================================== *)
(** * The hybrid blend, as the design describes it *)













(** The popularity ranking of [movies2], the cold-start answer of all
    three sub-models. *)
Definition popular_two : list recommendation :=
  [ {| rec_movieId := 1; rec_title := "Heat"; rec_genres := ["Action"%string];
       rec_avgRating := 4; rec_score := 4; rec_method := "popular" |};
    {| rec_movieId := 2; rec_title := "Emma"; rec_genres := ["Romance"%string];
       rec_avgRating := 3; rec_score := 3; rec_method := "popular" |} ].

(** The number of movies both user [a] and user [b] rated. *)
Definition co_rated (M : matrix) (a b : nat) : nat :=
  length (filter (fun j => Rltb 0 (entry M a j) && Rltb 0 (entry M b j))
                 (seq 0 (length (nth a M [])))).

(** Three users and two movies: users 1 and 2 rated both movies (and agree
    on their order), user 3 rated movie 1 only. *)
Definition ratings_ab : list rating_row :=
  [ RatingRow 1 1 5; RatingRow 2 1 1; RatingRow 3 1 3;
    RatingRow 1 2 4; RatingRow 2 2 2 ].

(** The item model [ItemBasedModel(k=20, min_ratings=1).fit(ratings_ab)]
    (lemma [fit_ib_ab]). *)
Definition ib_ab : ItemBased.model :=
  {| ItemBased.k := 20; ItemBased.min_ratings := 1;
     ItemBased.ratings_df := Some ratings_ab;
     ItemBased.movies_df := None;
     ItemBased.item_similarity := Some [[0; 1]; [1; 0]];
     ItemBased.user_item_matrix := Some [[5; 4]; [1; 2]; [3; 0]];
     ItemBased.user_ids := [1; 2; 3]%Z; ItemBased.movie_ids := [1; 2]%Z;
     ItemBased.movie_to_idx := [(1%Z, 0%nat); (2%Z, 1%nat)];
     ItemBased.idx_to_movie := [(0%nat, 1%Z); (1%nat, 2%Z)];
     ItemBased.user_to_idx := [(1%Z, 0%nat); (2%Z, 1%nat); (3%Z, 2%nat)];
     ItemBased.idx_to_user := [(0%nat, 1%Z); (1%nat, 2%Z); (2%nat, 3%Z)];
     ItemBased.is_fitted := true |}.

(* ================================================================== *)
(** * Orders on sorted results *)

(** [a] may stand before [b] in a list sorted by descending [key]. *)
Definition desc {A : Type} (key : A -> R) (a b : A) : Prop := key b <= key a.

(** Index [i] may stand before index [j] in [argsort v]. *)
Definition asc (v : vec) (i j : nat) : Prop := nth i v 0 <= nth j v 0.


(* ================================================================== *)
(** * Popularity fallbacks *)

(** The row the popularity loops build for a movie of the frame. *)
Definition popular_row (row : movie_row) : recommendation :=
  {| rec_movieId := movieId row; rec_title := title row; rec_genres := genres row;
     rec_avgRating := avgRating row; rec_score := avgRating row;
     rec_method := "popular" |}.

(** A movie [_get_popular_items] may return: not excluded and known to the
    model. *)
Definition eligible (movie_to_idx : dict Z nat) (exclude : idset) (row : movie_row)
    : bool :=
  negb (mem (movieId row) exclude)
  && match dict_get Z.eqb movie_to_idx (movieId row) with
     | Some _ => true
     | None => false
     end.

(** The number of rows a popularity loop returns at most: the length is
    tested after the append, so one row is returned even for [n <= 0]. *)
Definition popular_quota (n : Z) : nat := Z.to_nat (Z.max 1 n).

(** [a] may stand before [b] in
    [sort_values(by=['ratingCount', 'avgRating'], ascending=[False, False])]. *)
Definition popular_before (a b : movie_row) : Prop :=
  (ratingCount b < ratingCount a)%Z \/
  (ratingCount a = ratingCount b /\ avgRating b <= avgRating a).

(* ================================================================== *)
(** * Vectorization service ([services/vectorization.py]) *)

(** [{key: idx for idx, key in enumerate(keys)}], continued from [idx] on
    the dictionary [d]. *)
Fixpoint index_from (keys : list Z) (idx : nat) (d : dict Z nat) : dict Z nat :=
  match keys with
  | [] => d
  | key :: keys' => index_from keys' (S idx) (dict_set Z.eqb d key idx)
  end.

Module Vectorizer.

(** [create_user_item_matrix]: the sparse matrix is given by its dense
    content.  The parameter [fill_value] is never read. *)
Definition create_user_item_matrix (ratings_df : list rating_row) (fill_value : R)
    : matrix * list Z * list Z :=
  let user_ids := sorted_unique (map userId ratings_df) in
  let movie_ids := sorted_unique (map r_movieId ratings_df) in
  let user_to_idx := index_from user_ids 0 [] in
  let movie_to_idx := index_from movie_ids 0 [] in
  let n_users := length user_ids in
  let n_movies := length movie_ids in
  (rating_matrix user_to_idx movie_to_idx n_users n_movies ratings_df,
   user_ids, movie_ids).

End Vectorizer.

(* ================================================================== *)
(** * Evaluation service ([services/evaluation.py]) *)

(** An arithmetic operation on two one-dimensional arrays, with numpy's
    broadcasting: equal lengths pair up, an array of length one is
    stretched, any other pair of lengths is an error. *)
Definition broadcast2 (f : R -> R -> R) (a b : vec) : res vec :=
  if Nat.eqb (length a) (length b) then Ok (map2 f a b)
  else match a, b with
       | [x], _ => Ok (map (f x) b)
       | _, [y] => Ok (map (fun x => f x y) a)
       | _, _ => Raise ValueError
       end.

(** [np.mean]: [NaN] on an empty array. *)
Definition np_mean (v : vec) : cell :=
  match v with
  | [] => NaN
  | _ :: _ => Fin (sum v / INR (length v))
  end.

(** [set(l)], by its members in the order of their first occurrence. *)
Definition set_of_list (l : list Z) : idset := set_union [] l.

(** [a & b] *)
Definition set_inter (a b : idset) : idset := filter (fun x => mem x b) a.

Module ModelEvaluator.

(** [rmse] *)
Definition rmse (y_true y_pred : vec) : res cell :=
  d <- broadcast2 Rminus y_true y_pred ;;
  Ok (match np_mean (map (fun x => x ^ 2) d) with
      | Fin m => Fin (sqrt m)
      | c => c
      end).

(** [mae] *)
Definition mae (y_true y_pred : vec) : res cell :=
  d <- broadcast2 Rminus y_true y_pred ;;
  Ok (np_mean (map Rabs d)).

(** The number of distinct recommendations among the first [k] that are
    relevant: [len(set(top_k) & relevant)]. *)
Definition hits (recommendations : list Z) (relevant : idset) (k : Z) : nat :=
  length (set_inter (set_of_list (py_take k recommendations)) relevant).

(** [precision_at_k] *)
Definition precision_at_k (recommendations : list Z) (relevant : idset) (k : Z) : R :=
  if (k <=? 0)%Z then 0
  else INR (hits recommendations relevant k) / IZR k.

(** [recall_at_k]; [relevant] lists each of its members once. *)
Definition recall_at_k (recommendations : list Z) (relevant : idset) (k : Z) : R :=
  if Nat.eqb (length relevant) 0 then 0
  else INR (hits recommendations relevant k) / INR (length relevant).

(** [f1_at_k] *)
Definition f1_at_k (precision recall : R) : R :=
  if Reqb (precision + recall) 0 then 0
  else 2 * (precision * recall) / (precision + recall).

(** [hit_rate_at_k] *)
Definition hit_rate_at_k (recommendations : list Z) (relevant : idset) (k : Z) : R :=
  if Nat.ltb 0 (hits recommendations relevant k) then 1 else 0.

(** [coverage]; both sets list each of their members once. *)
Definition coverage (recommended_items all_items : idset) : R :=
  if Nat.eqb (length all_items) 0 then 0
  else INR (length recommended_items) / INR (length all_items).

End ModelEvaluator.

(* ================================================================== *)
(** * Helper functions ([utils/helpers.py]) *)

(** A Python slice [l[start:stop]] with step 1: a negative bound counts from
    the end, and both bounds are cut to the list. *)
Definition py_slice {A : Type} (start stop : Z) (l : list A) : list A :=
  let n := Z.of_nat (length l) in
  let bound := fun i : Z => if (i <? 0)%Z then Z.max 0 (i + n) else Z.min i n in
  firstn (Z.to_nat (bound stop - bound start)) (skipn (Z.to_nat (bound start)) l).

(** The dictionary [paginate_list] returns. *)
Record page_of (A : Type) : Type := Page {
  page_items : list A;
  page_number : Z;
  page_limit : Z;
  page_total : Z;
  page_pages : Z
}.
Arguments Page {A}.
Arguments page_items {A}.
Arguments page_number {A}.
Arguments page_limit {A}.
Arguments page_total {A}.
Arguments page_pages {A}.

(** A Python [str], by its characters; a character is a code point below
    256. *)
Definition str := list Ascii.ascii.

(** [c.isspace()] on those code points. *)
Definition isspace (c : Ascii.ascii) : bool :=
  let n := Ascii.nat_of_ascii c in
  ((9 <=? n) && (n <=? 13) || (28 <=? n) && (n <=? 32)
   || (n =? 133) || (n =? 160))%nat.

Fixpoint lstrip (s : str) : str :=
  match s with
  | [] => []
  | c :: s' => if isspace c then lstrip s' else s
  end.

(** [s.strip()] *)
Definition strip (s : str) : str := rev (lstrip (rev (lstrip s))).

Fixpoint starts_with (p s : str) : bool :=
  match p, s with
  | [], _ => true
  | _ :: _, [] => false
  | a :: p', b :: s' => Ascii.eqb a b && starts_with p' s'
  end.

(** The scan of [s.split(sep)] for a non-empty [sep]: [cur] holds the
    characters of the current piece in reverse, [skip] the number of
    characters of a separator just found that are still to be passed. *)
Fixpoint split_from (sep : str) (skip : nat) (cur : str) (s : str) : list str :=
  match s with
  | [] => [rev cur]
  | c :: s' =>
      match skip with
      | S k => split_from sep k cur s'
      | O =>
          if starts_with sep s
          then rev cur :: split_from sep (length sep - 1) [] s'
          else split_from sep 0 (c :: cur) s'
      end
  end.

(** [s.split(sep)] *)
Definition split (s sep : str) : res (list str) :=
  match sep with
  | [] => Raise ValueError
  | _ :: _ => Ok (split_from sep 0 [] s)
  end.

Definition str_eqb (a b : str) : bool :=
  if list_eq_dec Ascii.ascii_dec a b then true else false.

Module Helpers.

(** [paginate_list] *)
Definition paginate_list {A : Type} (items : list A) (page limit : Z) : page_of A :=
  let total := Z.of_nat (length items) in
  let start := ((page - 1) * limit)%Z in
  let stop := (start + limit)%Z in
  {| page_items := py_slice start stop items;
     page_number := page;
     page_limit := limit;
     page_total := total;
     page_pages := if (0 <? limit)%Z then ((total + limit - 1) / limit)%Z else 0%Z |}.

(** [normalize_rating]; a Python float division raises on a zero divisor. *)
Definition normalize_rating (rating min_val max_val : R) : res R :=
  if Reqb (max_val - min_val) 0 then Raise ZeroDivisionError
  else Ok ((rating - min_val) / (max_val - min_val)).

(** [denormalize_rating] *)
Definition denormalize_rating (normalized min_val max_val : R) : R :=
  normalized * (max_val - min_val) + min_val.

(** [clip_rating]: [max(min_val, min(max_val, rating))]. *)
Definition clip_rating (rating min_val max_val : R) : R :=
  Rmax min_val (Rmin max_val rating).

(** [parse_genres] *)
Definition parse_genres (genres_str separator : str) : res (list str) :=
  match genres_str with
  | [] => Ok []
  | _ :: _ =>
      if str_eqb genres_str (list_ascii_of_string "(no genres listed)") then Ok []
      else
        pieces <- split genres_str separator ;;
        Ok (map strip (filter (fun g => match strip g with
                                        | [] => false
                                        | _ :: _ => true
                                        end) pieces))
  end.

End Helpers.

(* ================================================================== *)
(** * Pearson correlation ([Vectorizer.compute_pearson_correlation]) *)

(** [M[i, j] = x] *)
Definition set_entry (i j : nat) (x : R) (M : matrix) : matrix :=
  set_nth i (set_nth j x (nth i M [])) M.

(** [mask_i & mask_j]: the positions at which both rows are not 0. *)
Definition common_mask (row_i row_j : vec) : list bool :=
  map2 (fun a b => negb (Reqb a 0) && negb (Reqb b 0)) row_i row_j.

(** [common.sum()] *)
Definition common_count (row_i row_j : vec) : nat :=
  length (filter (fun b : bool => b) (common_mask row_i row_j)).

Module Pearson.

(** [vals - vals.mean()] *)
Definition centered (vals : vec) : vec :=
  map (fun x => x - sum vals / INR (length vals)) vals.

(** The body of the inner loop for the rows [i] and [j]: the correlation
    that is stored, if one is. *)
Definition pair (row_i row_j : vec) (min_common : Z) : option R :=
  let common := common_mask row_i row_j in
  if (min_common <=? Z.of_nat (common_count row_i row_j))%Z then
    let vals_i := centered (mask_sel common row_i) in
    let vals_j := centered (mask_sel common row_j) in
    let denom := sqrt (sum (map (fun x => x ^ 2) vals_i)
                       * sum (map (fun x => x ^ 2) vals_j)) in
    if Rltb 0 denom then Some (sum (map2 Rmult vals_i vals_j) / denom)
    else None
  else None.

(** [for j in range(i, n)] *)
Fixpoint inner_loop (X : matrix) (min_common : Z) (i : nat) (js : list nat)
    (similarity : matrix) : matrix :=
  match js with
  | [] => similarity
  | j :: js' =>
      inner_loop X min_common i js'
        match pair (nth i X []) (nth j X []) min_common with
        | Some corr => set_entry j i corr (set_entry i j corr similarity)
        | None => similarity
        end
  end.

(** [for i in range(n)] *)
Fixpoint outer_loop (X : matrix) (min_common : Z) (n : nat) (rows : list nat)
    (similarity : matrix) : matrix :=
  match rows with
  | [] => similarity
  | i :: rows' =>
      outer_loop X min_common n rows'
        (inner_loop X min_common i (seq i (n - i)) similarity)
  end.

(** [compute_pearson_correlation] on a dense matrix. *)
Definition compute_pearson_correlation (X : matrix) (min_common : Z) : matrix :=
  let n := length X in
  outer_loop X min_common n (seq 0 n) (repeat (repeat 0 n) n).

End Pearson.

(** The correlation of the rows [a] and [b] as the loops compute it: from
    the pair taken with the smaller index first, 0 when none is stored. *)
Definition pearson_expected (X : matrix) (min_common : Z) (a b : nat) : R :=
  match Pearson.pair (nth (Nat.min a b) X []) (nth (Nat.max a b) X []) min_common with
  | Some corr => corr
  | None => 0
  end.

(** What the loops keep true of the matrix they fill: it is square of size
    [n], and an entry is either still 0 or final. *)
Definition pearson_invariant (X : matrix) (min_common : Z) (n : nat)
    (S : matrix) : Prop :=
  (length S = n /\ (forall i, (i < n)%nat -> length (nth i S []) = n)) /\
  (forall a b, entry S a b = 0 \/ entry S a b = pearson_expected X min_common a b).

(* ================================================================== *)
(** * Normalised discounted cumulative gain ([ModelEvaluator.ndcg_at_k]) *)

(** [np.log2] *)
Definition log2 (x : R) : R := ln x / ln 2.

(** [2**rel - 1] *)
Definition gain (rel : R) : R := Rpower 2 rel - 1.

(** The loop [for i, rel in enumerate(rels): dcg += (2**rel - 1) / np.log2(i + 2)],
    from position [i] on the sum [dcg]. *)
Fixpoint dcg_loop (i : nat) (rels : list R) (dcg : R) : R :=
  match rels with
  | [] => dcg
  | rel :: rest => dcg_loop (S i) rest (dcg + gain rel / log2 (INR i + 2))
  end.

Module Ndcg.

(** [relevance_scores.get(item_id, 0)] *)
Definition relevance (relevance_scores : dict Z R) (item_id : Z) : R :=
  match dict_get Z.eqb relevance_scores item_id with
  | Some rel => rel
  | None => 0
  end.

(** [ndcg_at_k] *)
Definition ndcg_at_k (recommendations : list Z) (relevance_scores : dict Z R)
    (k : Z) : R :=
  let top_k := py_take k recommendations in
  let dcg := dcg_loop 0 (map (relevance relevance_scores) top_k) 0 in
  let ideal_rels := py_take k (sort_desc (fun rel : R => rel)
                                 (map snd relevance_scores)) in
  let idcg := dcg_loop 0 ideal_rels 0 in
  if Reqb idcg 0 then 0 else dcg / idcg.

End Ndcg.

(** The discount of position [i]: [1 / log2(i + 2)]. *)
Definition discount (i : nat) : R := / log2 (INR i + 2).

(** The discounts of the positions [i], [i + 1], ... *)
Definition discounts (i n : nat) : vec := map discount (seq i n).

(* ================================================================== *)
(** * Explanations of the hybrid model ([HybridModel.explain_recommendation]) *)

(** An entry of ['similar_movies']. *)
Record similar_rated : Type := SimilarRated {
  sr_movieId : Z;
  sr_similarity : R;
  sr_rating : R
}.

(** An entry of ['methods']. *)
Inductive method_entry : Type :=
| ContentEntry (weight : R) (reason : string) (similar_movies : list similar_rated)
| ItemEntry (weight : R) (reason : string)
| UserEntry (weight : R) (reason : string) (similar_user_count : nat).

(** The dictionary [explain_recommendation] returns; the key
    ['predicted_rating'] may be absent. *)
Record explanation : Type := Explanation {
  ex_movieId : Z;
  ex_methods : list method_entry;
  ex_predicted_rating : option cell
}.

Module Explain.

Section Queries.
Variable self : Hybrid.model.

(** The loop over the user's rated movies (lines 359-371). *)
Fixpoint similar_rated_loop (cm : ContentBased.model) (movie_id : Z)
    (user_rated_movies : list rated) (similar_rated_acc : list similar_rated)
    : res (list similar_rated) :=
  match user_rated_movies with
  | [] => Ok similar_rated_acc
  | rated :: rest =>
      match dict_get Z.eqb (ContentBased.movie_id_to_idx cm) (rated_movieId rated) with
      | None => similar_rated_loop cm movie_id rest similar_rated_acc
      | Some rated_idx =>
          match dict_get Z.eqb (ContentBased.movie_id_to_idx cm) movie_id with
          | None => similar_rated_loop cm movie_id rest similar_rated_acc
          | Some movie_idx =>
              S <- the (ContentBased.similarity_matrix cm) ;;
              row <- getitem S movie_idx ;;
              sim <- getitem row rated_idx ;;
              if Rltb (1 / 10) sim then
                match rated_rating rated with
                | None => Raise KeyError
                | Some rating =>
                    similar_rated_loop cm movie_id rest
                      (similar_rated_acc
                       ++ [ {| sr_movieId := rated_movieId rated;
                               sr_similarity := sim;
                               sr_rating := rating |} ])
                end
              else similar_rated_loop cm movie_id rest similar_rated_acc
          end
      end
  end.

(** [explain_recommendation]; [None] is the empty dictionary of an unfitted
    model. *)
Definition explain_recommendation (user_id movie_id : Z)
    (user_rated_movies : option (list rated)) : res (option explanation) :=
  if negb (Hybrid.is_fitted self) then Ok None
  else
    let history := Hybrid.user_history self user_id user_rated_movies in
    methods1 <-
      match Hybrid.content_model self, history with
      | Some cm, _ :: _ =>
          similar_rated <- similar_rated_loop cm movie_id history [] ;;
          let sorted := sort_desc sr_similarity similar_rated in
          Ok [ContentEntry (Hybrid.content_weight self)
                (String.append "Similar to "
                   (String.append (string_of_Z (Z.of_nat (length sorted)))
                      " movies you liked"))
                (py_take 5 sorted)]
      | _, _ => Ok []
      end ;;
    let methods2 :=
      match Hybrid.item_model self with
      | Some im =>
          match dict_get Z.eqb (ItemBased.movie_to_idx im) movie_id with
          | Some _ =>
              methods1
              ++ [ItemEntry (Hybrid.item_weight self)
                    "Users who rated movies you rated also rated this highly"]
          | None => methods1
          end
      | None => methods1
      end in
    methods3 <-
      match Hybrid.user_model self with
      | Some um =>
          match dict_get Z.eqb (UserBased.user_to_idx um) user_id with
          | Some _ =>
              similar_users <- UserBased.get_similar_users um user_id 5 ;;
              Ok (methods2
                  ++ [UserEntry (Hybrid.user_weight self)
                        (String.append "Recommended by "
                           (String.append
                              (string_of_Z (Z.of_nat (length similar_users)))
                              " users similar to you"))
                        (length similar_users)])
          | None => Ok methods2
          end
      | None => Ok methods2
      end ;;
    pred <- Hybrid.predict_rating self user_id movie_id (Some history) ;;
    Ok (Some {| ex_movieId := movie_id; ex_methods := methods3;
                ex_predicted_rating := pred |}).
End Queries.

End Explain.

(** The kind of an entry of ['methods']: 0 for the content model, 1 for the
    item model, 2 for the user model. *)
Definition method_rank (m : method_entry) : nat :=
  match m with
  | ContentEntry _ _ _ => 0
  | ItemEntry _ _ => 1
  | UserEntry _ _ _ => 2
  end.

(* ================================================================== *)
(** * Data processing service ([services/data_processing.py]) *)

(** A row of the raw ratings frame; a missing value ([NaN]) is [None]. *)
Record raw_rating : Type := RawRating {
  raw_userId : option Z;
  raw_movieId : option Z;
  raw_rating_value : option R
}.

Module DataProcessor.

(** [handle_missing_values(df, strategy='drop')]: [df.dropna()]. *)
Fixpoint handle_missing_values_drop (df : list raw_rating) : list rating_row :=
  match df with
  | [] => []
  | row :: rest =>
      match raw_userId row, raw_movieId row, raw_rating_value row with
      | Some u, Some m, Some x =>
          {| userId := u; r_movieId := m; rating := x |}
            :: handle_missing_values_drop rest
      | _, _, _ => handle_missing_values_drop rest
      end
  end.

(** [remove_duplicates(df, subset=['userId', 'movieId'], keep='last')]: a
    row is dropped when a later row has the same user and movie. *)
Fixpoint remove_duplicates_last (df : list rating_row) : list rating_row :=
  match df with
  | [] => []
  | row :: rest =>
      if existsb (fun later => (userId later =? userId row)%Z
                               && (r_movieId later =? r_movieId row)%Z) rest
      then remove_duplicates_last rest
      else row :: remove_duplicates_last rest
  end.

(** [handle_outliers(df, 'rating', lower_bound, upper_bound)] *)
Definition handle_outliers (df : list rating_row) (lower_bound upper_bound : R)
    : list rating_row :=
  map (fun row => {| userId := userId row; r_movieId := r_movieId row;
                     rating := clip (rating row) lower_bound upper_bound |}) df.

(** [process_ratings], on the three columns the models read. *)
Definition process_ratings (ratings_df : list raw_rating) : list rating_row :=
  handle_outliers
    (remove_duplicates_last (handle_missing_values_drop ratings_df)) (1 / 2) 5.

End DataProcessor.

(* ================================================================== *)
(** * Binary64

    Two computations of the models in binary64 ([PrimFloat]), operation by
    operation as the source performs them: the similarity of two users and
    the weighted mean of a prediction that is not clipped. *)

Module Binary64.
Import PrimFloat.
Local Open Scope float_scope.

(** [np.sum] of a short array: the entries are added in index order. *)
Definition sum (v : list float) : float := fold_left add v 0.

(** An entry of [A @ A.T], the products added in index order. *)
Definition dot (u v : list float) : float := sum (map2 mul u v).

Definition of_nat (n : nat) : float := of_uint63 (Uint63.of_Z (Z.of_nat n)).

(** [UserBasedModel._compute_user_means] *)
Definition compute_user_means (M : list (list float)) : list float :=
  map (fun row =>
         let counts := length (filter (ltb 0) row) in
         if Nat.ltb 0 counts then sum row / of_nat counts else 3)
      M.

(** [UserBasedModel._compute_user_similarity] *)
Definition compute_user_similarity (M : list (list float)) (means : list float)
    : list (list float) :=
  let centered :=
    map2 (fun row m => map (fun x => if 0 <? x then x - m else 0) row) M means in
  let norms := map (fun r => sqrt (sum (map (fun x => x * x) r))) centered in
  let norms := map (fun n => if 0 <? n then n else 1) norms in
  let normalized := map2 (fun r n => map (fun x => x / n) r) centered norms in
  map2 (fun i row => set_nth i 0 row)
       (seq 0 (length normalized))
       (map (fun r => map (fun c => dot r c) normalized) normalized).

(** The loop of [ContentBasedModel.predict_rating] over the similarity and
    the rating of each rated movie, and the quotient it returns;
    [ItemBasedModel._predict_for_idx] takes the same quotient of the same
    sums. *)
Definition weighted_mean (rated : list (float * float)) : option float :=
  let sums :=
    fold_left (fun acc sr =>
                 if 0 <? fst sr then (fst acc + fst sr * snd sr, snd acc + fst sr)
                 else acc)
              rated (0, 0) in
  if 0 <? snd sums then Some (fst sums / snd sums) else None.

(** Two users who gave the same four movies 5.0, 5.0, 4.0 and 1.0. *)
Definition equal_users : list (list float) := [[5; 5; 4; 1]; [5; 5; 4; 1]].

(** Two movies rated 5.0, at the similarities 0.2 and 0.7 as binary64 holds
    them. *)
Definition two_fives : list (float * float) := [(2 / 10, 5); (7 / 10, 5)].

Definition max_rating : float := 5.

End Binary64.

(* ================================================================== *)
(** * Basic facts about the helpers *)

Lemma Rltb_true (x y : R) : x < y -> Rltb x y = true.
Proof. unfold Rltb; destruct (Rlt_dec x y); tauto. Qed.

Lemma Rltb_false (x y : R) : ~ x < y -> Rltb x y = false.
Proof. unfold Rltb; destruct (Rlt_dec x y); tauto. Qed.

Lemma Rleb_true (x y : R) : x <= y -> Rleb x y = true.
Proof. unfold Rleb; destruct (Rle_dec x y); tauto. Qed.

Lemma Rleb_false (x y : R) : ~ x <= y -> Rleb x y = false.
Proof. unfold Rleb; destruct (Rle_dec x y); tauto. Qed.

Lemma Reqb_true (x y : R) : x = y -> Reqb x y = true.
Proof. unfold Reqb; destruct (Req_dec_T x y); tauto. Qed.

Lemma Reqb_false (x y : R) : x <> y -> Reqb x y = false.
Proof. unfold Reqb; destruct (Req_dec_T x y); tauto. Qed.

Lemma Rltb_spec (x y : R) : Rltb x y = true <-> x < y.
Proof. unfold Rltb; destruct (Rlt_dec x y); split; intros; try tauto; discriminate. Qed.

Lemma Rleb_spec (x y : R) : Rleb x y = true <-> x <= y.
Proof. unfold Rleb; destruct (Rle_dec x y); split; intros; try tauto; discriminate. Qed.

Lemma Reqb_spec (x y : R) : Reqb x y = true <-> x = y.
Proof. unfold Reqb; destruct (Req_dec_T x y); split; intros; try tauto; discriminate. Qed.

(** Decides the comparisons of concrete reals that block a computation. *)
Ltac rdecide :=
  repeat match goal with
    | |- context [Rltb ?a ?b] =>
        first [ rewrite (Rltb_true a b) by lra | rewrite (Rltb_false a b) by lra ]
    | |- context [Rleb ?a ?b] =>
        first [ rewrite (Rleb_true a b) by lra | rewrite (Rleb_false a b) by lra ]
    | |- context [Reqb ?a ?b] =>
        first [ rewrite (Reqb_true a b) by lra | rewrite (Reqb_false a b) by lra ]
    end.

(** Closes an equation between concrete structures that differ only in the
    way their real entries are written. *)
Ltac req := repeat (f_equal; try lra).

Lemma clip_bounds (x lo hi : R) : lo <= hi -> lo <= clip x lo hi <= hi.
Proof.
  intros H. unfold clip, Rmin, Rmax.
  destruct (Rle_dec x lo); destruct (Rle_dec _ hi); lra.
Qed.

Lemma clip_id (x lo hi : R) : lo <= x <= hi -> clip x lo hi = x.
Proof.
  intros H. unfold clip, Rmin, Rmax.
  destruct (Rle_dec x lo); destruct (Rle_dec _ hi); lra.
Qed.

(* ================================================================== *)
(** * Queries before [fit] *)

(** C1 (counterexample): on an item-based model that was only constructed,
    [get_similar_items] answers with an ordinary empty list and raises
    nothing. *)
Lemma unfitted_item_similar_is_plain_empty_list :
  ItemBased.is_fitted (ItemBased.init 20 5) = false /\
  ItemBased.get_similar_items (ItemBased.init 20 5) 1 10 = Ok [].
Proof. split; reflexivity. Qed.

(** C1 (amended): on instances whose [is_fitted] flag is not set, the two
    content-based methods [get_similar_movies] and [recommend_for_user] raise
    [RuntimeError] (and leave the heap alone); every other query method
    returns its empty answer without raising: [None] from the four
    [predict_rating] methods, the empty list from [get_similar_items],
    [get_similar_users], the item-based, user-based and hybrid [recommend] and
    the hybrid [get_similar_movies]. *)
Theorem unfitted_answers :
  forall (cb : ContentBased.model) (ib : ItemBased.model)
         (ub : UserBased.model) (hy : Hybrid.model),
    ContentBased.is_fitted cb = false ->
    ItemBased.is_fitted ib = false ->
    UserBased.is_fitted ub = false ->
    Hybrid.is_fitted hy = false ->
    (forall m n ex, ContentBased.get_similar_movies cb m n ex = Raise RuntimeError) /\
    (forall fresh u rated n ex h,
        ContentBased.recommend_for_user cb fresh u rated n ex h
        = (Raise RuntimeError, h)) /\
    (forall u m rated, ContentBased.predict_rating cb u m rated = Ok None) /\
    (forall m n, ItemBased.get_similar_items ib m n = Ok []) /\
    (forall u m, ItemBased.predict_rating ib u m = Ok None) /\
    (forall u n ex, ItemBased.recommend ib u n ex = Ok []) /\
    (forall u n, UserBased.get_similar_users ub u n = Ok []) /\
    (forall u m, UserBased.predict_rating ub u m = Ok None) /\
    (forall u n ex, UserBased.recommend ub u n ex = Ok []) /\
    (forall m n, Hybrid.get_similar_movies hy m n = Ok []) /\
    (forall u m rated, Hybrid.predict_rating hy u m rated = Ok None) /\
    (forall fresh u n ex rated h,
        Hybrid.recommend hy fresh u n ex rated h = (Ok [], h)).
Proof.
  intros cb ib ub hy Hcb Hib Hub Hhy.
  repeat split; intros.
  - unfold ContentBased.get_similar_movies. now rewrite Hcb.
  - unfold ContentBased.recommend_for_user. now rewrite Hcb.
  - unfold ContentBased.predict_rating. now rewrite Hcb.
  - unfold ItemBased.get_similar_items. now rewrite Hib.
  - unfold ItemBased.predict_rating. now rewrite Hib.
  - unfold ItemBased.recommend. now rewrite Hib.
  - unfold UserBased.get_similar_users. now rewrite Hub.
  - unfold UserBased.predict_rating. now rewrite Hub.
  - unfold UserBased.recommend. now rewrite Hub.
  - unfold Hybrid.get_similar_movies. now rewrite Hhy.
  - unfold Hybrid.predict_rating. now rewrite Hhy.
  - unfold Hybrid.recommend. now rewrite Hhy.
Qed.

Lemma unfitted_answers_witness :
  ContentBased.get_similar_movies ContentBased.init 1 10 None = Raise RuntimeError /\
  ItemBased.recommend (ItemBased.init 20 5) 1 10 None = Ok [] /\
  UserBased.predict_rating (UserBased.init 20 3) 1 1 = Ok None /\
  Hybrid.recommend hybrid_unfitted (fun _ => Fin 0) 1 10 None None [] = (Ok [], []).
Proof.
  pose proof (unfitted_answers ContentBased.init (ItemBased.init 20 5)
                (UserBased.init 20 3) hybrid_unfitted
                eq_refl eq_refl eq_refl eq_refl) as H.
  repeat split; apply H.
Defined.

(* ================================================================== *)
(** * The [min_common] parameter of the user-based model *)

(** [min_common] is stored by [__init__] and copied by [fit], and no other
    line reads it.  Two user-based models that differ only in [min_common]
    and are fitted on the same frames hold the same similarity matrix and
    give the same [predict_rating], [recommend] and [get_similar_users]
    answers on every query. *)
Lemma min_common_is_never_read :
  forall (k mc1 mc2 : Z) (ratings : list rating_row)
         (movies : option (list movie_row)),
    UserBased.user_similarity (UserBased.fit (UserBased.init k mc1) ratings movies)
    = UserBased.user_similarity (UserBased.fit (UserBased.init k mc2) ratings movies) /\
    (forall u m,
        UserBased.predict_rating (UserBased.fit (UserBased.init k mc1) ratings movies) u m
        = UserBased.predict_rating (UserBased.fit (UserBased.init k mc2) ratings movies) u m) /\
    (forall u n ex,
        UserBased.recommend (UserBased.fit (UserBased.init k mc1) ratings movies) u n ex
        = UserBased.recommend (UserBased.fit (UserBased.init k mc2) ratings movies) u n ex) /\
    (forall u n,
        UserBased.get_similar_users (UserBased.fit (UserBased.init k mc1) ratings movies) u n
        = UserBased.get_similar_users (UserBased.fit (UserBased.init k mc2) ratings movies) u n).
Proof.
  intros k mc1 mc2 ratings movies. repeat split; intros; reflexivity.
Qed.

(* ================================================================== *)
(** * Sets, heaps, sorting and slices *)

Lemma mem_In (x : Z) (s : idset) : mem x s = true <-> In x s.
Proof.
  unfold mem. rewrite existsb_exists. split.
  - intros [y [Hy Heq]]. apply Z.eqb_eq in Heq. now subst.
  - intros H. exists x. split; [assumption | apply Z.eqb_refl].
Qed.

Lemma mem_false_In (x : Z) (s : idset) : mem x s = false <-> ~ In x s.
Proof.
  rewrite <- mem_In. destruct (mem x s); split; intros; congruence.
Qed.

Lemma set_add_In (s : idset) (y x : Z) : In x (set_add s y) <-> In x s \/ x = y.
Proof.
  unfold set_add. destruct (mem y s) eqn:E.
  - apply mem_In in E. split; [tauto | intros [H | ->]; assumption].
  - rewrite in_app_iff. simpl. intuition.
Qed.

Lemma set_union_In (xs : list Z) (s : idset) (x : Z) :
  In x (set_union s xs) <-> In x s \/ In x xs.
Proof.
  unfold set_union. revert s. induction xs as [| y xs IH]; intros s; simpl.
  - tauto.
  - rewrite IH, set_add_In. intuition.
Qed.

Lemma nth_set_nth_eq {A : Type} (l : list A) (i : nat) (x d : A) :
  (i < length l)%nat -> nth i (set_nth i x l) d = x.
Proof.
  revert i. induction l as [| a l IH]; intros [| i] H; simpl in *; try lia.
  - reflexivity.
  - apply IH. lia.
Qed.

Lemma nth_set_nth_neq {A : Type} (l : list A) (i j : nat) (x d : A) :
  i <> j -> nth j (set_nth i x l) d = nth j l d.
Proof.
  revert i j. induction l as [| a l IH]; intros [| i] [| j] H; simpl; try reflexivity.
  - congruence.
  - apply IH. congruence.
Qed.

Lemma length_set_nth {A : Type} (l : list A) (i : nat) (x : A) :
  length (set_nth i x l) = length l.
Proof.
  revert i. induction l as [| a l IH]; intros [| i]; simpl; try reflexivity.
  now rewrite IH.
Qed.

Lemma deref_nonempty_lt (h : heap) (r : ref) : deref h r <> [] -> (r < length h)%nat.
Proof.
  intros H. destruct (Nat.lt_ge_cases r (length h)) as [Hlt | Hge]; [assumption |].
  exfalso. apply H. unfold deref. now apply nth_overflow.
Qed.

Lemma deref_store_eq (h : heap) (r : ref) (s : idset) :
  (r < length h)%nat -> deref (store h r s) r = s.
Proof. intros H. unfold deref, store. now apply nth_set_nth_eq. Qed.

Lemma deref_store_neq (h : heap) (r r' : ref) (s : idset) :
  r <> r' -> deref (store h r s) r' = deref h r'.
Proof. intros H. unfold deref, store. now apply nth_set_nth_neq. Qed.

Lemma or_new_set_nonempty (h : heap) (r : ref) :
  deref h r <> [] -> or_new_set (Some r) h = (r, h).
Proof.
  intros H. unfold or_new_set. destruct (deref h r); [contradiction | reflexivity].
Qed.

Section SortDescFacts.
Context {A : Type}.
Variable key : A -> R.

Lemma insert_desc_perm (x : A) (l : list A) :
  Permutation (insert_desc key x l) (x :: l).
Proof.
  induction l as [| y l IH]; simpl.
  - apply Permutation_refl.
  - destruct (Rleb (key y) (key x)).
    + apply Permutation_refl.
    + eapply Permutation_trans; [apply perm_skip, IH | apply perm_swap].
Qed.

Lemma sort_desc_perm (l : list A) : Permutation (sort_desc key l) l.
Proof.
  induction l as [| x l IH]; simpl.
  - apply Permutation_refl.
  - eapply Permutation_trans; [apply insert_desc_perm | now apply perm_skip].
Qed.

Lemma insert_desc_sorted (x : A) (l : list A) :
  StronglySorted (desc key) l -> StronglySorted (desc key) (insert_desc key x l).
Proof.
  induction 1 as [| y l Hs IH Hall]; simpl.
  - constructor; constructor.
  - destruct (Rleb (key y) (key x)) eqn:E.
    + apply Rleb_spec in E. constructor.
      * now constructor.
      * constructor; [exact E |].
        eapply Forall_impl; [| exact Hall]. unfold desc. intros; lra.
    + constructor; [exact IH |].
      assert (Hyx : key x <= key y).
      { unfold Rleb in E. destruct (Rle_dec (key y) (key x)); [discriminate | lra]. }
      eapply Permutation_Forall; [apply Permutation_sym, insert_desc_perm |].
      constructor; assumption.
Qed.

Lemma sort_desc_sorted (l : list A) : StronglySorted (desc key) (sort_desc key l).
Proof.
  induction l as [| x l IH]; simpl.
  - constructor.
  - now apply insert_desc_sorted.
Qed.
End SortDescFacts.

Lemma py_take_NoDup {A : Type} (n : Z) (l : list A) : NoDup l -> NoDup (py_take n l).
Proof.
  intros H. unfold py_take.
  assert (Hf : forall k, NoDup (firstn k l)).
  { intros k. rewrite <- (firstn_skipn k l) in H. now apply NoDup_app_remove_r in H. }
  destruct (0 <=? n)%Z; apply Hf.
Qed.

Lemma py_take_incl {A : Type} (n : Z) (l : list A) (x : A) :
  In x (py_take n l) -> In x l.
Proof.
  assert (Hf : forall k, In x (firstn k l) -> In x l).
  { intros k H. rewrite <- (firstn_skipn k l). apply in_or_app. now left. }
  unfold py_take. destruct (0 <=? n)%Z; apply Hf.
Qed.

Lemma py_take_length {A : Type} (n : Z) (l : list A) :
  (0 <= n)%Z -> (Z.of_nat (length (py_take n l)) <= n)%Z.
Proof.
  intros H. unfold py_take. apply Z.leb_le in H as H'. rewrite H'.
  rewrite length_firstn. lia.
Qed.

(* ================================================================== *)
(** * The shared [exclude] set *)

Lemma final_loop_not_excluded (self : Hybrid.model) (exclude : idset)
    (items : dict Z Hybrid.candidate) (row : Hybrid.hybrid_rec) :
  In row (Hybrid.final_loop self exclude items) ->
  ~ In (Hybrid.h_movieId row) exclude.
Proof.
  induction items as [| [movie_id data] items IH]; simpl; [tauto |].
  destruct (mem movie_id exclude) eqn:E; [exact IH |].
  intros [<- | H]; [| now apply IH].
  simpl. now apply mem_false_In.
Qed.

Lemma recommend_for_user_heap (cm : ContentBased.model) (fresh : nat -> cell)
    (u : Z) (history : list rated) (n : Z) (r : ref) (h : heap) :
  ContentBased.is_fitted cm = true ->
  history <> [] ->
  deref h r <> [] ->
  snd (ContentBased.recommend_for_user cm fresh u history n (Some r) h)
  = store h r (set_union (deref h r) (map rated_movieId history)).
Proof.
  intros Hfit Hhist Hne. unfold ContentBased.recommend_for_user.
  rewrite Hfit. simpl negb. cbv iota.
  destruct history as [| x xs]; [contradiction |].
  rewrite (or_new_set_nonempty h r Hne). reflexivity.
Qed.

(** C10: on a fitted content model, a user with rating history and a
    non-empty [exclude] set [r], [recommend_for_user] stores the union of the
    set and the rated movie ids back into the caller's object.  The hybrid
    [recommend] hands its own [exclude] object to that call, so when the
    caller passes a non-empty set: after [recommend] returns, the caller's set
    holds exactly its former members and the rated ids; no returned row is a
    rated id (the final filter reads the updated set); and no other set
    object is touched. *)
Theorem exclude_set_is_updated_in_place :
  forall (hy : Hybrid.model) (cm : ContentBased.model) (fresh : nat -> cell)
         (u n : Z) (r : ref) (rated_arg : option (list rated)) (h : heap),
    Hybrid.is_fitted hy = true ->
    Hybrid.content_model hy = Some cm ->
    ContentBased.is_fitted cm = true ->
    Hybrid.user_history hy u rated_arg <> [] ->
    deref h r <> [] ->
    let ids := map rated_movieId (Hybrid.user_history hy u rated_arg) in
    let out := Hybrid.recommend hy fresh u n (Some r) rated_arg h in
    snd (ContentBased.recommend_for_user cm fresh u
           (Hybrid.user_history hy u rated_arg) (n * 2) (Some r) h)
    = store h r (set_union (deref h r) ids) /\
    snd out = store h r (set_union (deref h r) ids) /\
    (forall x, In x (deref (snd out) r) <-> In x (deref h r) \/ In x ids) /\
    (forall r', r' <> r -> deref (snd out) r' = deref h r') /\
    (forall rows row,
        fst out = Ok rows -> In row rows ->
        ~ In (Hybrid.h_movieId row) ids /\ ~ In (Hybrid.h_movieId row) (deref h r)).
Proof.
  intros hy cm fresh u n r rated_arg h Hfit Hcm Hcfit Hhist Hne ids out.
  pose proof (recommend_for_user_heap cm fresh u _ (n * 2) r h Hcfit Hhist Hne)
    as Hheap.
  pose proof (deref_nonempty_lt h r Hne) as Hlt.
  assert (Hout : snd out = store h r (set_union (deref h r) ids)).
  { subst out. unfold Hybrid.recommend. rewrite Hfit. simpl negb. cbv iota.
    rewrite (or_new_set_nonempty h r Hne).
    unfold Hybrid.content_candidates. rewrite Hcm.
    destruct (ContentBased.recommend_for_user cm fresh u
                (Hybrid.user_history hy u rated_arg) (n * 2) (Some r) h)
      as [cb h2] eqn:E.
    simpl in Hheap. simpl. exact Hheap. }
  split; [exact Hheap |]. split; [exact Hout |]. split; [| split].
  - intros x. rewrite Hout, deref_store_eq by exact Hlt. apply set_union_In.
  - intros r' Hr'. rewrite Hout. apply deref_store_neq. congruence.
  - intros rows row Hrows Hin.
    assert (Hex : ~ In (Hybrid.h_movieId row) (set_union (deref h r) ids)).
    { subst out. unfold Hybrid.recommend in Hrows.
      rewrite Hfit in Hrows. simpl negb in Hrows. cbv iota in Hrows.
      rewrite (or_new_set_nonempty h r Hne) in Hrows.
      unfold Hybrid.content_candidates in Hrows. rewrite Hcm in Hrows.
      destruct (ContentBased.recommend_for_user cm fresh u
                  (Hybrid.user_history hy u rated_arg) (n * 2) (Some r) h)
        as [cb h2] eqn:E.
      simpl in Hheap. subst h2. simpl in Hrows.
      destruct cb as [cb_recs | e]; simpl in Hrows; [| discriminate].
      destruct (Hybrid.item_candidates hy u n _) as [ib_recs | e];
        simpl in Hrows; [| discriminate].
      destruct (Hybrid.user_candidates hy u n _) as [ub_recs | e];
        simpl in Hrows; [| discriminate].
      injection Hrows as <-.
      apply py_take_incl in Hin.
      eapply Permutation_in in Hin; [| apply sort_desc_perm].
      apply final_loop_not_excluded in Hin.
      rewrite deref_store_eq in Hin by exact Hlt. exact Hin. }
    rewrite set_union_In in Hex. tauto.
Qed.

(* ================================================================== *)
(** * Dot products and cosine similarity *)

Lemma dot_cons (a b : R) (u v : vec) : dot (a :: u) (b :: v) = a * b + dot u v.
Proof. reflexivity. Qed.

Lemma dot_nil_l (v : vec) : dot [] v = 0.
Proof. reflexivity. Qed.

Lemma dot_nil_r (u : vec) : dot u [] = 0.
Proof. destruct u; reflexivity. Qed.

Lemma dot_comm (u v : vec) : dot u v = dot v u.
Proof.
  revert v. induction u as [| a u IH]; intros [| b v];
    try reflexivity.
  rewrite !dot_cons, IH. lra.
Qed.

Lemma dot_self_nonneg (u : vec) : 0 <= dot u u.
Proof.
  induction u as [| a u IH]; [unfold dot; simpl; lra |].
  rewrite dot_cons. pose proof (Rle_0_sqr a) as H. unfold Rsqr in H. lra.
Qed.

Lemma dot_scale (c d : R) (u v : vec) :
  dot (map (fun x => x / c) u) (map (fun x => x / d) v) = dot u v / c / d.
Proof.
  revert v. induction u as [| a u IH]; intros [| b v]; simpl;
    try (unfold dot; simpl; unfold Rdiv; lra).
  rewrite !dot_cons, IH. unfold Rdiv. lra.
Qed.

Lemma safe_norm_pos (u : vec) : 0 < safe_norm u.
Proof.
  unfold safe_norm. destruct (Rltb 0 (norm u)) eqn:E.
  - now apply Rltb_spec.
  - lra.
Qed.

Lemma norm_sqr (u : vec) : norm u * norm u = dot u u.
Proof. unfold norm. apply sqrt_sqrt, dot_self_nonneg. Qed.

Lemma norm_not_pos (u : vec) : ~ 0 < norm u -> dot u u = 0.
Proof.
  intros H. pose proof (dot_self_nonneg u) as Hn.
  destruct (Rle_lt_or_eq_dec _ _ Hn) as [Hlt | Heq]; [| now symmetry].
  exfalso. apply H. unfold norm. now apply sqrt_lt_R0.
Qed.

(** The product of a scaled row with itself is positive, and 0 when it is
    a row of zeros. *)
Lemma normalized_self (u : vec) :
  let u' := map (fun x => x / safe_norm u) u in
  (0 < norm u -> 0 < dot u' u') /\ (~ 0 < norm u -> dot u' u' = 0).
Proof.
  simpl. rewrite dot_scale. split; intros H.
  - unfold safe_norm. rewrite (Rltb_true _ _ H).
    rewrite <- norm_sqr. unfold Rdiv.
    assert (Hi : 0 < / norm u) by now apply Rinv_0_lt_compat.
    repeat apply Rmult_lt_0_compat; assumption.
  - rewrite (norm_not_pos u H). unfold Rdiv. lra.
Qed.

Lemma nth_normalize_rows (X : matrix) (i : nat) :
  nth i (normalize_rows X) [] =
  map (fun x => x / safe_norm (nth i X [])) (nth i X []).
Proof.
  unfold normalize_rows.
  change (@nil R)
    with ((fun r : vec => map (fun x => x / safe_norm r) r) []) at 1.
  now rewrite map_nth.
Qed.

Lemma nth_map_in {A B : Type} (f : A -> B) (l : list A) (i : nat) (d : A) (d' : B) :
  (i < length l)%nat -> nth i (map f l) d' = f (nth i l d).
Proof.
  revert i. induction l as [| a l IH]; intros [| i] H; simpl in *; try lia.
  - reflexivity.
  - apply IH. lia.
Qed.

Lemma entry_gram (A : matrix) (i j : nat) :
  entry (gram A) i j = dot (nth i A []) (nth j A []).
Proof.
  unfold entry, gram.
  destruct (Nat.lt_ge_cases i (length A)) as [Hi | Hi].
  - rewrite (nth_map_in _ A i [] []) by exact Hi.
    destruct (Nat.lt_ge_cases j (length A)) as [Hj | Hj].
    + now rewrite (nth_map_in _ A j [] 0) by exact Hj.
    + rewrite (nth_overflow (map _ A)) by (rewrite length_map; exact Hj).
      rewrite (nth_overflow A [] Hj). now rewrite dot_nil_r.
  - rewrite (nth_overflow (map _ A)) by (rewrite length_map; exact Hi).
    rewrite (nth_overflow A [] Hi). destruct j; reflexivity.
Qed.

Lemma gram_square (A : matrix) : is_square (gram A).
Proof.
  unfold is_square, gram. rewrite length_map.
  apply Forall_forall. intros row Hin.
  apply in_map_iff in Hin as [r [<- _]]. now rewrite length_map.
Qed.

Lemma cosine_similarity_symmetric (X : matrix) : is_symmetric (cosine_similarity X).
Proof.
  intros i j. unfold cosine_similarity. rewrite !entry_gram. apply dot_comm.
Qed.

Lemma cosine_similarity_diagonal (X : matrix) :
  keeps_cosine_diagonal X (cosine_similarity X).
Proof.
  intros i Hi. unfold cosine_similarity. rewrite entry_gram, !nth_normalize_rows.
  apply normalized_self.
Qed.

Lemma cosine_similarity_square (X : matrix) : is_square (cosine_similarity X).
Proof. apply gram_square. Qed.

Lemma nth_fill_diagonal_from (M : matrix) (c : R) (s i : nat) :
  (i < length M)%nat ->
  nth i (fill_diagonal_from s M c) [] = set_nth (s + i) c (nth i M []).
Proof.
  revert s i. induction M as [| row M IH]; intros s [| i] H; simpl in *; try lia.
  - now rewrite Nat.add_0_r.
  - rewrite IH by lia. f_equal. lia.
Qed.

Lemma length_fill_diagonal_from (M : matrix) (c : R) (s : nat) :
  length (fill_diagonal_from s M c) = length M.
Proof.
  revert s. induction M as [| row M IH]; intros s; simpl; [reflexivity |].
  now rewrite IH.
Qed.

Lemma entry_fill_diagonal_eq (M : matrix) (i : nat) :
  entry (fill_diagonal M 0) i i = 0.
Proof.
  unfold entry, fill_diagonal.
  destruct (Nat.lt_ge_cases i (length M)) as [Hi | Hi].
  - rewrite nth_fill_diagonal_from by exact Hi. simpl.
    destruct (Nat.lt_ge_cases i (length (nth i M []))) as [Hr | Hr].
    + now apply nth_set_nth_eq.
    + apply nth_overflow. now rewrite length_set_nth.
  - rewrite (nth_overflow (fill_diagonal_from 0 M 0))
      by (rewrite length_fill_diagonal_from; exact Hi).
    destruct i; reflexivity.
Qed.

Lemma entry_fill_diagonal_neq (M : matrix) (c : R) (i j : nat) :
  i <> j -> entry (fill_diagonal M c) i j = entry M i j.
Proof.
  intros Hij. unfold entry, fill_diagonal.
  destruct (Nat.lt_ge_cases i (length M)) as [Hi | Hi].
  - rewrite nth_fill_diagonal_from by exact Hi. simpl.
    now apply nth_set_nth_neq.
  - rewrite (nth_overflow (fill_diagonal_from 0 M c))
      by (rewrite length_fill_diagonal_from; exact Hi).
    now rewrite (nth_overflow M [] Hi).
Qed.

Lemma fill_diagonal_square (M : matrix) (c : R) :
  is_square M -> is_square (fill_diagonal M c).
Proof.
  unfold is_square, fill_diagonal. rewrite length_fill_diagonal_from.
  generalize (length M) as n. generalize 0%nat as s.
  induction M as [| row M IH]; intros s n H; simpl; constructor.
  - rewrite length_set_nth. now inversion H.
  - apply IH. now inversion H.
Qed.

(** What [fill_diagonal (cosine_similarity X) 0] is, whatever [X]. *)
Lemma zeroed_cosine_similarity (X : matrix) :
  let S := fill_diagonal (cosine_similarity X) 0 in
  is_square S /\ is_symmetric S /\ has_zero_diagonal S.
Proof.
  simpl. split; [| split].
  - apply fill_diagonal_square, cosine_similarity_square.
  - intros i j. destruct (Nat.eq_dec i j) as [-> | Hij]; [reflexivity |].
    rewrite !entry_fill_diagonal_neq by congruence.
    apply cosine_similarity_symmetric.
  - intros i. apply entry_fill_diagonal_eq.
Qed.

Lemma length_map2 {A B C : Type} (f : A -> B -> C) (u : list A) (v : list B) :
  length (map2 f u v) = Nat.min (length u) (length v).
Proof.
  revert v. induction u as [| a u IH]; intros [| b v]; simpl; try reflexivity.
  now rewrite IH.
Qed.

Lemma norm_of_square (v : vec) (c : R) : 0 <= c -> dot v v = c * c -> norm v = c.
Proof. intros Hc H. unfold norm. rewrite H. now apply sqrt_square. Qed.

Lemma safe_norm_of_square (v : vec) (c : R) :
  0 < c -> dot v v = c * c -> safe_norm v = c.
Proof.
  intros Hc H. unfold safe_norm.
  rewrite (norm_of_square v c) by (lra || exact H).
  now rewrite (Rltb_true 0 c Hc).
Qed.

Lemma safe_norm_of_zero (v : vec) : dot v v = 0 -> safe_norm v = 1.
Proof.
  intros H. unfold safe_norm.
  rewrite (norm_of_square v 0) by (lra || (rewrite H; lra)).
  now rewrite Rltb_false by lra.
Qed.

Lemma cosine_similarity_tfidf2 : cosine_similarity tfidf2 = [[1; 0]; [0; 1]].
Proof.
  unfold cosine_similarity, normalize_rows, tfidf2. cbn [map].
  rewrite (safe_norm_of_square [1; 0] 1) by (unfold dot; simpl; lra).
  rewrite (safe_norm_of_square [0; 1] 1) by (unfold dot; simpl; lra).
  unfold gram, dot. simpl. req.
Qed.

Lemma fit_cb_two :
  ContentBased.fit no_vectorizer ContentBased.init movies2 (Some tfidf2) None false
  = Ok cb_two.
Proof.
  unfold ContentBased.fit. cbn -[cosine_similarity tfidf2].
  now rewrite cosine_similarity_tfidf2.
Qed.

(* ================================================================== *)
(** * The similarity matrices [fit] stores *)

(** C2 (counterexample): the content model fitted on two movies with one-hot
    feature rows stores the identity matrix: its diagonal is 1, not 0. *)
Lemma content_similarity_diagonal_is_not_zero :
  ContentBased.fit no_vectorizer ContentBased.init movies2 (Some tfidf2) None false
  = Ok cb_two /\
  ContentBased.similarity_matrix cb_two = Some [[1; 0]; [0; 1]] /\
  entry [[1; 0]; [0; 1]] 0 0 = 1 /\
  ~ has_zero_diagonal [[1; 0]; [0; 1]].
Proof.
  split; [exact fit_cb_two |]. split; [reflexivity |]. split; [reflexivity |].
  intros H. specialize (H 0%nat). unfold entry in H. simpl in H. lra.
Qed.

(** C2 (amended): whenever [fit] returns, the item-item and the user-user
    matrix it stores are square (one row and one column per fitted movie,
    resp. user), symmetric and zero on the diagonal.  The content-based
    matrix is the plain cosine similarity of the feature matrix: square and
    symmetric, but its diagonal is not zeroed: the entry of a movie is
    positive when its feature row has positive norm, and 0 only at a row of
    zeros.  [fit] returns when scikit-learn accepts the matrix it is handed:
    in the item-based model when the [min_ratings] filter keeps a movie, in
    the content-based model when the feature matrix has a row and a column;
    the user-based model multiplies the rows itself and always returns. *)
Theorem fitted_similarity_matrices :
  (forall self ratings movies,
      ItemBased.movie_ids (ItemBased.fit self ratings movies) <> [] ->
      exists S,
        ItemBased.item_similarity (ItemBased.fit self ratings movies) = Some S /\
        length S = length (ItemBased.movie_ids (ItemBased.fit self ratings movies)) /\
        is_square S /\ is_symmetric S /\ has_zero_diagonal S) /\
  (forall self ratings movies,
      exists S,
        UserBased.user_similarity (UserBased.fit self ratings movies) = Some S /\
        length S = length (UserBased.user_ids (UserBased.fit self ratings movies)) /\
        is_square S /\ is_symmetric S /\ has_zero_diagonal S) /\
  (forall vectorize self df tfidf emb use_embeddings X st,
      content_features vectorize self df tfidf emb use_embeddings = Ok X ->
      has_rows_and_columns X = true ->
      ContentBased.fit vectorize self df tfidf emb use_embeddings = Ok st ->
      exists S,
        ContentBased.similarity_matrix st = Some S /\
        length S = length X /\
        is_square S /\ is_symmetric S /\ keeps_cosine_diagonal X S).
Proof.
  split; [| split].
  - intros self ratings movies _. eexists. split; [reflexivity |].
    split.
    + unfold ItemBased.compute_item_similarity, fill_diagonal, cosine_similarity,
        gram, normalize_rows, transpose.
      rewrite length_fill_diagonal_from, !length_map, length_seq. reflexivity.
    + apply (zeroed_cosine_similarity _).
  - intros self ratings movies. eexists. split; [reflexivity |].
    split.
    + unfold UserBased.compute_user_similarity, fill_diagonal, gram, normalize_rows,
        UserBased.compute_user_means, rating_matrix, toarray.
      rewrite length_fill_diagonal_from, !length_map, length_map2, !length_map,
        length_seq.
      simpl. apply Nat.min_id.
    + apply (zeroed_cosine_similarity _).
  - intros vectorize self df tfidf emb use_embeddings X st HX _ Hfit.
    assert (HS : ContentBased.similarity_matrix st = Some (cosine_similarity X)).
    { unfold ContentBased.fit in Hfit. unfold content_features in HX.
      destruct use_embeddings;
        [destruct (match emb with Some e => Some e | None => ContentBased.embeddings self end)
           as [e |] eqn:Eemb |].
      - rewrite HX in Hfit. cbn [bind] in Hfit. now injection Hfit as <-.
      - injection HX as <-. cbn [bind] in Hfit. now injection Hfit as <-.
      - injection HX as <-. cbn [bind] in Hfit. now injection Hfit as <-. }
    exists (cosine_similarity X). split; [exact HS |].
    split; [unfold cosine_similarity, gram, normalize_rows; now rewrite !length_map |].
    split; [apply cosine_similarity_square |].
    split; [apply cosine_similarity_symmetric | apply cosine_similarity_diagonal].
Qed.

Lemma fitted_similarity_matrices_witness :
  (exists S,
     ItemBased.item_similarity
       (ItemBased.fit (ItemBased.init 20 1) ratings_two (Some movies2)) = Some S /\
     length S
     = length (ItemBased.movie_ids
                 (ItemBased.fit (ItemBased.init 20 1) ratings_two (Some movies2))) /\
     is_square S /\ is_symmetric S /\ has_zero_diagonal S) /\
  (exists S,
     ContentBased.similarity_matrix cb_two = Some S /\
     length S = length tfidf2 /\
     is_square S /\ is_symmetric S /\ keeps_cosine_diagonal tfidf2 S).
Proof.
  split.
  - apply (proj1 fitted_similarity_matrices). cbn. discriminate.
  - apply (proj2 (proj2 fitted_similarity_matrices)
             no_vectorizer ContentBased.init movies2 (Some tfidf2) None false
             tfidf2 cb_two).
    + reflexivity.
    + reflexivity.
    + exact fit_cb_two.
Defined.

Lemma exclude_set_is_updated_in_place_witness :
  deref [[7%Z]] 0%nat <> [] /\
  snd (Hybrid.recommend hy_two (fun _ => Fin 0) 1 10 (Some 0%nat) None [[7%Z]])
  = [[7; 1; 2]%Z].
Proof.
  assert (Hne : deref [[7%Z]] 0%nat <> []) by (simpl; discriminate).
  split; [exact Hne |].
  destruct (exclude_set_is_updated_in_place hy_two cb_two (fun _ => Fin 0) 1 10
              0%nat None [[7%Z]] eq_refl eq_refl eq_refl)
    as (_ & H & _).
  - simpl. discriminate.
  - exact Hne.
  - refine (eq_trans H _). reflexivity.
Defined.

(* ================================================================== *)
(** * Zero accumulated weight in [recommend_for_user] *)

(** C8: the user rated movie 1 of [movies2] only; movie 2 has similarity 0 to
    it, so its accumulated weight is 0.  [np.divide(.., where=weights > 0)]
    leaves that position of its fresh result buffer unwritten, and
    [np.nan_to_num] only replaces [NaN] and the infinities: the score of
    movie 2 is whatever finite value the buffer held, not 0. *)
Theorem zero_weight_score_is_the_buffer_content :
  (forall fresh : nat -> cell,
      ContentBased.normalized_scores cb_two fresh [Rated 1 (Some 5)]
      = Ok [1; nan_to_num (fresh 1%nat)]) /\
  ContentBased.normalized_scores cb_two (fun _ => Fin 7) [Rated 1 (Some 5)]
  = Ok [1; 7] /\
  fst (ContentBased.recommend_for_user cb_two (fun _ => Fin 7) 1
         [Rated 1 (Some 5)] 10 None [])
  = Ok [ {| rec_movieId := 2; rec_title := "Emma";
            rec_genres := ["Romance"%string]; rec_avgRating := 3;
            rec_score := 7; rec_method := "content_based" |} ].
Proof.
  assert (H : forall fresh : nat -> cell,
             ContentBased.normalized_scores cb_two fresh [Rated 1 (Some 5)]
             = Ok [1; nan_to_num (fresh 1%nat)]).
  { intros fresh. unfold ContentBased.normalized_scores. cbn.
    unfold divide_where. cbn. rewrite Rabs_R0, Rabs_R1. rdecide. cbn.
    req. }
  split; [exact H |]. split; [apply H |].
  unfold ContentBased.recommend_for_user. cbn -[ContentBased.normalized_scores].
  rewrite H. cbn. rdecide. cbn. reflexivity.
Qed.

(* ================================================================== *)
(** * Calling [fit] a second time *)

Lemma dict_get_set_other {V : Type} (d : dict Z V) (k k' : Z) (v : V) :
  k <> k' -> dict_get Z.eqb (dict_set Z.eqb d k' v) k = dict_get Z.eqb d k.
Proof.
  intros Hk. induction d as [| [k0 v0] d IH]; simpl.
  - destruct (Z.eqb_spec k k'); [contradiction | reflexivity].
  - destruct (Z.eqb_spec k' k0) as [-> | Hk0]; simpl.
    + destruct (Z.eqb_spec k k0); [contradiction | reflexivity].
    + destruct (Z.eqb_spec k k0); [reflexivity | exact IH].
Qed.

Lemma dict_get_set_same {V : Type} (d : dict Z V) (k : Z) (v : V) :
  dict_get Z.eqb (dict_set Z.eqb d k v) k = Some v.
Proof.
  induction d as [| [k0 v0] d IH]; simpl.
  - now rewrite Z.eqb_refl.
  - destruct (Z.eqb_spec k k0) as [-> | Hk0]; simpl.
    + now rewrite Z.eqb_refl.
    + destruct (Z.eqb_spec k k0); [contradiction | exact IH].
Qed.

(** The [enumerate] loop only writes the keys it is given: any other entry
    of the dictionary it starts from is still there afterwards. *)
Lemma enumerate_into_keeps (keys : list Z) (idx : nat)
    (fwd : dict Z nat) (bwd : dict nat Z) (k : Z) :
  ~ In k keys ->
  dict_get Z.eqb (fst (enumerate_into keys idx fwd bwd)) k = dict_get Z.eqb fwd k.
Proof.
  revert idx fwd bwd. induction keys as [| key keys IH]; intros idx fwd bwd Hk;
    simpl; [reflexivity |].
  rewrite IH by (intros H; apply Hk; now right).
  apply dict_get_set_other. intros ->. apply Hk. now left.
Qed.

Lemma fit_cb_refit :
  ContentBased.fit no_vectorizer cb_two movies34 (Some tfidf2) None false = Ok cb_refit.
Proof.
  unfold ContentBased.fit. cbn -[cosine_similarity tfidf2].
  now rewrite cosine_similarity_tfidf2.
Qed.

Lemma fit_cb_fresh :
  ContentBased.fit no_vectorizer ContentBased.init movies34 (Some tfidf2) None false
  = Ok cb_fresh.
Proof.
  unfold ContentBased.fit. cbn -[cosine_similarity tfidf2].
  now rewrite cosine_similarity_tfidf2.
Qed.

(** C9: [fit] writes the new ids into the index dictionaries [__init__]
    created and never empties them.  In all three models an id the earlier
    fit indexed and the new data does not hold is still indexed after the
    second [fit].  On the content model fitted on [movies2] and then on
    [movies34], movie 1 is still mapped to row 0, and [get_similar_movies 1]
    answers with movies 3 and 4, where a newly constructed model fitted on
    [movies34] answers with the empty list. *)
Theorem refit_keeps_stale_index_entries :
  (forall vectorize self df tfidf emb use_embeddings st m idx,
      ContentBased.fit vectorize self df tfidf emb use_embeddings = Ok st ->
      dict_get Z.eqb (ContentBased.movie_id_to_idx self) m = Some idx ->
      ~ In m (map movieId df) ->
      dict_get Z.eqb (ContentBased.movie_id_to_idx st) m = Some idx) /\
  (forall self ratings movies m idx,
      dict_get Z.eqb (ItemBased.movie_to_idx self) m = Some idx ->
      ~ In m (ItemBased.movie_ids (ItemBased.fit self ratings movies)) ->
      dict_get Z.eqb (ItemBased.movie_to_idx (ItemBased.fit self ratings movies)) m
      = Some idx) /\
  (forall self ratings movies m idx,
      dict_get Z.eqb (UserBased.movie_to_idx self) m = Some idx ->
      ~ In m (UserBased.movie_ids (UserBased.fit self ratings movies)) ->
      dict_get Z.eqb (UserBased.movie_to_idx (UserBased.fit self ratings movies)) m
      = Some idx) /\
  ContentBased.fit no_vectorizer ContentBased.init movies2 (Some tfidf2) None false
  = Ok cb_two /\
  ContentBased.fit no_vectorizer cb_two movies34 (Some tfidf2) None false
  = Ok cb_refit /\
  ContentBased.fit no_vectorizer ContentBased.init movies34 (Some tfidf2) None false
  = Ok cb_fresh /\
  dict_get Z.eqb (ContentBased.movie_id_to_idx cb_refit) 1%Z = Some 0%nat /\
  dict_get Z.eqb (ContentBased.movie_id_to_idx cb_fresh) 1%Z = None /\
  ContentBased.get_similar_movies cb_fresh 1 10 None = Ok [] /\
  ContentBased.get_similar_movies cb_refit 1 10 None
  = Ok [ {| sim_movieId := 3; sim_title := "Alien";
            sim_genres := ["Horror"%string]; sim_avgRating := 4;
            similarity := 1 |};
         {| sim_movieId := 4; sim_title := "Big";
            sim_genres := ["Comedy"%string]; sim_avgRating := 3;
            similarity := 0 |} ].
Proof.
  split; [| split; [| split]].
  - intros vectorize self df tfidf emb use_embeddings st m idx Hfit Hget Hnew.
    unfold ContentBased.fit in Hfit.
    destruct (match use_embeddings with true => _ | false => _ end) as [sim | e];
      simpl in Hfit; [| discriminate].
    injection Hfit as <-. simpl. now rewrite enumerate_into_keeps.
  - intros self ratings movies m idx Hget Hnew. simpl in *.
    now rewrite enumerate_into_keeps.
  - intros self ratings movies m idx Hget Hnew. simpl in *.
    now rewrite enumerate_into_keeps.
  - split; [exact fit_cb_two |]. split; [exact fit_cb_refit |].
    split; [exact fit_cb_fresh |].
    split; [reflexivity |]. split; [reflexivity |]. split; [reflexivity |].
    unfold ContentBased.get_similar_movies. cbn. unfold argsort. cbn.
    rdecide. cbn. reflexivity.
Qed.

(* ================================================================== *)
(** * [get_similar] and the query movie *)

Lemma rating_matrix_two :
  rating_matrix [(1%Z, 0%nat); (2%Z, 1%nat)] [(1%Z, 0%nat); (2%Z, 1%nat)] 2 2
    ratings_two
  = [[5; 5]; [5; 1]].
Proof. unfold rating_matrix, toarray, sum. cbn. req. Qed.

Lemma center_row_55 : ItemBased.center_row [5; 5] = [0; 0].
Proof.
  unfold ItemBased.center_row, ItemBased.nanmean, sum. cbn. rdecide. cbn. req.
Qed.

Lemma center_row_51 : ItemBased.center_row [5; 1] = [2; -2].
Proof.
  unfold ItemBased.center_row, ItemBased.nanmean, sum. cbn. rdecide. cbn. req.
Qed.

(** The cosine similarity of a zero row and any other row: all entries
    outside the diagonal are 0. *)
Lemma zeroed_cosine_of_zero_row (a b : R) :
  fill_diagonal (cosine_similarity [[0; 0]; [a; b]]) 0 = [[0; 0]; [0; 0]].
Proof.
  unfold cosine_similarity, normalize_rows. cbn [map].
  rewrite (safe_norm_of_zero [0; 0]) by (unfold dot; simpl; lra).
  generalize (safe_norm [a; b]). intros n.
  unfold gram, dot, sum, fill_diagonal. cbn.
  repeat f_equal; unfold Rdiv; ring.
Qed.

Lemma compute_item_similarity_two :
  ItemBased.compute_item_similarity 2 [[5; 5]; [5; 1]] = [[0; 0]; [0; 0]].
Proof.
  unfold ItemBased.compute_item_similarity, transpose. cbn [map seq nth].
  rewrite center_row_55, center_row_51. apply zeroed_cosine_of_zero_row.
Qed.

Lemma fit_ib_two :
  ItemBased.fit (ItemBased.init 20 1) ratings_two (Some movies2) = ib_two.
Proof.
  unfold ItemBased.fit.
  cbn -[rating_matrix ItemBased.compute_item_similarity ratings_two movies2].
  cbn -[rating_matrix ItemBased.compute_item_similarity movies2].
  change [RatingRow 1 1 5; RatingRow 2 1 5; RatingRow 1 2 5; RatingRow 2 2 1]
    with ratings_two.
  rewrite rating_matrix_two, compute_item_similarity_two. reflexivity.
Qed.

(** C3: on the item model fitted on [ratings_two], every similarity is 0, so
    the query movie's own zeroed diagonal entry is as good as any other:
    [get_similar_items 1] with the default [n = 10] returns movie 2 and then
    movie 1 itself.  The method has no test for the query movie. *)
Theorem item_get_similar_returns_the_query_movie :
  ItemBased.fit (ItemBased.init 20 1) ratings_two (Some movies2) = ib_two /\
  ItemBased.get_similar_items ib_two 1 10
  = Ok [ {| sim_movieId := 2; sim_title := "Emma";
            sim_genres := ["Romance"%string]; sim_avgRating := 3;
            similarity := 0 |};
         {| sim_movieId := 1; sim_title := "Heat";
            sim_genres := ["Action"%string]; sim_avgRating := 4;
            similarity := 0 |} ] /\
  (exists l, ItemBased.get_similar_items ib_two 1 10 = Ok l /\
             In 1%Z (map sim_movieId l)).
Proof.
  assert (H : ItemBased.get_similar_items ib_two 1 10
              = Ok [ {| sim_movieId := 2; sim_title := "Emma";
                        sim_genres := ["Romance"%string]; sim_avgRating := 3;
                        similarity := 0 |};
                     {| sim_movieId := 1; sim_title := "Heat";
                        sim_genres := ["Action"%string]; sim_avgRating := 4;
                        similarity := 0 |} ]).
  { unfold ItemBased.get_similar_items. cbn. unfold argsort. cbn.
    rdecide. cbn. reflexivity. }
  split; [exact fit_ib_two |]. split; [exact H |].
  eexists. split; [exact H |]. simpl. tauto.
Qed.

Lemma content_similar_loop_spec (self : ContentBased.model)
    (similarities : vec) (movie_id n : Z) (exclude : idset) :
  (0 <= n)%Z ->
  forall (indices : list nat) (results out : list similar),
    ContentBased.similar_loop self similarities movie_id n exclude indices results
    = Ok out ->
    (Z.of_nat (length results) <= n)%Z ->
    (forall s, In s results ->
               sim_movieId s <> movie_id /\ ~ In (sim_movieId s) exclude) ->
    (Z.of_nat (length out) <= n)%Z /\
    (forall s, In s out ->
               sim_movieId s <> movie_id /\ ~ In (sim_movieId s) exclude).
Proof.
  intros Hn. induction indices as [| sim_idx rest IH]; intros results out Hrun Hlen Hres.
  - simpl in Hrun. injection Hrun as <-. split; assumption.
  - simpl in Hrun.
    destruct (Z.of_nat (length results) >=? n)%Z eqn:Efull.
    + injection Hrun as <-. split; assumption.
    + destruct (dict_item Nat.eqb (ContentBased.idx_to_movie_id self) sim_idx)
        as [sim_movie_id | e]; simpl in Hrun; [| discriminate].
      destruct ((sim_movie_id =? movie_id)%Z || mem sim_movie_id exclude) eqn:Eskip.
      * eapply IH; eassumption.
      * destruct (the (ContentBased.movies_df self)) as [df | e]; simpl in Hrun;
          [| discriminate].
        destruct (getitem df sim_idx) as [movie_data | e]; simpl in Hrun;
          [| discriminate].
        apply orb_false_iff in Eskip as [Hne Hex].
        eapply IH; [exact Hrun | |].
        -- rewrite length_app. simpl. rewrite Z.geb_leb in Efull.
           apply Z.leb_gt in Efull. lia.
        -- intros s Hin. apply in_app_iff in Hin as [Hin | [<- | []]];
             [now apply Hres |].
           simpl. split; [now apply Z.eqb_neq | now apply mem_false_In].
Qed.

(** X1: the content-based [get_similar_movies] never returns the query movie or
    an excluded one, and never more than [n] movies. *)
Lemma content_get_similar_excludes_query :
  forall (self : ContentBased.model) (movie_id n : Z) (exclude : option idset)
         (out : list similar),
    (0 <= n)%Z ->
    ContentBased.get_similar_movies self movie_id n exclude = Ok out ->
    (Z.of_nat (length out) <= n)%Z /\
    ~ In movie_id (map sim_movieId out) /\
    (forall x, In x (or_empty exclude) -> ~ In x (map sim_movieId out)).
Proof.
  intros self movie_id n exclude out Hn Hrun.
  assert (H : (Z.of_nat (length out) <= n)%Z /\
              (forall s, In s out ->
                         sim_movieId s <> movie_id /\
                         ~ In (sim_movieId s) (or_empty exclude))).
  { unfold ContentBased.get_similar_movies in Hrun.
    destruct (negb (ContentBased.is_fitted self)); [discriminate |].
    destruct (dict_get Z.eqb (ContentBased.movie_id_to_idx self) movie_id) as [idx |].
    - destruct (the (ContentBased.similarity_matrix self)) as [S | e];
        simpl in Hrun; [| discriminate].
      destruct (getitem S idx) as [similarities | e]; simpl in Hrun; [| discriminate].
      eapply content_similar_loop_spec; [exact Hn | exact Hrun | simpl; lia |].
      intros s [].
    - injection Hrun as <-. split; [simpl; lia | intros s []]. }
  destruct H as [Hlen Hall]. split; [exact Hlen |]. split.
  - intros Hin. apply in_map_iff in Hin as [s [Hs Hin]].
    destruct (Hall s Hin) as [Hne _]. congruence.
  - intros x Hx Hin. apply in_map_iff in Hin as [s [Hs Hin]].
    subst x. destruct (Hall s Hin) as [_ Hex]. now apply Hex.
Qed.

(* ================================================================== *)
(** * The range of [predict_rating] *)

Lemma init_hy_zero : Hybrid.init 0 1 1 = Ok hy_zero_unfitted.
Proof.
  unfold Hybrid.init. rewrite Reqb_false by lra.
  unfold hy_zero_unfitted. req.
Qed.

Lemma fit_hy_zero :
  Hybrid.fit no_vectorizer hy_zero_unfitted movies2 ratings_two
    (Some cb_two) (Some ib_two)
    (Some (UserBased.fit (UserBased.init 20 3) ratings_two (Some movies2)))
  = Ok hy_zero.
Proof. reflexivity. Qed.

(** C4: a hybrid model built with [content_weight = 0] and asked about a
    user the collaborative models do not know gets one prediction, the
    content model's 4.0, with weight 0.  [weights / weights.sum()] is then
    0/0, and the value handed back is [NaN]: a value, not the "no prediction"
    answer, and not within [0.5, 5.0]. *)
Theorem hybrid_prediction_with_zero_weight_is_nan :
  Hybrid.init 0 1 1 = Ok hy_zero_unfitted /\
  Hybrid.fit no_vectorizer hy_zero_unfitted movies2 ratings_two
    (Some cb_two) (Some ib_two)
    (Some (UserBased.fit (UserBased.init 20 3) ratings_two (Some movies2)))
  = Ok hy_zero /\
  ContentBased.predict_rating cb_two 99 2 (Some [Rated 2 (Some 4)]) = Ok (Some 4) /\
  ItemBased.predict_rating ib_two 99 2 = Ok None /\
  Hybrid.predict_rating hy_zero 99 2 (Some [Rated 2 (Some 4)]) = Ok (Some NaN).
Proof.
  split; [exact init_hy_zero |]. split; [exact fit_hy_zero |].
  assert (Hcb : ContentBased.predict_rating cb_two 99 2 (Some [Rated 2 (Some 4)])
                = Ok (Some 4)).
  { unfold ContentBased.predict_rating. cbn. rdecide. cbn. rdecide. req. }
  split; [exact Hcb |]. split; [reflexivity |].
  unfold Hybrid.predict_rating.
  cbn -[ContentBased.predict_rating]. rewrite Hcb.
  cbn. unfold Hybrid.blend, sum. cbn. rewrite Reqb_true by lra. reflexivity.
Qed.

Lemma ratio_bounds (w s lo hi : R) :
  0 < s -> lo * s <= w <= hi * s -> lo <= w / s <= hi.
Proof.
  intros Hs [Hlo Hhi]. split.
  - apply Rmult_le_reg_r with s; [exact Hs |].
    unfold Rdiv. rewrite Rmult_assoc, Rinv_l by lra. lra.
  - apply Rmult_le_reg_r with s; [exact Hs |].
    unfold Rdiv. rewrite Rmult_assoc, Rinv_l by lra. lra.
Qed.

(** X3: the item-based prediction, when there is one, lies in [0.5, 5.0]. *)
Lemma item_prediction_in_range :
  forall (self : ItemBased.model) (u m : Z) (v : R),
    ItemBased.predict_rating self u m = Ok (Some v) -> valid_rating v.
Proof.
  intros self u m v Hrun. unfold ItemBased.predict_rating in Hrun.
  destruct (negb (ItemBased.is_fitted self)); [discriminate |].
  destruct (dict_get Z.eqb (ItemBased.user_to_idx self) u) as [user_idx |];
    [| discriminate].
  destruct (dict_get Z.eqb (ItemBased.movie_to_idx self) m) as [movie_idx |];
    [| discriminate].
  destruct (the (ItemBased.user_item_matrix self)) as [M | e];
    cbn [bind] in Hrun; [| discriminate].
  destruct (getitem M user_idx) as [user_ratings | e]; cbn [bind] in Hrun; [| discriminate].
  destruct (where_pos user_ratings) as [| i rated_indices]; [discriminate |].
  cbv beta iota in Hrun.
  destruct (the (ItemBased.item_similarity self)) as [S | e];
    cbn [bind] in Hrun; [| discriminate].
  destruct (getitem S movie_idx) as [similarities | e]; cbn [bind] in Hrun; [| discriminate].
  destruct (take_items similarities (i :: rated_indices)) as [rs | e];
    cbn [bind] in Hrun; [| discriminate].
  destruct (top_k (ItemBased.k self) rs (i :: rated_indices)) as [sims idxs].
  destruct (ItemBased.weighted_average user_ratings sims idxs) as [[p |] | e];
    cbn [bind option_map] in Hrun; try discriminate.
  injection Hrun as <-. unfold valid_rating. apply clip_bounds. lra.
Qed.

(** X5: the hybrid prediction, when it is a number, lies in [0.5, 5.0]. *)
Lemma hybrid_finite_prediction_in_range :
  forall (self : Hybrid.model) (u m : Z) (history : option (list rated)) (v : R),
    Hybrid.predict_rating self u m history = Ok (Some (Fin v)) -> valid_rating v.
Proof.
  intros self u m history v Hrun. unfold Hybrid.predict_rating in Hrun.
  destruct (negb (Hybrid.is_fitted self)); [discriminate |].
  destruct (match Hybrid.content_model self with Some _ => _ | None => _ end)
    as [pw1 | e]; simpl in Hrun; [| discriminate].
  destruct (match Hybrid.item_model self with Some _ => _ | None => _ end)
    as [pw2 | e]; simpl in Hrun; [| discriminate].
  destruct (match Hybrid.user_model self with Some _ => _ | None => _ end)
    as [pw3 | e]; simpl in Hrun; [| discriminate].
  destruct (fst pw3); [discriminate |].
  injection Hrun as Hrun. unfold Hybrid.blend in Hrun.
  destruct (Reqb (sum (snd pw3)) 0); [discriminate |].
  injection Hrun as <-. unfold valid_rating. apply clip_bounds. lra.
Qed.

(* ================================================================== *)
(** * Index arrays: [argsort], [np.where], masks and fancy indexing *)





Lemma where_pos_from_filter (v : vec) (s : nat) :
  where_pos_from s v
  = filter (fun p => Rltb 0 (nth (p - s) v 0)) (seq s (length v)).
Proof.
  revert s. induction v as [| x v IH]; intros s; [reflexivity |].
  assert (Htail : filter (fun p => Rltb 0 (nth (p - s) (x :: v) 0)) (seq (S s) (length v))
                  = where_pos_from (S s) v).
  { rewrite IH. apply filter_ext_in. intros p Hp. apply in_seq in Hp.
    replace (p - s)%nat with (S (p - S s)) by lia. reflexivity. }
  cbn [length seq filter where_pos_from]. rewrite Htail, Nat.sub_diag.
  reflexivity.
Qed.

Lemma where_pos_filter (v : vec) :
  where_pos v = filter (fun p => Rltb 0 (nth p v 0)) (seq 0 (length v)).
Proof.
  unfold where_pos. rewrite where_pos_from_filter.
  apply filter_ext. intros p. now rewrite Nat.sub_0_r.
Qed.


Section ArgsortFacts.
Variable v : vec.

Lemma insert_idx_perm (i : nat) (l : list nat) :
  Permutation (insert_idx v i l) (i :: l).
Proof.
  induction l as [| j l IH]; simpl.
  - apply Permutation_refl.
  - destruct (Rleb (nth i v 0) (nth j v 0)).
    + apply Permutation_refl.
    + eapply Permutation_trans; [apply perm_skip, IH | apply perm_swap].
Qed.

Lemma insert_idx_sorted (i : nat) (l : list nat) :
  StronglySorted (asc v) l -> StronglySorted (asc v) (insert_idx v i l).
Proof.
  induction 1 as [| j l Hs IH Hall]; simpl.
  - constructor; constructor.
  - destruct (Rleb (nth i v 0) (nth j v 0)) eqn:E.
    + apply Rleb_spec in E. constructor.
      * now constructor.
      * constructor; [exact E |].
        eapply Forall_impl; [| exact Hall]. unfold asc. intros; lra.
    + constructor; [exact IH |].
      assert (Hji : nth j v 0 <= nth i v 0).
      { unfold Rleb in E. destruct (Rle_dec (nth i v 0) (nth j v 0));
          [discriminate | lra]. }
      eapply Permutation_Forall; [apply Permutation_sym, insert_idx_perm |].
      constructor; assumption.
Qed.

Lemma argsort_perm : Permutation (argsort v) (seq 0 (length v)).
Proof.
  unfold argsort. induction (seq 0 (length v)) as [| i l IH]; simpl.
  - apply Permutation_refl.
  - eapply Permutation_trans; [apply insert_idx_perm | now apply perm_skip].
Qed.

Lemma argsort_sorted : StronglySorted (asc v) (argsort v).
Proof.
  unfold argsort. induction (seq 0 (length v)) as [| i l IH]; simpl.
  - constructor.
  - now apply insert_idx_sorted.
Qed.
End ArgsortFacts.


Lemma StronglySorted_app_intro {A : Type} (R : A -> A -> Prop) (l1 l2 : list A) :
  StronglySorted R l1 -> StronglySorted R l2 ->
  (forall x y, In x l1 -> In y l2 -> R x y) ->
  StronglySorted R (l1 ++ l2).
Proof.
  induction l1 as [| a l1 IH]; intros H1 H2 H12; simpl; [exact H2 |].
  inversion H1 as [| ? ? Hs Hall]; subst. constructor.
  - apply IH; [assumption | assumption |]. intros x y Hx Hy. apply H12; [now right | exact Hy].
  - apply Forall_app. split; [exact Hall |].
    apply Forall_forall. intros y Hy. apply H12; [now left | exact Hy].
Qed.

Lemma StronglySorted_rev {A : Type} (R : A -> A -> Prop) (l : list A) :
  StronglySorted R l -> StronglySorted (fun x y => R y x) (rev l).
Proof.
  induction 1 as [| a l Hs IH Hall]; simpl; [constructor |].
  apply StronglySorted_app_intro; [exact IH | repeat constructor |].
  intros x y Hx [<- | []]. apply in_rev in Hx.
  rewrite Forall_forall in Hall. now apply Hall.
Qed.









(* ================================================================== *)
(** * The user-based and the item-based prediction *)



(* ================================================================== *)
(** * A user model with one pair of similar users *)

Lemma rating_matrix_three :
  rating_matrix [(1%Z, 0%nat); (2%Z, 1%nat)]
    [(10%Z, 0%nat); (11%Z, 1%nat); (12%Z, 2%nat)] 2 3 ratings_three
  = [[5; 1; 0]; [4; 0; 2]].
Proof. unfold rating_matrix, toarray, sum. cbn. req. Qed.

Lemma user_means_three :
  UserBased.compute_user_means [[5; 1; 0]; [4; 0; 2]] = [3; 3].
Proof.
  unfold UserBased.compute_user_means, sum. cbn [map filter].
  rdecide. cbn. req.
Qed.

Lemma safe_norm_sqr (v : vec) :
  0 < dot v v -> 0 < safe_norm v /\ safe_norm v * safe_norm v = dot v v.
Proof.
  intros H. split; [apply safe_norm_pos |].
  unfold safe_norm. rewrite Rltb_true by (unfold norm; now apply sqrt_lt_R0).
  apply norm_sqr.
Qed.

Lemma user_similarity_three :
  UserBased.compute_user_similarity [[5; 1; 0]; [4; 0; 2]] [3; 3]
  = [[0; 1 / 2]; [1 / 2; 0]].
Proof.
  unfold UserBased.compute_user_similarity. cbn [map2 map]. rdecide.
  replace (5 - 3) with 2 by lra. replace (1 - 3) with (-2) by lra.
  replace (4 - 3) with 1 by lra. replace (2 - 3) with (-1) by lra.
  unfold normalize_rows. cbn [map].
  destruct (safe_norm_sqr [2; -2; 0]) as [Ha Ha2]; [unfold dot, sum; simpl; lra |].
  destruct (safe_norm_sqr [1; 0; -1]) as [Hb Hb2]; [unfold dot, sum; simpl; lra |].
  revert Ha Ha2 Hb Hb2.
  generalize (safe_norm [2; -2; 0]). generalize (safe_norm [1; 0; -1]).
  intros b a Ha Ha2 Hb Hb2.
  assert (Ha8 : a * a = 8) by (rewrite Ha2; unfold dot, sum; simpl; lra).
  assert (Hb2' : b * b = 2) by (rewrite Hb2; unfold dot, sum; simpl; lra).
  assert (Hab : a * b = 4).
  { assert (Hpos : 0 < a * b) by (now apply Rmult_lt_0_compat).
    assert (Hsq : (a * b) * (a * b) = 4 * 4).
    { replace (a * b * (a * b)) with (a * a * (b * b)) by ring.
      rewrite Ha8, Hb2'. lra. }
    apply Rsqr_inj; [lra | lra | exact Hsq]. }
  unfold gram, dot, sum, fill_diagonal. cbn.
  match goal with
  | |- [[_; ?x]; [?y; _]] = _ =>
      replace x with (2 / (a * b)) by (field; lra);
      replace y with (2 / (a * b)) by (field; lra)
  end.
  rewrite Hab. req.
Qed.

Lemma fit_ub_three (mc : Z) :
  UserBased.fit (UserBased.init 20 mc) ratings_three None = ub_three mc.
Proof.
  unfold UserBased.fit.
  cbn -[rating_matrix UserBased.compute_user_similarity
        UserBased.compute_user_means ratings_three].
  cbn -[rating_matrix UserBased.compute_user_similarity
        UserBased.compute_user_means].
  change [RatingRow 1 10 5; RatingRow 1 11 1; RatingRow 2 10 4; RatingRow 2 12 2]
    with ratings_three.
  rewrite rating_matrix_three, user_means_three, user_similarity_three.
  reflexivity.
Qed.

Lemma predict_ub_three (mc : Z) :
  UserBased.predict_rating (ub_three mc) 1 12 = Ok (Some 2).
Proof.
  unfold UserBased.predict_rating. cbn. rdecide. cbn. rdecide. cbn.
  unfold UserBased.deviation_prediction, sum, clip. cbn.
  f_equal. f_equal.
  replace (3 + (1 / 2 * (2 - 3) + 0) / (1 / 2 + 0)) with 2 by (field; lra).
  unfold Rmax, Rmin.
  destruct (Rle_dec 2 (1 / 2)); [lra |].
  destruct (Rle_dec 2 5); lra.
Qed.

(* ================================================================== *)
(** * Dictionaries keyed by movie id *)

Lemma dict_get_mem {V : Type} (d : dict Z V) (k : Z) :
  mem k (map fst d) = match dict_get Z.eqb d k with Some _ => true | None => false end.
Proof.
  induction d as [| [k0 v0] d IH]; simpl; [reflexivity |].
  destruct (Z.eqb k k0); simpl; [reflexivity | exact IH].
Qed.

Lemma keys_dict_set {V : Type} (d : dict Z V) (k : Z) (v : V) :
  map fst (dict_set Z.eqb d k v) = set_add (map fst d) k.
Proof.
  unfold set_add. induction d as [| [k0 v0] d IH]; simpl; [reflexivity |].
  destruct (Z.eqb_spec k k0) as [-> | Hne]; simpl; [reflexivity |].
  rewrite IH. destruct (mem k (map fst d)); reflexivity.
Qed.

Lemma dict_get_In {V : Type} (d : dict Z V) (k : Z) (v : V) :
  NoDup (map fst d) -> In (k, v) d -> dict_get Z.eqb d k = Some v.
Proof.
  induction d as [| [k0 v0] d IH]; intros Hnd Hin; [contradiction |].
  simpl in Hnd. inversion Hnd as [| ? ? Hnotin Hnd']; subst. simpl.
  destruct Hin as [Heq | Hin].
  - injection Heq as -> ->. now rewrite Z.eqb_refl.
  - destruct (Z.eqb_spec k k0) as [-> | Hne]; [| now apply IH].
    exfalso. apply Hnotin. apply in_map_iff. now exists (k0, v).
Qed.

Lemma set_add_NoDup (s : idset) (x : Z) : NoDup s -> NoDup (set_add s x).
Proof.
  intros H. unfold set_add. destruct (mem x s) eqn:E; [exact H |].
  apply mem_false_In in E. apply NoDup_app; [exact H | repeat constructor; tauto |].
  intros a Ha [<- | []]. contradiction.
Qed.

Lemma set_union_NoDup (xs : list Z) (s : idset) : NoDup s -> NoDup (set_union s xs).
Proof.
  unfold set_union. revert s. induction xs as [| x xs IH]; intros s H; simpl;
    [exact H |].
  apply IH. now apply set_add_NoDup.
Qed.

(* ================================================================== *)
(** * The merge loops of the hybrid [recommend] *)

Lemma set_add_idem (s : idset) (x : Z) : set_add (set_add s x) x = set_add s x.
Proof.
  unfold set_add. destruct (mem x s) eqn:E.
  - now rewrite E.
  - assert (H : mem x (s ++ [x]) = true).
    { apply mem_In. apply in_or_app. right. now left. }
    now rewrite H.
Qed.










(* ================================================================== *)
(** * The hybrid [recommend] *)









(* ================================================================== *)
(** * The claims on the two collaborative predictions *)



(* ================================================================== *)
(** * [min_common], on data *)

(** C7: two user-based models that differ only in [min_common] and are
    fitted on the same frames give the same answers on every query.  On
    [ratings_three] the two users have one movie in common, fewer than
    [min_common = 3]; user 2 still counts as a neighbour of user 1 with
    similarity 0.5, and the prediction for user 1 and movie 12 is 2.0 and not
    the fallback, user 1's mean 3.0. *)
Theorem min_common_changes_no_answer :
  (forall (k mc1 mc2 : Z) (ratings : list rating_row)
          (movies : option (list movie_row)),
      UserBased.user_similarity (UserBased.fit (UserBased.init k mc1) ratings movies)
      = UserBased.user_similarity (UserBased.fit (UserBased.init k mc2) ratings movies) /\
      (forall u m,
          UserBased.predict_rating (UserBased.fit (UserBased.init k mc1) ratings movies) u m
          = UserBased.predict_rating (UserBased.fit (UserBased.init k mc2) ratings movies) u m) /\
      (forall u n ex,
          UserBased.recommend (UserBased.fit (UserBased.init k mc1) ratings movies) u n ex
          = UserBased.recommend (UserBased.fit (UserBased.init k mc2) ratings movies) u n ex)) /\
  UserBased.fit (UserBased.init 20 3) ratings_three None = ub_three 3 /\
  co_rated [[5; 1; 0]; [4; 0; 2]] 0 1 = 1%nat /\
  entry [[0; 1 / 2]; [1 / 2; 0]] 0 1 = 1 / 2 /\
  UserBased.predict_rating (ub_three 3) 1 12 = Ok (Some 2) /\
  nth 0 [3; 3] 0 = 3.
Proof.
  split.
  - intros k mc1 mc2 ratings movies.
    destruct (min_common_is_never_read k mc1 mc2 ratings movies) as (H1 & H2 & H3 & _).
    repeat split; assumption.
  - split; [apply fit_ub_three |]. split.
    + unfold co_rated, entry. cbn. rdecide. reflexivity.
    + split; [reflexivity |]. split; [apply predict_ub_three | reflexivity].
Qed.

(* ================================================================== *)
(** * The range of the user-based prediction *)

Lemma positive_sum_bounds (row : vec) :
  (forall x, In x row -> valid_cell x) ->
  1 / 2 * INR (length (filter (Rltb 0) row)) <= sum row
  <= 5 * INR (length (filter (Rltb 0) row)).
Proof.
  induction row as [| x row IH]; intros Hvalid.
  - unfold sum. simpl. lra.
  - assert (Hrow : forall y, In y row -> valid_cell y)
      by (intros y Hy; apply Hvalid; now right).
    specialize (IH Hrow).
    change (sum (x :: row)) with (x + sum row). cbn [filter].
    destruct (Hvalid x (or_introl eq_refl)) as [-> | [Hlo Hhi]].
    + rewrite Rltb_false by lra. lra.
    + rewrite Rltb_true by lra. cbn [length]. rewrite S_INR. lra.
Qed.

Lemma user_means_valid (M : matrix) (mean : R) :
  (forall row x, In row M -> In x row -> valid_cell x) ->
  In mean (UserBased.compute_user_means M) -> valid_rating mean.
Proof.
  intros Hvalid Hin. unfold UserBased.compute_user_means in Hin.
  apply in_map_iff in Hin as [row [<- Hrow]].
  pose proof (positive_sum_bounds row (fun x => Hvalid row x Hrow)) as Hb.
  destruct (Nat.ltb 0 (length (filter (Rltb 0) row))) eqn:E.
  - apply Nat.ltb_lt in E. unfold valid_rating. apply ratio_bounds; [| lra].
    now apply lt_0_INR.
  - unfold valid_rating. lra.
Qed.

(** The user-based prediction lies in [0.5, 5.0] whenever the rating matrix
    holds valid ratings (or 0 for "unrated") and the means are those
    [_compute_user_means] computes from it, as after [fit]. *)
Lemma user_prediction_in_range :
  forall (self : UserBased.model) (u m : Z) (M : matrix) (v : R),
    UserBased.user_item_matrix self = Some M ->
    UserBased.user_means self = Some (UserBased.compute_user_means M) ->
    (forall row x, In row M -> In x row -> valid_cell x) ->
    UserBased.predict_rating self u m = Ok (Some v) ->
    valid_rating v.
Proof.
  intros self u m M v HM Hmeans Hvalid Hrun.
  assert (Hmean : forall ui mean,
             getitem (UserBased.compute_user_means M) ui = Ok mean ->
             valid_rating mean).
  { intros ui mean Hget. apply (user_means_valid M mean Hvalid).
    unfold getitem in Hget.
    destruct (nth_error (UserBased.compute_user_means M) ui) as [x |] eqn:E;
      [| discriminate].
    injection Hget as <-. eapply nth_error_In. exact E. }
  unfold UserBased.predict_rating in Hrun.
  destruct (negb (UserBased.is_fitted self)); [discriminate |].
  destruct (dict_get Z.eqb (UserBased.user_to_idx self) u) as [ui |]; [| discriminate].
  destruct (dict_get Z.eqb (UserBased.movie_to_idx self) m) as [mi |]; [| discriminate].
  rewrite HM, Hmeans in Hrun. cbn [the bind] in Hrun.
  destruct (column M mi) as [col | e]; cbn [bind] in Hrun; [| discriminate].
  destruct (where_pos col) as [| r0 rs].
  - destruct (getitem _ ui) as [mean | e] eqn:E; cbn [bind] in Hrun; [| discriminate].
    injection Hrun as <-. now apply (Hmean ui).
  - destruct (the (UserBased.user_similarity self)) as [S | e];
      cbn [bind] in Hrun; [| discriminate].
    destruct (getitem S ui) as [row | e]; cbn [bind] in Hrun; [| discriminate].
    destruct (take_items row (r0 :: rs)) as [sims | e]; cbn [bind] in Hrun;
      [| discriminate].
    destruct (top_k (UserBased.k self) sims (r0 :: rs)) as [sims' idxs'].
    destruct (negb (existsb (fun b : bool => b) (map (Rltb 0) sims'))).
    + destruct (getitem _ ui) as [mean | e] eqn:E; cbn [bind] in Hrun; [| discriminate].
      injection Hrun as <-. now apply (Hmean ui).
    + destruct (take_items col _) as [ratings | e]; cbn [bind] in Hrun; [| discriminate].
      destruct (take_items (UserBased.compute_user_means M) _) as [nm | e];
        cbn [bind] in Hrun; [| discriminate].
      destruct (getitem _ ui) as [mean | e]; cbn [bind] in Hrun; [| discriminate].
      injection Hrun as <-. unfold UserBased.deviation_prediction, valid_rating.
      apply clip_bounds. lra.
Qed.

(* ================================================================== *)
(** * The rating matrix of a frame without repeated pairs *)

Lemma insert_sorted_In (x y : Z) (l : list Z) :
  In x (insert_sorted y l) <-> x = y \/ In x l.
Proof.
  induction l as [| z l IH]; simpl; [intuition |].
  destruct (Z.ltb_spec y z); [simpl; intuition |].
  destruct (Z.eqb_spec y z) as [-> | Hne]; simpl; [intuition |].
  rewrite IH. intuition.
Qed.

Lemma sorted_unique_In (x : Z) (l : list Z) : In x (sorted_unique l) <-> In x l.
Proof.
  unfold sorted_unique. induction l as [| y l IH]; simpl; [tauto |].
  rewrite insert_sorted_In, IH. intuition.
Qed.

Lemma insert_sorted_sorted (y : Z) (l : list Z) :
  StronglySorted Z.lt l -> StronglySorted Z.lt (insert_sorted y l).
Proof.
  induction 1 as [| z l Hs IH Hall]; simpl; [repeat constructor |].
  destruct (Z.ltb_spec y z) as [Hlt | Hge].
  - constructor; [now constructor |]. constructor; [exact Hlt |].
    eapply Forall_impl; [| exact Hall]. intros a Ha. lia.
  - destruct (Z.eqb_spec y z) as [-> | Hne]; [now constructor |].
    constructor; [exact IH |].
    apply Forall_forall. intros a Ha. apply insert_sorted_In in Ha as [-> | Ha];
      [lia |]. rewrite Forall_forall in Hall. now apply Hall.
Qed.

Lemma sorted_unique_NoDup (l : list Z) : NoDup (sorted_unique l).
Proof.
  assert (Hs : StronglySorted Z.lt (sorted_unique l)).
  { unfold sorted_unique. induction l as [| y l IH]; simpl; [constructor |].
    now apply insert_sorted_sorted. }
  induction Hs as [| z l' Hs IH Hall]; constructor; [| exact IH].
  intros Hin. rewrite Forall_forall in Hall. specialize (Hall z Hin). lia.
Qed.

(** After the [enumerate] loop over distinct keys, the key at position [j]
    is mapped to [idx + j]. *)
Lemma enumerate_into_get (keys : list Z) :
  NoDup keys ->
  forall (idx : nat) (fwd : dict Z nat) (bwd : dict nat Z) (j : nat),
    (j < length keys)%nat ->
    dict_get Z.eqb (fst (enumerate_into keys idx fwd bwd)) (nth j keys 0%Z)
    = Some (idx + j)%nat.
Proof.
  induction 1 as [| key keys Hnotin Hnd IH]; intros idx fwd bwd j Hj;
    simpl in Hj; [lia |].
  destruct j as [| j]; simpl.
  - rewrite enumerate_into_keeps by exact Hnotin.
    rewrite dict_get_set_same. f_equal. lia.
  - rewrite IH by lia. f_equal. lia.
Qed.

Lemma enumerate_into_injective (keys : list Z) (idx : nat)
    (fwd : dict Z nat) (bwd : dict nat Z) (a b : Z) :
  NoDup keys -> In a keys -> In b keys ->
  dict_get Z.eqb (fst (enumerate_into keys idx fwd bwd)) a
  = dict_get Z.eqb (fst (enumerate_into keys idx fwd bwd)) b ->
  a = b.
Proof.
  intros Hnd Ha Hb Heq.
  destruct (In_nth keys a 0%Z Ha) as [i [Hi <-]].
  destruct (In_nth keys b 0%Z Hb) as [j [Hj <-]].
  rewrite !enumerate_into_get in Heq by assumption.
  injection Heq as Heq. f_equal. lia.
Qed.

Lemma filter_keeps_distinct_keys {V K : Type} (keep : V -> bool) (key : V -> K)
    (entries : list V) (Hnd : NoDup (map key entries)) :
  NoDup (map key (filter keep entries)).
Proof.
  induction entries as [| e rest IH]; cbn [filter map] in *; [constructor |].
  apply NoDup_cons_iff in Hnd as [Hfresh Hrest].
  destruct (keep e); cbn [map]; [| exact (IH Hrest)].
  apply NoDup_cons; [| exact (IH Hrest)].
  rewrite in_map_iff. intros [e' [Hkey Hin]]. apply Hfresh.
  apply filter_In in Hin as [Hin _]. rewrite <- Hkey. now apply in_map.
Qed.

(** A position of the dense matrix that at most one entry names holds 0 or
    that entry's value. *)
Lemma toarray_valid (n_rows n_cols : nat)
    (entries : list (option nat * option nat * R)) :
  NoDup (map fst entries) ->
  (forall e, In e entries -> valid_rating (snd e)) ->
  forall row x, In row (toarray n_rows n_cols entries) -> In x row -> valid_cell x.
Proof.
  intros Hnd Hvalid row x Hrow Hx. unfold toarray in Hrow.
  apply in_map_iff in Hrow as [u [<- _]].
  apply in_map_iff in Hx as [i [<- _]].
  set (p := fun e : option nat * option nat * R =>
              match fst (fst e), snd (fst e) with
              | Some r, Some c => Nat.eqb r u && Nat.eqb c i
              | _, _ => false
              end).
  assert (Hp : forall e, p e = true -> fst e = (Some u, Some i)).
  { intros [[[r |] [c |]] y]; unfold p; simpl; try discriminate.
    intros H. apply andb_true_iff in H as [Hr Hc].
    apply Nat.eqb_eq in Hr, Hc. now subst. }
  pose proof (filter_keeps_distinct_keys p fst entries Hnd) as Hndf.
  destruct (filter p entries) as [| e1 [| e2 rest]] eqn:Ef.
  - left. reflexivity.
  - right. unfold sum. simpl.
    assert (Hin : In e1 (filter p entries)) by (rewrite Ef; now left).
    apply filter_In in Hin as [Hin _].
    pose proof (Hvalid e1 Hin) as Hv. unfold valid_rating in *. lra.
  - exfalso.
    assert (H1 : In e1 (filter p entries)) by (rewrite Ef; now left).
    assert (H2 : In e2 (filter p entries)) by (rewrite Ef; right; now left).
    apply filter_In in H1 as [_ H1]. apply filter_In in H2 as [_ H2].
    simpl in Hndf. inversion Hndf as [| ? ? Hnotin _]; subst.
    apply Hnotin. left. now rewrite (Hp e1 H1), (Hp e2 H2).
Qed.

(** The matrix [UserBasedModel.fit] builds from a frame of valid ratings
    without a repeated (user, movie) pair holds valid cells only. *)
Lemma user_fit_matrix_valid (self : UserBased.model) (ratings : list rating_row)
    (movies : option (list movie_row)) (M : matrix) :
  (forall r, In r ratings -> valid_rating (rating r)) ->
  NoDup (map (fun r => (userId r, r_movieId r)) ratings) ->
  UserBased.user_item_matrix (UserBased.fit self ratings movies) = Some M ->
  forall row x, In row M -> In x row -> valid_cell x.
Proof.
  intros Hvalid Hnd HM. cbn [UserBased.fit UserBased.user_item_matrix] in HM.
  injection HM as <-. unfold rating_matrix.
  set (U := fst (enumerate_into (sorted_unique (map userId ratings)) 0
                   (UserBased.user_to_idx self) (UserBased.idx_to_user self))).
  set (V := fst (enumerate_into (sorted_unique (map r_movieId ratings)) 0
                   (UserBased.movie_to_idx self) (UserBased.idx_to_movie self))).
  apply toarray_valid.
  - rewrite map_map. cbn [fst].
    change (fun r : rating_row =>
              (dict_get Z.eqb U (userId r), dict_get Z.eqb V (r_movieId r)))
      with (fun r : rating_row =>
              (fun ids : Z * Z => (dict_get Z.eqb U (fst ids), dict_get Z.eqb V (snd ids)))
                ((fun r => (userId r, r_movieId r)) r)).
    rewrite <- (map_map (fun r => (userId r, r_movieId r))
                  (fun ids : Z * Z =>
                     (dict_get Z.eqb U (fst ids), dict_get Z.eqb V (snd ids)))).
    apply NoDup_map_NoDup_ForallPairs; [| exact Hnd].
    intros [a1 b1] [a2 b2] H1 H2 Heq. simpl in Heq. injection Heq as Ha Hb.
    apply in_map_iff in H1 as [r1 [E1 Hr1]]. injection E1 as <- <-.
    apply in_map_iff in H2 as [r2 [E2 Hr2]]. injection E2 as <- <-.
    f_equal.
    + eapply enumerate_into_injective; [apply sorted_unique_NoDup | | | exact Ha];
        apply sorted_unique_In; now apply in_map.
    + eapply enumerate_into_injective; [apply sorted_unique_NoDup | | | exact Hb];
        apply sorted_unique_In; now apply in_map.
  - intros e He. apply in_map_iff in He as [r [<- Hr]]. simpl. now apply Hvalid.
Qed.

(** X4: the user-based prediction after [fit] on valid ratings, one per (user,
    movie) pair, lies in [0.5, 5.0]. *)
Lemma user_fit_prediction_in_range :
  forall (self : UserBased.model) (ratings : list rating_row)
         (movies : option (list movie_row)) (u m : Z) (v : R),
    (forall r, In r ratings -> valid_rating (rating r)) ->
    NoDup (map (fun r => (userId r, r_movieId r)) ratings) ->
    UserBased.predict_rating (UserBased.fit self ratings movies) u m = Ok (Some v) ->
    valid_rating v.
Proof.
  intros self ratings movies u m v Hvalid Hnd Hrun.
  destruct (UserBased.user_item_matrix (UserBased.fit self ratings movies))
    as [M |] eqn:HM; [| discriminate HM].
  apply (user_prediction_in_range (UserBased.fit self ratings movies) u m M v HM);
    [| exact (user_fit_matrix_valid self ratings movies M Hvalid Hnd HM) | exact Hrun].
  cbn [UserBased.fit UserBased.user_item_matrix UserBased.user_means] in *.
  injection HM as <-. reflexivity.
Qed.

(* ================================================================== *)
(** * Further properties, with an instance of each *)

Lemma similar_to_1_in_cb_two :
  ContentBased.get_similar_movies cb_two 1 10 None
  = Ok [ {| sim_movieId := 2; sim_title := "Emma";
            sim_genres := ["Romance"%string]; sim_avgRating := 3;
            similarity := 0 |} ].
Proof.
  unfold ContentBased.get_similar_movies. cbn. unfold argsort. cbn.
  rdecide. cbn. reflexivity.
Qed.

Lemma content_get_similar_excludes_query_witness :
  (Z.of_nat (length [ {| sim_movieId := 2; sim_title := "Emma";
                         sim_genres := ["Romance"%string]; sim_avgRating := 3;
                         similarity := 0 |} ]) <= 10)%Z /\
  ~ In 1%Z (map sim_movieId
              [ {| sim_movieId := 2; sim_title := "Emma";
                   sim_genres := ["Romance"%string]; sim_avgRating := 3;
                   similarity := 0 |} ]).
Proof.
  destruct (content_get_similar_excludes_query cb_two 1 10 None _
              ltac:(lia) similar_to_1_in_cb_two) as (H1 & H2 & _).
  split; [exact H1 | exact H2].
Defined.

Lemma predict_2_in_cb_two :
  ContentBased.predict_rating cb_two 99 2 (Some [Rated 2 (Some 4)]) = Ok (Some 4).
Proof.
  unfold ContentBased.predict_rating. cbn. rdecide. cbn. rdecide. req.
Qed.

Lemma ratings_three_valid :
  forall r, In r ratings_three -> valid_rating (rating r).
Proof.
  intros r Hr. unfold ratings_three in Hr. simpl in Hr.
  unfold valid_rating.
  destruct Hr as [<- | [<- | [<- | [<- | []]]]]; simpl; lra.
Qed.

Lemma ratings_three_pairs :
  NoDup (map (fun r => (userId r, r_movieId r)) ratings_three).
Proof.
  simpl. repeat constructor; simpl; intuition congruence.
Qed.

Lemma user_fit_prediction_in_range_witness : valid_rating 2.
Proof.
  apply (user_fit_prediction_in_range (UserBased.init 20 3) ratings_three None
           1 12 2 ratings_three_valid ratings_three_pairs).
  rewrite fit_ub_three. apply predict_ub_three.
Defined.

Lemma hybrid_predict_2_in_hy_two :
  Hybrid.predict_rating hy_two 99 2 (Some [Rated 2 (Some 4)]) = Ok (Some (Fin 4)).
Proof.
  unfold Hybrid.predict_rating.
  cbn -[ContentBased.predict_rating ItemBased.fit]. rewrite predict_2_in_cb_two.
  rewrite fit_ib_two.
  cbn. unfold Hybrid.blend, sum. cbn. rewrite Reqb_false by lra.
  f_equal. f_equal. f_equal.
  replace ((4 * (3 / 10 / (3 / 10 + 0)) + 0) / (3 / 10 / (3 / 10 + 0) + 0))
    with 4 by (field; lra).
  apply clip_id. lra.
Qed.

Lemma hybrid_finite_prediction_in_range_witness : valid_rating 4.
Proof.
  exact (hybrid_finite_prediction_in_range hy_two 99 2 (Some [Rated 2 (Some 4)]) 4
           hybrid_predict_2_in_hy_two).
Defined.

(** X6: [set_weights] called with three weights that are not negative and
    not all zero stores three weights of [[0, 1]], a zero argument giving a
    zero weight, and leaves the sub-models, the frames and the fitted flag as
    they are; called with three zeros it raises [ZeroDivisionError]. *)
Lemma set_weights_stores_shares :
  forall (self : Hybrid.model) (a b c : R),
    0 <= a -> 0 <= b -> 0 <= c ->
    (0 < a + b + c ->
     exists m,
       Hybrid.set_weights self a b c = Ok m /\
       0 <= Hybrid.content_weight m <= 1 /\
       0 <= Hybrid.item_weight m <= 1 /\
       0 <= Hybrid.user_weight m <= 1 /\
       (a = 0 -> Hybrid.content_weight m = 0) /\
       (b = 0 -> Hybrid.item_weight m = 0) /\
       (c = 0 -> Hybrid.user_weight m = 0) /\
       Hybrid.content_model m = Hybrid.content_model self /\
       Hybrid.item_model m = Hybrid.item_model self /\
       Hybrid.user_model m = Hybrid.user_model self /\
       Hybrid.movies_df m = Hybrid.movies_df self /\
       Hybrid.ratings_df m = Hybrid.ratings_df self /\
       Hybrid.is_fitted m = Hybrid.is_fitted self) /\
    (a + b + c = 0 ->
     Hybrid.set_weights self a b c = Raise ZeroDivisionError).
Proof.
  intros self a b c Ha Hb Hc. unfold Hybrid.set_weights. split.
  - intros Hpos. rewrite Reqb_false by lra. eexists. split; [reflexivity |].
    cbn.
    assert (Hshare : forall x, 0 <= x <= a + b + c -> 0 <= x / (a + b + c) <= 1).
    { intros x Hx. split.
      - apply Rmult_le_pos; [lra | left; now apply Rinv_0_lt_compat].
      - apply (Rmult_le_reg_r (a + b + c)); [exact Hpos |].
        unfold Rdiv. rewrite Rmult_assoc, Rinv_l by lra. lra. }
    repeat split; try reflexivity; try (apply Hshare; lra);
      intros ->; unfold Rdiv; ring.
  - intros H0. now rewrite Reqb_true by exact H0.
Qed.

Lemma set_weights_stores_shares_witness :
  exists m,
    Hybrid.set_weights hybrid_unfitted 3 3 4 = Ok m /\
    0 <= Hybrid.content_weight m <= 1 /\
    0 <= Hybrid.item_weight m <= 1 /\
    0 <= Hybrid.user_weight m <= 1.
Proof.
  destruct (proj1 (set_weights_stores_shares hybrid_unfitted 3 3 4
                     ltac:(lra) ltac:(lra) ltac:(lra)) ltac:(lra))
    as (m & Hm & H1 & H2 & H3 & _).
  exists m. repeat split; (exact Hm || apply H1 || apply H2 || apply H3).
Defined.

Lemma rating_matrix_ab :
  rating_matrix [(1%Z, 0%nat); (2%Z, 1%nat); (3%Z, 2%nat)]
    [(1%Z, 0%nat); (2%Z, 1%nat)] 3 2 ratings_ab
  = [[5; 4]; [1; 2]; [3; 0]].
Proof. unfold rating_matrix, toarray, sum. cbn. req. Qed.

Lemma center_row_513 : ItemBased.center_row [5; 1; 3] = [2; -2; 0].
Proof.
  unfold ItemBased.center_row, ItemBased.nanmean, sum. cbn. rdecide. cbn. req.
Qed.

Lemma center_row_420 : ItemBased.center_row [4; 2; 0] = [1; -1; 0].
Proof.
  unfold ItemBased.center_row, ItemBased.nanmean, sum. cbn. rdecide. cbn. req.
Qed.

Lemma compute_item_similarity_ab :
  ItemBased.compute_item_similarity 2 [[5; 4]; [1; 2]; [3; 0]] = [[0; 1]; [1; 0]].
Proof.
  unfold ItemBased.compute_item_similarity, transpose. cbn [map seq nth].
  rewrite center_row_513, center_row_420.
  unfold cosine_similarity, normalize_rows. cbn [map].
  destruct (safe_norm_sqr [2; -2; 0]) as [Ha Ha2]; [unfold dot, sum; simpl; lra |].
  destruct (safe_norm_sqr [1; -1; 0]) as [Hb Hb2]; [unfold dot, sum; simpl; lra |].
  revert Ha Ha2 Hb Hb2.
  generalize (safe_norm [2; -2; 0]). generalize (safe_norm [1; -1; 0]).
  intros b a Ha Ha2 Hb Hb2.
  assert (Ha8 : a * a = 8) by (rewrite Ha2; unfold dot, sum; simpl; lra).
  assert (Hb2' : b * b = 2) by (rewrite Hb2; unfold dot, sum; simpl; lra).
  assert (Hab : a * b = 4).
  { assert (Hpos : 0 < a * b) by (now apply Rmult_lt_0_compat).
    assert (Hsq : (a * b) * (a * b) = 4 * 4).
    { replace (a * b * (a * b)) with (a * a * (b * b)) by ring.
      rewrite Ha8, Hb2'. lra. }
    apply Rsqr_inj; [lra | lra | exact Hsq]. }
  unfold gram, dot, sum, fill_diagonal. cbn.
  match goal with
  | |- [[_; ?x]; [?y; _]] = _ =>
      replace x with (4 / (a * b)) by (field; lra);
      replace y with (4 / (a * b)) by (field; lra)
  end.
  rewrite Hab. req.
Qed.

Lemma fit_ib_ab :
  ItemBased.fit (ItemBased.init 20 1) ratings_ab None = ib_ab.
Proof.
  unfold ItemBased.fit.
  cbn -[rating_matrix ItemBased.compute_item_similarity ratings_ab].
  cbn -[rating_matrix ItemBased.compute_item_similarity].
  change [RatingRow 1 1 5; RatingRow 2 1 1; RatingRow 3 1 3;
          RatingRow 1 2 4; RatingRow 2 2 2]
    with ratings_ab.
  rewrite rating_matrix_ab, compute_item_similarity_ab. reflexivity.
Qed.

Lemma predict_ib_ab : ItemBased.predict_rating ib_ab 3 2 = Ok (Some 3).
Proof.
  unfold ItemBased.predict_rating. cbn. rdecide. cbn.
  unfold ItemBased.weighted_average. cbn. rdecide. cbn. unfold sum. cbn.
  f_equal. f_equal.
  replace ((1 * 3 + 0) / (1 + 0)) with 3 by (field; lra).
  apply clip_id. lra.
Qed.

Lemma item_prediction_in_range_witness : valid_rating 3.
Proof.
  exact (item_prediction_in_range ib_ab 3 2 3 predict_ib_ab).
Defined.

Lemma recommend_for_user_keeps_members (cm : ContentBased.model)
    (fresh : nat -> cell) (u : Z) (history : list rated) (n : Z) (r : ref)
    (h : heap) (x : Z) :
  deref h r <> [] ->
  In x (deref h r) ->
  In x (deref (snd (ContentBased.recommend_for_user cm fresh u history n (Some r) h)) r).
Proof.
  intros Hne Hx. unfold ContentBased.recommend_for_user.
  destruct (negb (ContentBased.is_fitted cm)); [exact Hx |].
  destruct history as [| r0 rest]; [exact Hx |].
  rewrite (or_new_set_nonempty h r Hne). cbn [snd].
  rewrite deref_store_eq by (now apply deref_nonempty_lt).
  apply set_union_In. now left.
Qed.

(** X7: no row the hybrid [recommend] returns is a member of the [exclude]
    set the caller passed. *)
Lemma hybrid_recommend_respects_exclude :
  forall (self : Hybrid.model) (fresh : nat -> cell) (u n : Z) (r : ref)
         (rated_arg : option (list rated)) (h : heap) (rows : list Hybrid.hybrid_rec),
    fst (Hybrid.recommend self fresh u n (Some r) rated_arg h) = Ok rows ->
    forall row, In row rows -> ~ In (Hybrid.h_movieId row) (deref h r).
Proof.
  intros self fresh u n r rated_arg h rows Hrun row Hin Hex.
  assert (Hne : deref h r <> []) by (intros H0; rewrite H0 in Hex; contradiction).
  unfold Hybrid.recommend in Hrun.
  destruct (negb (Hybrid.is_fitted self)).
  - injection Hrun as <-. contradiction.
  - rewrite (or_new_set_nonempty h r Hne) in Hrun.
    destruct (Hybrid.content_candidates self fresh u n r rated_arg h) as [cb h2] eqn:E.
    assert (Hkeep : In (Hybrid.h_movieId row) (deref h2 r)).
    { unfold Hybrid.content_candidates in E.
      destruct (Hybrid.content_model self) as [cm |].
      - pose proof (recommend_for_user_keeps_members cm fresh u
                      (Hybrid.user_history self u rated_arg) (n * 2) r h _ Hne Hex)
          as Hk.
        now rewrite E in Hk.
      - injection E as _ <-. exact Hex. }
    cbn [fst] in Hrun.
    destruct cb as [cb_recs | e]; cbn [bind] in Hrun; [| discriminate].
    destruct (Hybrid.item_candidates self u n _) as [ib_recs | e];
      cbn [bind] in Hrun; [| discriminate].
    destruct (Hybrid.user_candidates self u n _) as [ub_recs | e];
      cbn [bind] in Hrun; [| discriminate].
    injection Hrun as <-.
    apply py_take_incl in Hin.
    eapply Permutation_in in Hin; [| apply sort_desc_perm].
    apply final_loop_not_excluded in Hin. contradiction.
Qed.

Lemma hybrid_recommend_respects_exclude_witness :
  exists rows,
    fst (Hybrid.recommend hy_two (fun _ => Fin 0) 99 10 (Some 0%nat) None [[1%Z]])
    = Ok rows /\
    map Hybrid.h_movieId rows = [2%Z] /\
    forall row, In row rows -> ~ In (Hybrid.h_movieId row) (deref [[1%Z]] 0%nat).
Proof.
  assert (Hrun : exists rows,
            fst (Hybrid.recommend hy_two (fun _ => Fin 0) 99 10 (Some 0%nat) None
                   [[1%Z]]) = Ok rows /\
            map Hybrid.h_movieId rows = [2%Z]).
  { eexists. split.
    - unfold Hybrid.recommend. cbn -[ItemBased.fit]. rewrite fit_ib_two.
      cbn. unfold sort_desc, Hybrid.final_score. cbn. rdecide. cbn. reflexivity.
    - reflexivity. }
  destruct Hrun as [rows [Hrows Hids]].
  exists rows. split; [exact Hrows | split; [exact Hids |]].
  exact (hybrid_recommend_respects_exclude hy_two (fun _ => Fin 0) 99 10 0%nat
           None [[1%Z]] rows Hrows).
Defined.

(* ================================================================== *)
(** * Popularity fallbacks *)

Lemma StronglySorted_filter_keeps {A : Type} (R : A -> A -> Prop) (p : A -> bool)
    (l : list A) :
  StronglySorted R l -> StronglySorted R (filter p l).
Proof.
  induction 1 as [| a l Hs IH Hall]; cbn [filter]; [constructor |].
  destruct (p a); [| exact IH].
  constructor; [exact IH |].
  rewrite Forall_forall in *. intros x Hx. apply filter_In in Hx. now apply Hall.
Qed.

Lemma StronglySorted_map_key {A B : Type} (R : A -> A -> Prop) (Q : B -> B -> Prop)
    (f : A -> B) (l : list A) :
  (forall a b, R a b -> Q (f a) (f b)) ->
  StronglySorted R l -> StronglySorted Q (map f l).
Proof.
  intros HRQ. induction 1 as [| a l Hs IH Hall]; cbn [map]; constructor; [exact IH |].
  rewrite Forall_forall in *. intros y Hy.
  apply in_map_iff in Hy as [x [<- Hx]]. apply HRQ. now apply Hall.
Qed.

Lemma StronglySorted_firstn {A : Type} (R : A -> A -> Prop) (k : nat) (l : list A) :
  StronglySorted R l -> StronglySorted R (firstn k l).
Proof.
  intros Hs. revert k. induction Hs as [| a l Hs IH Hall]; intros [| k];
    cbn [firstn]; try constructor; [apply IH |].
  rewrite Forall_forall in *. intros x Hx. apply Hall.
  rewrite <- (firstn_skipn k l). apply in_or_app. now left.
Qed.

Lemma StronglySorted_py_take {A : Type} (R : A -> A -> Prop) (n : Z) (l : list A) :
  StronglySorted R l -> StronglySorted R (py_take n l).
Proof.
  intros Hs. unfold py_take. destruct (0 <=? n)%Z; now apply StronglySorted_firstn.
Qed.

Lemma popular_items_loop_closed (movie_to_idx : dict Z nat) (n : Z) (exclude : idset) :
  forall (rows : list movie_row) (results : list recommendation),
    popular_items_loop movie_to_idx n exclude rows results
    = results
      ++ firstn (popular_quota (n - Z.of_nat (length results)))
           (map popular_row (filter (eligible movie_to_idx exclude) rows)).
Proof.
  induction rows as [| row rest IH]; intros results;
    cbn [popular_items_loop filter map].
  - now rewrite firstn_nil, app_nil_r.
  - unfold eligible at 1.
    destruct (mem (movieId row) exclude); cbn [negb andb]; [apply IH |].
    destruct (dict_get Z.eqb movie_to_idx (movieId row)); [| apply IH].
    cbn [map]. fold (popular_row row).
    rewrite length_app. cbn [length].
    destruct (Z.of_nat (length results + 1) >=? n)%Z eqn:E.
    + rewrite Z.geb_leb in E. apply Z.leb_le in E.
      unfold popular_quota.
      replace (Z.to_nat (Z.max 1 (n - Z.of_nat (length results)))) with 1%nat by lia.
      reflexivity.
    + rewrite Z.geb_leb in E. apply Z.leb_gt in E.
      rewrite IH, length_app. cbn [length]. unfold popular_quota.
      replace (Z.to_nat (Z.max 1 (n - Z.of_nat (length results))))
        with (S (Z.to_nat (Z.max 1 (n - Z.of_nat (length results + 1))))) by lia.
      cbn [firstn]. now rewrite <- app_assoc.
Qed.

Lemma get_popular_items_closed (df : list movie_row) (movie_to_idx : dict Z nat)
    (n : Z) (exclude : idset) :
  get_popular_items (Some df) movie_to_idx n exclude
  = firstn (popular_quota n)
      (map popular_row
         (filter (eligible movie_to_idx exclude) (sort_desc avgRating df))).
Proof.
  unfold get_popular_items. rewrite popular_items_loop_closed.
  cbn [length app]. now rewrite Z.sub_0_r.
Qed.

Lemma firstn_In {A : Type} (k : nat) (l : list A) (x : A) :
  In x (firstn k l) -> In x l.
Proof.
  intros H. rewrite <- (firstn_skipn k l). apply in_or_app. now left.
Qed.

Lemma popular_items_not_excluded (movies : option (list movie_row))
    (movie_to_idx : dict Z nat) (n : Z) (exclude : idset) (row : recommendation) :
  In row (get_popular_items movies movie_to_idx n exclude) ->
  ~ In (rec_movieId row) exclude /\
  dict_get Z.eqb movie_to_idx (rec_movieId row) <> None /\
  rec_score row = rec_avgRating row /\
  rec_method row = "popular"%string.
Proof.
  destruct movies as [df |]; [| contradiction].
  rewrite get_popular_items_closed. intros H.
  apply firstn_In, in_map_iff in H as [r [<- Hr]]. apply filter_In in Hr as [_ He].
  unfold eligible in He. apply andb_prop in He as [He1 He2].
  apply negb_true_iff, mem_false_In in He1. cbn [popular_row rec_movieId].
  repeat split; [exact He1 |].
  destruct (dict_get Z.eqb movie_to_idx (movieId r)); discriminate.
Qed.

Lemma popular_items_sorted (movies : option (list movie_row))
    (movie_to_idx : dict Z nat) (n : Z) (exclude : idset) :
  StronglySorted (desc rec_score) (get_popular_items movies movie_to_idx n exclude).
Proof.
  destruct movies as [df |]; [| constructor].
  rewrite get_popular_items_closed.
  apply StronglySorted_firstn.
  apply (StronglySorted_map_key (desc avgRating)); [intros a b H; exact H |].
  apply StronglySorted_filter_keeps, sort_desc_sorted.
Qed.

Lemma popular_items_length (movies : option (list movie_row))
    (movie_to_idx : dict Z nat) (n : Z) (exclude : idset) :
  (Z.of_nat (length (get_popular_items movies movie_to_idx n exclude))
   <= Z.max 1 n)%Z.
Proof.
  destruct movies as [df |]; [| cbn; lia].
  rewrite get_popular_items_closed, length_firstn. unfold popular_quota. lia.
Qed.

(** X8: the popularity fallback of the two collaborative models returns
    known, not excluded movies in descending order of average rating, scored
    by that average; it returns at most [max(1, n)] of them, and exactly one
    when [n <= 1] and an eligible movie exists. *)
Lemma popular_items_ranking :
  forall (movies : option (list movie_row)) (movie_to_idx : dict Z nat) (n : Z)
         (exclude : idset),
    let rows := get_popular_items movies movie_to_idx n exclude in
    (forall row, In row rows ->
       ~ In (rec_movieId row) exclude /\
       dict_get Z.eqb movie_to_idx (rec_movieId row) <> None /\
       rec_score row = rec_avgRating row /\
       rec_method row = "popular"%string) /\
    (Z.of_nat (length rows) <= Z.max 1 n)%Z /\
    StronglySorted (desc rec_score) rows /\
    (forall df row,
       movies = Some df -> In row df -> eligible movie_to_idx exclude row = true ->
       (n <= 1)%Z -> length rows = 1%nat).
Proof.
  intros movies movie_to_idx n exclude rows. subst rows.
  split; [intros row; apply popular_items_not_excluded |].
  split; [apply popular_items_length |].
  split; [apply popular_items_sorted |].
  intros df row -> Hin He Hn.
  rewrite get_popular_items_closed, length_firstn, length_map. unfold popular_quota.
  replace (Z.to_nat (Z.max 1 n)) with 1%nat by lia.
  assert (Hin' : In row (filter (eligible movie_to_idx exclude)
                           (sort_desc avgRating df))).
  { apply filter_In. split; [| exact He].
    eapply Permutation_in; [apply Permutation_sym, sort_desc_perm | exact Hin]. }
  destruct (filter (eligible movie_to_idx exclude) (sort_desc avgRating df));
    [contradiction | cbn [length]; lia].
Qed.

Lemma popular_loop_closed (n : Z) (exclude : idset) :
  forall (rows : list movie_row) (results : list recommendation),
    ContentBased.popular_loop n exclude rows results
    = results
      ++ firstn (popular_quota (n - Z.of_nat (length results)))
           (map popular_row
              (filter (fun row => negb (mem (movieId row) exclude)) rows)).
Proof.
  induction rows as [| row rest IH]; intros results;
    cbn [ContentBased.popular_loop filter map].
  - now rewrite firstn_nil, app_nil_r.
  - destruct (mem (movieId row) exclude); cbn [negb]; [apply IH |].
    cbn [map]. fold (popular_row row).
    rewrite length_app. cbn [length].
    destruct (Z.of_nat (length results + 1) >=? n)%Z eqn:E.
    + rewrite Z.geb_leb in E. apply Z.leb_le in E.
      unfold popular_quota.
      replace (Z.to_nat (Z.max 1 (n - Z.of_nat (length results)))) with 1%nat by lia.
      reflexivity.
    + rewrite Z.geb_leb in E. apply Z.leb_gt in E.
      rewrite IH, length_app. cbn [length]. unfold popular_quota.
      replace (Z.to_nat (Z.max 1 (n - Z.of_nat (length results))))
        with (S (Z.to_nat (Z.max 1 (n - Z.of_nat (length results + 1))))) by lia.
      cbn [firstn]. now rewrite <- app_assoc.
Qed.

Lemma popular_before_trans (a b c : movie_row) :
  popular_before a b -> popular_before b c -> popular_before a c.
Proof.
  unfold popular_before. intros [H1 | [H1 H1']] [H2 | [H2 H2']].
  - left. lia.
  - left. lia.
  - left. lia.
  - right. split; [lia | lra].
Qed.

Lemma insert_popular_test (x y : movie_row) :
  (Rltb (IZR (ratingCount y)) (IZR (ratingCount x))
   || (Reqb (IZR (ratingCount y)) (IZR (ratingCount x))
       && Rleb (avgRating y) (avgRating x)) = true -> popular_before x y) /\
  (Rltb (IZR (ratingCount y)) (IZR (ratingCount x))
   || (Reqb (IZR (ratingCount y)) (IZR (ratingCount x))
       && Rleb (avgRating y) (avgRating x)) = false -> popular_before y x).
Proof.
  unfold popular_before. split; intros H.
  - apply orb_prop in H as [H | H].
    + apply Rltb_spec, lt_IZR in H. now left.
    + apply andb_prop in H as [H1 H2].
      apply Reqb_spec, eq_IZR in H1. apply Rleb_spec in H2. right. split; [lia | lra].
  - apply orb_false_elim in H as [H1 H2].
    assert (Hge : (ratingCount x <= ratingCount y)%Z).
    { destruct (Z_lt_le_dec (ratingCount y) (ratingCount x)) as [Hlt | Hle];
        [| exact Hle].
      apply IZR_lt in Hlt. rewrite (Rltb_true _ _ Hlt) in H1. discriminate. }
    destruct (Z.eq_dec (ratingCount y) (ratingCount x)) as [Heq | Hne].
    + right. split; [exact Heq |].
      rewrite Heq, (Reqb_true _ _ eq_refl) in H2. cbn [andb] in H2.
      destruct (Rle_dec (avgRating y) (avgRating x)) as [Hle | Hgt]; [| lra].
      rewrite (Rleb_true _ _ Hle) in H2. discriminate.
    + left. lia.
Qed.

Lemma insert_popular_perm (x : movie_row) (l : list movie_row) :
  Permutation (ContentBased.insert_popular x l) (x :: l).
Proof.
  induction l as [| y l IH]; cbn [ContentBased.insert_popular]; [reflexivity |].
  destruct (_ || _); [reflexivity |].
  rewrite IH. apply perm_swap.
Qed.

Lemma insert_popular_sorted (x : movie_row) (l : list movie_row) :
  StronglySorted popular_before l ->
  StronglySorted popular_before (ContentBased.insert_popular x l).
Proof.
  induction 1 as [| y l Hs IH Hall]; cbn [ContentBased.insert_popular].
  - repeat constructor.
  - destruct (insert_popular_test x y) as [Hyes Hno].
    destruct (_ || _).
    + specialize (Hyes eq_refl).
      constructor; [now constructor |].
      constructor; [exact Hyes |].
      rewrite Forall_forall in *. intros z Hz.
      eapply popular_before_trans; [exact Hyes | now apply Hall].
    + specialize (Hno eq_refl). constructor; [exact IH |].
      rewrite Forall_forall in *. intros z Hz.
      eapply Permutation_in in Hz; [| apply insert_popular_perm].
      destruct Hz as [<- | Hz]; [exact Hno | now apply Hall].
Qed.

Lemma popular_ranking (df : list movie_row) :
  Permutation (fold_right ContentBased.insert_popular [] df) df /\
  StronglySorted popular_before (fold_right ContentBased.insert_popular [] df).
Proof.
  induction df as [| x df [IHp IHs]]; cbn [fold_right].
  - split; [reflexivity | constructor].
  - split; [| now apply insert_popular_sorted].
    rewrite insert_popular_perm. now constructor.
Qed.

(** X9: the content model's popularity fallback ranks the frame by rating
    count, then by average rating, both descending, skips the excluded
    movies and returns the first [max(1, n)] of the rest. *)
Lemma content_popular_ranking :
  forall (self : ContentBased.model) (n : Z) (exclude : option idset)
         (rows : list recommendation),
    ContentBased.get_popular_movies self n exclude = Ok rows ->
    exists df ranked : list movie_row,
      ContentBased.movies_df self = Some df /\
      Permutation ranked df /\
      StronglySorted popular_before ranked /\
      rows = firstn (popular_quota n)
               (map popular_row
                  (filter (fun row => negb (mem (movieId row) (or_empty exclude)))
                          ranked)) /\
      (forall row, In row rows -> ~ In (rec_movieId row) (or_empty exclude)) /\
      (Z.of_nat (length rows) <= Z.max 1 n)%Z.
Proof.
  intros self n exclude rows Hrun. unfold ContentBased.get_popular_movies in Hrun.
  destruct (ContentBased.movies_df self) as [df |]; [| discriminate].
  cbn [the bind] in Hrun. injection Hrun as <-.
  destruct (popular_ranking df) as [Hperm Hsorted].
  exists df, (fold_right ContentBased.insert_popular [] df).
  rewrite popular_loop_closed. cbn [length app]. rewrite Z.sub_0_r.
  repeat split; try assumption.
  - intros row Hin.
    apply firstn_In, in_map_iff in Hin as [r [<- Hr]]. apply filter_In in Hr as [_ He].
    apply negb_true_iff, mem_false_In in He. exact He.
  - rewrite length_firstn. unfold popular_quota. lia.
Qed.

Lemma content_popular_ranking_witness :
  exists df ranked : list movie_row,
    ContentBased.movies_df cb_two = Some df /\
    Permutation ranked df /\
    StronglySorted popular_before ranked /\
    popular_two = firstn (popular_quota 10)
                    (map popular_row
                       (filter (fun row => negb (mem (movieId row) [])) ranked)) /\
    (forall row, In row popular_two -> ~ In (rec_movieId row) []) /\
    (Z.of_nat (length popular_two) <= Z.max 1 10)%Z.
Proof.
  apply (content_popular_ranking cb_two 10 None popular_two).
  unfold ContentBased.get_popular_movies. cbn. rdecide. cbn. rdecide. reflexivity.
Defined.

(* ================================================================== *)
(** * The answers of [recommend] *)

Lemma to_recommendations_ids (movies : option (list movie_row)) (method : string)
    (predictions : list (Z * R)) :
  map rec_movieId (to_recommendations movies method predictions) = map fst predictions.
Proof.
  unfold to_recommendations. rewrite map_map. apply map_ext. intros p.
  unfold get_movie_info. destruct movies as [df |]; [| reflexivity].
  now destruct (find _ df).
Qed.

Lemma to_recommendations_scores (movies : option (list movie_row)) (method : string)
    (predictions : list (Z * R)) :
  map rec_score (to_recommendations movies method predictions) = map snd predictions.
Proof. unfold to_recommendations. now rewrite map_map. Qed.

Lemma to_recommendations_sorted (movies : option (list movie_row)) (method : string)
    (predictions : list (Z * R)) :
  StronglySorted (desc snd) predictions ->
  StronglySorted (desc rec_score) (to_recommendations movies method predictions).
Proof.
  unfold to_recommendations.
  apply StronglySorted_map_key. intros a b H. exact H.
Qed.

Lemma item_predictions_loop_ids (self : ItemBased.model) (user_idx : nat)
    (user_ratings : vec) (rated_indices : list nat) (exclude : idset) :
  forall (movie_indices : list nat) (preds : list (Z * R)),
    ItemBased.predictions_loop self user_idx user_ratings rated_indices exclude
      movie_indices = Ok preds ->
    forall p, In p preds -> ~ In (fst p) exclude.
Proof.
  induction movie_indices as [| movie_idx rest IH]; intros preds Hrun p Hp;
    cbn [ItemBased.predictions_loop] in Hrun.
  - injection Hrun as <-. contradiction.
  - destruct (dict_item Nat.eqb (ItemBased.idx_to_movie self) movie_idx)
      as [movie_id | e]; cbn [bind] in Hrun; [| discriminate].
    destruct (mem movie_id exclude) eqn:Emem; [now apply (IH preds) |].
    destruct (ItemBased.predict_for_idx self user_idx movie_idx user_ratings
                rated_indices) as [pred | e]; cbn [bind] in Hrun; [| discriminate].
    destruct (ItemBased.predictions_loop self user_idx user_ratings rated_indices
                exclude rest) as [preds' | e]; cbn [bind] in Hrun; [| discriminate].
    injection Hrun as <-.
    destruct pred as [x |]; [| now apply (IH preds')].
    destruct Hp as [<- | Hp]; [| now apply (IH preds')].
    cbn [fst]. now apply mem_false_In.
Qed.

(** The movie ids of the positions a user rated, as [recommend] collects
    them. *)
Lemma rated_ids_complete (idx_to_movie : dict nat Z) :
  forall (l : list nat) (ms : list Z),
    (fix ids (l : list nat) : res (list Z) :=
       match l with
       | [] => Ok []
       | i :: l' =>
           m <- dict_item Nat.eqb idx_to_movie i ;;
           ms <- ids l' ;;
           Ok (m :: ms)
       end) l = Ok ms ->
    forall j m, In j l -> dict_get Nat.eqb idx_to_movie j = Some m -> In m ms.
Proof.
  induction l as [| i l IH]; intros ms Hrun j m Hj Hm; [contradiction |].
  unfold dict_item in Hrun at 1.
  destruct (dict_get Nat.eqb idx_to_movie i) as [mi |] eqn:Ei;
    cbn [bind] in Hrun; [| discriminate].
  match type of Hrun with
  | bind ?c _ = _ => destruct c as [ms' |] eqn:Erest
  end; cbn [bind] in Hrun; [| discriminate].
  injection Hrun as <-.
  destruct Hj as [<- | Hj].
  - left. congruence.
  - right. now apply (IH ms' eq_refl j m).
Qed.

Lemma where_pos_In (v : vec) (j : nat) :
  In j (where_pos v) <-> (j < length v)%nat /\ 0 < nth j v 0.
Proof.
  rewrite where_pos_filter, filter_In, in_seq, Rltb_spec. intuition lia.
Qed.

(** X10: the item-based [recommend] never returns a movie of the [exclude]
    set or one the user already rated; its rows are in descending order of
    score, and for [n >= 1] there are at most [n] of them. *)
Lemma item_recommend_rows :
  forall (self : ItemBased.model) (u n : Z) (exclude : option idset)
         (rows : list recommendation),
    ItemBased.recommend self u n exclude = Ok rows ->
    (forall row, In row rows -> ~ In (rec_movieId row) (or_empty exclude)) /\
    (forall user_idx M user_ratings j m,
       dict_get Z.eqb (ItemBased.user_to_idx self) u = Some user_idx ->
       ItemBased.user_item_matrix self = Some M ->
       nth_error M user_idx = Some user_ratings ->
       (j < length user_ratings)%nat -> 0 < nth j user_ratings 0 ->
       dict_get Nat.eqb (ItemBased.idx_to_movie self) j = Some m ->
       ~ In m (map rec_movieId rows)) /\
    StronglySorted (desc rec_score) rows /\
    ((1 <= n)%Z -> (Z.of_nat (length rows) <= n)%Z).
Proof.
  intros self u n exclude rows Hrun. unfold ItemBased.recommend in Hrun.
  destruct (negb (ItemBased.is_fitted self)).
  { injection Hrun as <-. repeat split; try contradiction; try constructor.
    - intros; cbn; tauto.
    - cbn; lia. }
  destruct (dict_get Z.eqb (ItemBased.user_to_idx self) u) as [user_idx |] eqn:Eu.
  2:{ injection Hrun as <-. repeat split.
      - intros row Hin. now apply popular_items_not_excluded in Hin.
      - intros; discriminate.
      - apply popular_items_sorted.
      - pose proof (popular_items_length (ItemBased.movies_df self)
                      (ItemBased.movie_to_idx self) n (or_empty exclude)). lia. }
  destruct (the (ItemBased.user_item_matrix self)) as [M | e] eqn:EM;
    cbn [bind] in Hrun; [| discriminate].
  destruct (getitem M user_idx) as [user_ratings | e] eqn:Erow;
    cbn [bind] in Hrun; [| discriminate].
  match type of Hrun with
  | bind ?c _ = _ => destruct c as [rated_movie_ids | e] eqn:Eids
  end; cbn [bind] in Hrun; [| discriminate].
  destruct (ItemBased.predictions_loop self user_idx user_ratings
              (where_pos user_ratings)
              (set_union (or_empty exclude) rated_movie_ids)
              (seq 0 (length (ItemBased.movie_ids self))))
    as [predictions | e] eqn:Epred; cbn [bind] in Hrun; [| discriminate].
  injection Hrun as <-.
  assert (Hids : forall m, In m (map rec_movieId
                                   (to_recommendations (ItemBased.movies_df self)
                                      "item_based"
                                      (py_take n (sort_desc snd predictions)))) ->
                           ~ In m (set_union (or_empty exclude) rated_movie_ids)).
  { intros m Hm. rewrite to_recommendations_ids in Hm.
    apply in_map_iff in Hm as [p [<- Hp]].
    apply py_take_incl in Hp.
    eapply Permutation_in in Hp; [| apply sort_desc_perm].
    exact (item_predictions_loop_ids self _ _ _ _ _ _ Epred p Hp). }
  repeat split.
  - intros row Hin Hex. apply (Hids (rec_movieId row)); [now apply in_map |].
    apply set_union_In. now left.
  - intros user_idx' M' user_ratings' j m Hu HM Hrow Hj Hpos Hm Hin.
    injection Hu as <-.
    destruct (ItemBased.user_item_matrix self) as [M0 |]; [| discriminate].
    injection HM as <-. cbn [the] in EM. injection EM as <-.
    unfold getitem in Erow. rewrite Hrow in Erow. injection Erow as <-.
    apply (Hids m Hin). apply set_union_In. right.
    apply (rated_ids_complete _ _ _ Eids j m); [| exact Hm].
    apply where_pos_In. split; assumption.
  - apply to_recommendations_sorted, StronglySorted_py_take, sort_desc_sorted.
  - intros Hn. unfold to_recommendations. rewrite length_map.
    apply py_take_length. lia.
Qed.

Lemma recommend_3_in_ib_ab :
  ItemBased.recommend ib_ab 3 10 None
  = Ok [ {| rec_movieId := 2; rec_title := "Movie 2"; rec_genres := [];
            rec_avgRating := 0; rec_score := 3;
            rec_method := "item_based" |} ].
Proof.
  unfold ItemBased.recommend. cbn. rdecide. cbn. rdecide. cbn.
  unfold ItemBased.weighted_average. cbn. rdecide. cbn.
  unfold sort_desc, py_take. cbn.
  change (Pos.to_nat 10) with 10%nat. cbn [firstn map fst snd].
  change (string_of_Z 2) with "2"%string.
  do 3 f_equal. lra.
Qed.

Lemma item_recommend_rows_witness :
  exists rows,
    ItemBased.recommend ib_ab 3 10 None = Ok rows /\
    ~ In 1%Z (map rec_movieId rows).
Proof.
  eexists. split; [exact recommend_3_in_ib_ab |].
  refine (proj1 (proj2 (item_recommend_rows ib_ab 3 10 None _ recommend_3_in_ib_ab))
            2%nat [[5; 4]; [1; 2]; [3; 0]] [3; 0] 0%nat 1%Z
            eq_refl eq_refl eq_refl _ _ eq_refl).
  - cbn. lia.
  - cbn. lra.
Defined.

Lemma user_predictions_loop_rows (self : UserBased.model) (M : matrix)
    (user_idx : nat) (similar_indices : list nat) (similarities : vec)
    (exclude : idset) :
  forall (movie_indices : list nat) (preds : list (Z * R)),
    UserBased.predictions_loop self M user_idx similar_indices similarities exclude
      movie_indices = Ok preds ->
    forall p, In p preds -> ~ In (fst p) exclude /\ valid_rating (snd p).
Proof.
  induction movie_indices as [| movie_idx rest IH]; intros preds Hrun p Hp;
    cbn [UserBased.predictions_loop] in Hrun.
  - injection Hrun as <-. contradiction.
  - destruct (dict_item Nat.eqb (UserBased.idx_to_movie self) movie_idx)
      as [movie_id | e]; cbn [bind] in Hrun; [| discriminate].
    destruct (mem movie_id exclude) eqn:Emem; [now apply (IH preds) |].
    destruct (take_items M similar_indices) as [rows | e];
      cbn [bind] in Hrun; [| discriminate].
    destruct (column rows movie_idx) as [neighbor_ratings | e];
      cbn [bind] in Hrun; [| discriminate].
    destruct (negb (existsb (fun b : bool => b) (map (Rltb 0) neighbor_ratings)));
      [now apply (IH preds) |].
    destruct (the (UserBased.user_means self)) as [means | e];
      cbn [bind] in Hrun; [| discriminate].
    destruct (take_items means _) as [neighbor_means | e];
      cbn [bind] in Hrun; [| discriminate].
    destruct (getitem means user_idx) as [user_mean | e];
      cbn [bind] in Hrun; [| discriminate].
    destruct (UserBased.predictions_loop self M user_idx similar_indices
                similarities exclude rest) as [preds' | e];
      cbn [bind] in Hrun; [| discriminate].
    injection Hrun as <-.
    destruct Hp as [<- | Hp]; [| now apply (IH preds')].
    cbn [fst snd]. split; [now apply mem_false_In |].
    unfold valid_rating, UserBased.deviation_prediction. apply clip_bounds. lra.
Qed.

Lemma to_recommendations_In (movies : option (list movie_row)) (method : string)
    (predictions : list (Z * R)) (row : recommendation) :
  In row (to_recommendations movies method predictions) ->
  rec_method row = method /\ In (rec_movieId row, rec_score row) predictions.
Proof.
  unfold to_recommendations. intros H. apply in_map_iff in H as [[m x] [<- Hp]].
  cbn [rec_method rec_movieId rec_score fst snd]. split; [reflexivity |].
  replace (movieId (get_movie_info movies m)) with m; [exact Hp |].
  unfold get_movie_info. destruct movies as [df |]; [| reflexivity].
  now destruct (find _ df).
Qed.

(** X11: the user-based [recommend] never returns a movie of the [exclude]
    set or one the user already rated; its rows are in descending order of
    score, a row it predicted itself (method [user_based]) has a score in
    [0.5, 5.0], and for [n >= 1] there are at most [n] rows. *)
Lemma user_recommend_rows :
  forall (self : UserBased.model) (u n : Z) (exclude : option idset)
         (rows : list recommendation),
    UserBased.recommend self u n exclude = Ok rows ->
    (forall row, In row rows -> ~ In (rec_movieId row) (or_empty exclude)) /\
    (forall user_idx M user_ratings j m,
       dict_get Z.eqb (UserBased.user_to_idx self) u = Some user_idx ->
       UserBased.user_item_matrix self = Some M ->
       nth_error M user_idx = Some user_ratings ->
       (j < length user_ratings)%nat -> 0 < nth j user_ratings 0 ->
       dict_get Nat.eqb (UserBased.idx_to_movie self) j = Some m ->
       ~ In m (map rec_movieId rows)) /\
    StronglySorted (desc rec_score) rows /\
    (forall row, In row rows -> rec_method row = "user_based"%string ->
                 valid_rating (rec_score row)) /\
    ((1 <= n)%Z -> (Z.of_nat (length rows) <= n)%Z).
Proof.
  intros self u n exclude rows Hrun. unfold UserBased.recommend in Hrun.
  destruct (negb (UserBased.is_fitted self)).
  { injection Hrun as <-. refine (conj _ (conj _ (conj _ (conj _ _)))).
    - intros; contradiction.
    - intros; cbn; tauto.
    - constructor.
    - intros; contradiction.
    - cbn; lia. }
  destruct (dict_get Z.eqb (UserBased.user_to_idx self) u) as [user_idx |] eqn:Eu.
  2:{ injection Hrun as <-. refine (conj _ (conj _ (conj _ (conj _ _)))).
      - intros r Hin. now apply popular_items_not_excluded in Hin.
      - intros; discriminate.
      - apply popular_items_sorted.
      - intros r Hin Hm. apply popular_items_not_excluded in Hin.
        destruct Hin as [_ [_ [_ Hpop]]]. rewrite Hpop in Hm. discriminate.
      - pose proof (popular_items_length (UserBased.movies_df self)
                      (UserBased.movie_to_idx self) n (or_empty exclude)). lia. }
  destruct (the (UserBased.user_item_matrix self)) as [M | e] eqn:EM;
    cbn [bind] in Hrun; [| discriminate].
  destruct (getitem M user_idx) as [user_ratings | e] eqn:Erow;
    cbn [bind] in Hrun; [| discriminate].
  match type of Hrun with
  | bind ?c _ = _ => destruct c as [rated_movie_ids | e] eqn:Eids
  end; cbn [bind] in Hrun; [| discriminate].
  assert (Hrated : forall user_idx' M' user_ratings' j m,
             Some user_idx = Some user_idx' ->
             UserBased.user_item_matrix self = Some M' ->
             nth_error M' user_idx' = Some user_ratings' ->
             (j < length user_ratings')%nat -> 0 < nth j user_ratings' 0 ->
             dict_get Nat.eqb (UserBased.idx_to_movie self) j = Some m ->
             In m (set_union (or_empty exclude) rated_movie_ids)).
  { intros user_idx' M' user_ratings' j m Hu HM Hrow Hj Hpos Hm.
    injection Hu as <-.
    destruct (UserBased.user_item_matrix self) as [M0 |]; [| discriminate].
    injection HM as <-. cbn [the] in EM. injection EM as <-.
    unfold getitem in Erow. rewrite Hrow in Erow. injection Erow as <-.
    apply set_union_In. right.
    apply (rated_ids_complete _ _ _ Eids j m); [| exact Hm].
    apply where_pos_In. split; assumption. }
  destruct (the (UserBased.user_similarity self)) as [S | e];
    cbn [bind] in Hrun; [| discriminate].
  destruct (getitem S user_idx) as [sims | e]; cbn [bind] in Hrun; [| discriminate].
  destruct (negb (existsb (fun b : bool => b) _)).
  { injection Hrun as <-. refine (conj _ (conj _ (conj _ (conj _ _)))).
    - intros r Hin Hex. apply popular_items_not_excluded in Hin.
      destruct Hin as [Hin _]. apply Hin, set_union_In. now left.
    - intros user_idx' M' user_ratings' j m Hu HM Hrow Hj Hpos Hm Hin.
      apply in_map_iff in Hin as [r [<- Hr]].
      apply popular_items_not_excluded in Hr. destruct Hr as [Hr _].
      apply Hr. exact (Hrated _ _ _ _ _ Hu HM Hrow Hj Hpos Hm).
    - apply popular_items_sorted.
    - intros r Hin Hm. apply popular_items_not_excluded in Hin.
      destruct Hin as [_ [_ [_ Hpop]]]. rewrite Hpop in Hm. discriminate.
    - match goal with
      | |- _ -> (Z.of_nat (length (get_popular_items ?a ?b ?c ?d)) <= _)%Z =>
          pose proof (popular_items_length a b c d)
      end. lia. }
  match type of Hrun with
  | bind ?c _ = _ => destruct c as [predictions | e] eqn:Epred
  end; cbn [bind] in Hrun; [| discriminate].
  injection Hrun as <-.
  assert (Hrows : forall r,
             In r (to_recommendations (UserBased.movies_df self) "user_based"
                     (py_take n (sort_desc snd predictions))) ->
             ~ In (rec_movieId r) (set_union (or_empty exclude) rated_movie_ids) /\
             valid_rating (rec_score r)).
  { intros r Hr. apply to_recommendations_In in Hr as [_ Hp].
    apply py_take_incl in Hp.
    eapply Permutation_in in Hp; [| apply sort_desc_perm].
    exact (user_predictions_loop_rows self _ _ _ _ _ _ _ Epred _ Hp). }
  refine (conj _ (conj _ (conj _ (conj _ _)))).
  - intros r Hin Hex. apply (proj1 (Hrows r Hin)), set_union_In. now left.
  - intros user_idx' M' user_ratings' j m Hu HM Hrow Hj Hpos Hm Hin.
    apply in_map_iff in Hin as [r [<- Hr]].
    apply (proj1 (Hrows r Hr)). exact (Hrated _ _ _ _ _ Hu HM Hrow Hj Hpos Hm).
  - apply to_recommendations_sorted, StronglySorted_py_take, sort_desc_sorted.
  - intros r Hin _. exact (proj2 (Hrows r Hin)).
  - intros Hn. unfold to_recommendations. rewrite length_map.
    apply py_take_length. lia.
Qed.

Lemma user_recommend_rows_witness :
  exists rows,
    UserBased.recommend (ub_three 3) 1 10 None = Ok rows /\
    ~ In 10%Z (map rec_movieId rows).
Proof.
  assert (Hrun : exists rows, UserBased.recommend (ub_three 3) 1 10 None = Ok rows).
  { eexists. unfold UserBased.recommend. cbn. rdecide. cbn.
    change (Pos.to_nat 20) with 20%nat. cbn. rdecide. cbn. rdecide. cbn.
    reflexivity. }
  destruct Hrun as [rows Hrun]. exists rows. split; [exact Hrun |].
  refine (proj1 (proj2 (user_recommend_rows (ub_three 3) 1 10 None rows Hrun))
            0%nat [[5; 1; 0]; [4; 0; 2]] [5; 1; 0] 0%nat 10%Z
            eq_refl eq_refl eq_refl _ _ eq_refl).
  - cbn. lia.
  - cbn. lra.
Defined.

Lemma content_recommend_loop_rows (self : ContentBased.model) (scores : vec) (n : Z)
    (exclude : idset) :
  forall (indices : list nat) (results out : list recommendation),
    ContentBased.recommend_loop self scores n exclude indices results = Ok out ->
    StronglySorted (fun i j => nth j scores 0 <= nth i scores 0) indices ->
    (forall r, In r results ->
               ~ In (rec_movieId r) exclude /\
               rec_method r = "content_based"%string) ->
    StronglySorted (desc rec_score) results ->
    (forall r i, In r results -> In i indices -> nth i scores 0 <= rec_score r) ->
    ((0 <= n)%Z -> (Z.of_nat (length results) <= n)%Z) ->
    (forall r, In r out ->
               ~ In (rec_movieId r) exclude /\
               rec_method r = "content_based"%string) /\
    StronglySorted (desc rec_score) out /\
    ((0 <= n)%Z -> (Z.of_nat (length out) <= n)%Z).
Proof.
  induction indices as [| idx rest IH];
    intros results out Hrun Hidx Hres Hsorted Hge Hlen;
    cbn [ContentBased.recommend_loop] in Hrun.
  - injection Hrun as <-. auto.
  - destruct (Z.of_nat (length results) >=? n)%Z eqn:E.
    { injection Hrun as <-. auto. }
    rewrite Z.geb_leb in E. apply Z.leb_gt in E.
    inversion Hidx as [| ? ? Hrest Hhead]; subst.
    destruct (dict_item Nat.eqb (ContentBased.idx_to_movie_id self) idx)
      as [movie_id | e]; cbn [bind] in Hrun; [| discriminate].
    destruct (mem movie_id exclude) eqn:Emem.
    { apply (IH results out Hrun Hrest Hres Hsorted); [| exact Hlen].
      intros r i Hr Hi. apply Hge; [exact Hr | now right]. }
    destruct (the (ContentBased.movies_df self)) as [df | e];
      cbn [bind] in Hrun; [| discriminate].
    destruct (getitem df idx) as [movie_data | e]; cbn [bind] in Hrun; [| discriminate].
    apply (IH _ out Hrun Hrest).
    + intros r Hr. apply in_app_or in Hr as [Hr | [<- | []]]; [now apply Hres |].
      cbn [rec_movieId rec_method]. split; [now apply mem_false_In | reflexivity].
    + apply StronglySorted_app_intro; [exact Hsorted | repeat constructor |].
      intros x y Hx [<- | []]. unfold desc. cbn [rec_score].
      apply Hge; [exact Hx | now left].
    + intros r i Hr Hi. apply in_app_or in Hr as [Hr | [<- | []]].
      * apply Hge; [exact Hr | now right].
      * cbn [rec_score]. rewrite Forall_forall in Hhead. now apply Hhead.
    + intros _. rewrite length_app. cbn [length]. lia.
Qed.

Lemma rev_argsort_sorted (v : vec) :
  StronglySorted (fun i j => nth j v 0 <= nth i v 0) (rev (argsort v)).
Proof. exact (StronglySorted_rev (asc v) (argsort v) (argsort_sorted v)). Qed.

Lemma or_new_set_members (exclude : option ref) (h h1 : heap) (r : ref) :
  or_new_set exclude h = (r, h1) ->
  (r < length h1)%nat /\
  forall r0 x, exclude = Some r0 -> In x (deref h r0) -> In x (deref h1 r).
Proof.
  unfold or_new_set, alloc. intros H.
  destruct exclude as [r0 |].
  - destruct (deref h r0) as [| y s] eqn:E.
    + injection H as <- <-. split; [rewrite length_app; cbn; lia |].
      intros r1 x Hr1 Hx. injection Hr1 as <-. rewrite E in Hx. contradiction.
    + injection H as <- <-. split.
      * apply deref_nonempty_lt. rewrite E. discriminate.
      * intros r1 x Hr1 Hx. now injection Hr1 as <-.
  - injection H as <- <-. split; [rewrite length_app; cbn; lia |].
    intros; discriminate.
Qed.

(** X12: for a user with a history, the content model's [recommend_for_user]
    never returns a movie of the history or of the [exclude] set; its rows
    are in descending order of score, and for [n >= 0] there are at most [n]
    of them. *)
Lemma content_recommend_rows :
  forall (self : ContentBased.model) (fresh : nat -> cell) (u : Z)
         (history : list rated) (n : Z) (exclude : option ref) (h : heap)
         (rows : list recommendation),
    history <> [] ->
    fst (ContentBased.recommend_for_user self fresh u history n exclude h) = Ok rows ->
    (forall row, In row rows ->
       ~ In (rec_movieId row) (map rated_movieId history) /\
       (forall r, exclude = Some r -> ~ In (rec_movieId row) (deref h r)) /\
       rec_method row = "content_based"%string) /\
    StronglySorted (desc rec_score) rows /\
    ((0 <= n)%Z -> (Z.of_nat (length rows) <= n)%Z).
Proof.
  intros self fresh u history n exclude h rows Hne Hrun.
  unfold ContentBased.recommend_for_user in Hrun.
  destruct (negb (ContentBased.is_fitted self)); [discriminate |].
  destruct history as [| r0 rest]; [contradiction |].
  destruct (or_new_set exclude h) as [r h1] eqn:Eset.
  destruct (or_new_set_members _ _ _ _ Eset) as [Hlt Hmem].
  cbn [fst] in Hrun.
  destruct (ContentBased.normalized_scores self fresh (r0 :: rest)) as [scores | e];
    cbn [bind] in Hrun; [| discriminate].
  rewrite deref_store_eq in Hrun by exact Hlt.
  destruct (content_recommend_loop_rows self scores n _ _ [] rows Hrun
              (rev_argsort_sorted scores)) as [Hrows [Hsorted Hlen]];
    try (intros; contradiction); try apply SSorted_nil.
  { intros Hn. cbn [length]. lia. }
  refine (conj _ (conj Hsorted Hlen)).
  intros row Hin. destruct (Hrows row Hin) as [Hex Hm].
  refine (conj _ (conj _ Hm)).
  - intros Hh. apply Hex, set_union_In. now right.
  - intros r1 Hr1 Hx. apply Hex, set_union_In. left. exact (Hmem r1 _ Hr1 Hx).
Qed.

Lemma content_recommend_rows_witness :
  exists rows,
    fst (ContentBased.recommend_for_user cb_two (fun _ => Fin 7) 1
           [Rated 1 (Some 5)] 10 None []) = Ok rows /\
    forall row, In row rows -> ~ In (rec_movieId row) [1%Z].
Proof.
  assert (Hrun : exists rows,
            fst (ContentBased.recommend_for_user cb_two (fun _ => Fin 7) 1
                   [Rated 1 (Some 5)] 10 None []) = Ok rows).
  { eexists. unfold ContentBased.recommend_for_user, ContentBased.normalized_scores.
    cbn. unfold divide_where. cbn. rewrite Rabs_R0, Rabs_R1. rdecide. cbn. rdecide.
    cbn. reflexivity. }
  destruct Hrun as [rows Hrun]. exists rows. split; [exact Hrun |].
  intros row Hin.
  refine (proj1 (proj1 (content_recommend_rows cb_two (fun _ => Fin 7) 1
                          [Rated 1 (Some 5)] 10 None [] rows _ Hrun) row Hin)).
  discriminate.
Defined.

(* ================================================================== *)
(** * The answers of the neighbour queries *)

Lemma sorted_by_keys {A : Type} (key : A -> R) (f : nat -> R) :
  forall (out : list A) (indices : list nat),
    map key out = map f indices ->
    StronglySorted (fun i j => f j <= f i) indices ->
    StronglySorted (desc key) out.
Proof.
  induction out as [| a out IH]; intros indices Heq Hs; [constructor |].
  destruct indices as [| i indices]; [discriminate |].
  cbn [map] in Heq. injection Heq as Ha Hout.
  inversion Hs as [| ? ? Hrest Hhead]; subst.
  constructor; [now apply (IH indices) |].
  rewrite Forall_forall in *. intros b Hb. unfold desc. rewrite Ha.
  assert (Hkb : In (key b) (map f indices)).
  { rewrite <- Hout. now apply in_map. }
  apply in_map_iff in Hkb as [j [<- Hj]]. now apply Hhead.
Qed.

Lemma user_similar_loop_keys (self : UserBased.model) (similarities : vec) :
  forall (indices : list nat) (out : list (Z * R)),
    UserBased.similar_loop self similarities indices = Ok out ->
    map snd out = map (fun i => nth i similarities 0) indices.
Proof.
  induction indices as [| i rest IH]; intros out Hrun;
    cbn [UserBased.similar_loop] in Hrun.
  - now injection Hrun as <-.
  - destruct (dict_item Nat.eqb (UserBased.idx_to_user self) i) as [uid | e];
      cbn [bind] in Hrun; [| discriminate].
    destruct (UserBased.similar_loop self similarities rest) as [results | e];
      cbn [bind] in Hrun; [| discriminate].
    injection Hrun as <-. cbn [map snd]. f_equal. now apply IH.
Qed.

Lemma item_similar_loop_keys (self : ItemBased.model) (similarities : vec) :
  forall (indices : list nat) (out : list similar),
    ItemBased.similar_loop self similarities indices = Ok out ->
    map similarity out = map (fun i => nth i similarities 0) indices.
Proof.
  induction indices as [| i rest IH]; intros out Hrun;
    cbn [ItemBased.similar_loop] in Hrun.
  - now injection Hrun as <-.
  - destruct (dict_item Nat.eqb (ItemBased.idx_to_movie self) i) as [mid | e];
      cbn [bind] in Hrun; [| discriminate].
    destruct (ItemBased.similar_loop self similarities rest) as [results | e];
      cbn [bind] in Hrun; [| discriminate].
    injection Hrun as <-. cbn [map similarity]. f_equal. now apply IH.
Qed.

(** One row of the answer per position, with the id the index dictionary
    holds for the position and the similarity the row holds there. *)
Lemma user_similar_loop_rows (self : UserBased.model) (similarities : vec) :
  forall (indices : list nat) (out : list (Z * R)),
    UserBased.similar_loop self similarities indices = Ok out ->
    Forall2 (fun p o =>
               dict_get Nat.eqb (UserBased.idx_to_user self) p = Some (fst o) /\
               snd o = nth p similarities 0)
            indices out.
Proof.
  induction indices as [| i rest IH]; intros out Hrun;
    cbn [UserBased.similar_loop] in Hrun.
  - injection Hrun as <-. constructor.
  - unfold dict_item in Hrun.
    destruct (dict_get Nat.eqb (UserBased.idx_to_user self) i) as [uid |] eqn:Eid;
      cbn [bind] in Hrun; [| discriminate].
    destruct (UserBased.similar_loop self similarities rest) as [results | e];
      cbn [bind] in Hrun; [| discriminate].
    injection Hrun as <-. constructor; [now split | now apply IH].
Qed.

Lemma item_similar_loop_rows (self : ItemBased.model) (similarities : vec) :
  forall (indices : list nat) (out : list similar),
    ItemBased.similar_loop self similarities indices = Ok out ->
    Forall2 (fun p o =>
               dict_get Nat.eqb (ItemBased.idx_to_movie self) p
               = Some (sim_movieId o) /\
               similarity o = nth p similarities 0)
            indices out.
Proof.
  induction indices as [| i rest IH]; intros out Hrun;
    cbn [ItemBased.similar_loop] in Hrun.
  - injection Hrun as <-. constructor.
  - unfold dict_item in Hrun.
    destruct (dict_get Nat.eqb (ItemBased.idx_to_movie self) i) as [mid |] eqn:Eid;
      cbn [bind] in Hrun; [| discriminate].
    destruct (ItemBased.similar_loop self similarities rest) as [results | e];
      cbn [bind] in Hrun; [| discriminate].
    injection Hrun as <-. constructor; [| now apply IH].
    cbn [sim_movieId similarity]. split; [| reflexivity].
    rewrite Eid. f_equal. unfold get_movie_info.
    destruct (ItemBased.movies_df self) as [df |]; [| reflexivity].
    now destruct (find _ df).
Qed.

Lemma py_take_top_length (n : Z) (v : vec) :
  (0 <= n)%Z ->
  length (py_take n (rev (argsort v))) = Nat.min (Z.to_nat n) (length v).
Proof.
  intros Hn. unfold py_take. apply Z.leb_le in Hn. rewrite Hn.
  rewrite length_firstn, length_rev.
  now rewrite (Permutation_length (argsort_perm v)), length_seq.
Qed.

(** The positions [np.argsort(row)[::-1][:n]] selects: [min(n, N)] distinct
    positions of the row, all of them once [n] reaches the length [N]. *)
Lemma answered_positions (n : Z) (row : vec) :
  (0 <= n)%Z ->
  let positions := py_take n (rev (argsort row)) in
  NoDup positions /\
  (forall p, In p positions -> (p < length row)%nat) /\
  length positions = Nat.min (Z.to_nat n) (length row) /\
  ((Z.of_nat (length row) <= n)%Z ->
   forall p, (p < length row)%nat -> In p positions).
Proof.
  intros Hn positions.
  assert (Hperm : Permutation (rev (argsort row)) (seq 0 (length row))).
  { apply Permutation_trans with (argsort row);
      [apply Permutation_sym, Permutation_rev | apply argsort_perm]. }
  split; [| split; [| split]].
  - apply py_take_NoDup.
    apply (Permutation_NoDup (Permutation_sym Hperm)), seq_NoDup.
  - intros p Hp. apply py_take_incl in Hp.
    apply (Permutation_in _ Hperm), in_seq in Hp. lia.
  - now apply py_take_top_length.
  - intros Hall p Hp. unfold positions, py_take.
    replace (0 <=? n)%Z with true by (symmetry; now apply Z.leb_le).
    rewrite firstn_all2.
    + apply (Permutation_in _ (Permutation_sym Hperm)), in_seq. lia.
    + rewrite (Permutation_length Hperm), length_seq. lia.
Qed.

(** X13: [get_similar_users] and [get_similar_items] answer in descending
    order of similarity.  For [n >= 0] the answer has one row for each of
    [min(n, N)] distinct positions of the queried row of the similarity
    matrix ([N] its length): the id the index dictionary holds for the
    position, with the similarity the row holds there.  No position is left
    out for being the query's own: once [n >= N] every position of the row is
    answered, the queried one included. *)
Lemma neighbours_ranked :
  (forall (self : UserBased.model) (u n : Z) (out : list (Z * R)),
      UserBased.get_similar_users self u n = Ok out ->
      StronglySorted (desc snd) out /\
      (forall ui S row,
          (0 <= n)%Z ->
          UserBased.is_fitted self = true ->
          dict_get Z.eqb (UserBased.user_to_idx self) u = Some ui ->
          UserBased.user_similarity self = Some S ->
          nth_error S ui = Some row ->
          length out = Nat.min (Z.to_nat n) (length row) /\
          exists positions,
            NoDup positions /\
            Forall2 (fun p o =>
                       dict_get Nat.eqb (UserBased.idx_to_user self) p
                       = Some (fst o) /\
                       snd o = nth p row 0)
                    positions out /\
            ((Z.of_nat (length row) <= n)%Z ->
             forall p, (p < length row)%nat -> In p positions))) /\
  (forall (self : ItemBased.model) (m n : Z) (out : list similar),
      ItemBased.get_similar_items self m n = Ok out ->
      StronglySorted (desc similarity) out /\
      (forall mi S row,
          (0 <= n)%Z ->
          ItemBased.is_fitted self = true ->
          dict_get Z.eqb (ItemBased.movie_to_idx self) m = Some mi ->
          ItemBased.item_similarity self = Some S ->
          nth_error S mi = Some row ->
          length out = Nat.min (Z.to_nat n) (length row) /\
          exists positions,
            NoDup positions /\
            Forall2 (fun p o =>
                       dict_get Nat.eqb (ItemBased.idx_to_movie self) p
                       = Some (sim_movieId o) /\
                       similarity o = nth p row 0)
                    positions out /\
            ((Z.of_nat (length row) <= n)%Z ->
             forall p, (p < length row)%nat -> In p positions))).
Proof.
  split.
  - intros self u n out Hrun. unfold UserBased.get_similar_users in Hrun.
    destruct (UserBased.is_fitted self); cbn [negb] in Hrun.
    2:{ injection Hrun as <-. split; [constructor | intros; discriminate]. }
    destruct (dict_get Z.eqb (UserBased.user_to_idx self) u) as [ui |].
    2:{ injection Hrun as <-. split; [constructor | intros; discriminate]. }
    destruct (UserBased.user_similarity self) as [S |]; cbn [the bind] in Hrun;
      [| discriminate].
    unfold getitem in Hrun.
    destruct (nth_error S ui) as [row |] eqn:Erow; cbn [bind] in Hrun; [| discriminate].
    pose proof (user_similar_loop_keys self row _ out Hrun) as Hkeys.
    split.
    + apply (sorted_by_keys snd (fun i => nth i row 0) out _ Hkeys).
      apply StronglySorted_py_take, rev_argsort_sorted.
    + intros ui' S' row' Hn _ Hu HS Hrow.
      injection Hu as <-. injection HS as <-.
      rewrite Erow in Hrow. injection Hrow as <-.
      destruct (answered_positions n row Hn) as (Hnd & _ & Hlen & Hall).
      split.
      * rewrite <- (length_map snd), Hkeys, length_map. exact Hlen.
      * exists (py_take n (rev (argsort row))).
        split; [exact Hnd |]. split; [| exact Hall].
        now apply user_similar_loop_rows.
  - intros self m n out Hrun. unfold ItemBased.get_similar_items in Hrun.
    destruct (ItemBased.is_fitted self); cbn [negb] in Hrun.
    2:{ injection Hrun as <-. split; [constructor | intros; discriminate]. }
    destruct (dict_get Z.eqb (ItemBased.movie_to_idx self) m) as [mi |].
    2:{ injection Hrun as <-. split; [constructor | intros; discriminate]. }
    destruct (ItemBased.item_similarity self) as [S |]; cbn [the bind] in Hrun;
      [| discriminate].
    unfold getitem in Hrun.
    destruct (nth_error S mi) as [row |] eqn:Erow; cbn [bind] in Hrun; [| discriminate].
    pose proof (item_similar_loop_keys self row _ out Hrun) as Hkeys.
    split.
    + apply (sorted_by_keys similarity (fun i => nth i row 0) out _ Hkeys).
      apply StronglySorted_py_take, rev_argsort_sorted.
    + intros mi' S' row' Hn _ Hm HS Hrow.
      injection Hm as <-. injection HS as <-.
      rewrite Erow in Hrow. injection Hrow as <-.
      destruct (answered_positions n row Hn) as (Hnd & _ & Hlen & Hall).
      split.
      * rewrite <- (length_map similarity), Hkeys, length_map. exact Hlen.
      * exists (py_take n (rev (argsort row))).
        split; [exact Hnd |]. split; [| exact Hall].
        now apply item_similar_loop_rows.
Qed.

Lemma neighbours_ranked_witness :
  exists out,
    UserBased.get_similar_users (ub_three 3) 1 10 = Ok out /\
    StronglySorted (desc snd) out /\
    length out = Nat.min (Z.to_nat 10) (length [0; 1 / 2]) /\
    exists positions,
      NoDup positions /\
      Forall2 (fun p o =>
                 dict_get Nat.eqb (UserBased.idx_to_user (ub_three 3)) p
                 = Some (fst o) /\
                 snd o = nth p [0; 1 / 2] 0)
              positions out /\
      ((Z.of_nat (length [0; 1 / 2]) <= 10)%Z ->
       forall p, (p < length [0; 1 / 2])%nat -> In p positions).
Proof.
  assert (Hrun : exists out, UserBased.get_similar_users (ub_three 3) 1 10 = Ok out).
  { eexists. unfold UserBased.get_similar_users. cbn. rdecide. cbn.
    change (Pos.to_nat 10) with 10%nat. cbn. reflexivity. }
  destruct Hrun as [out Hrun]. exists out. split; [exact Hrun |].
  destruct (proj1 neighbours_ranked (ub_three 3) 1%Z 10%Z out Hrun) as [Hs Hrows].
  split; [exact Hs |].
  apply (Hrows 0%nat [[0; 1 / 2]; [1 / 2; 0]] [0; 1 / 2]); try reflexivity. lia.
Defined.

(* ================================================================== *)
(** * The hybrid's similar movies *)

Lemma merge_similar_keys (from_content : bool)
    (D : dict Z (similar * Hybrid.pair_sims)) (movie : similar) :
  map fst (Hybrid.merge_similar from_content D movie)
  = set_add (map fst D) (sim_movieId movie).
Proof.
  unfold Hybrid.merge_similar.
  destruct (dict_get Z.eqb D (sim_movieId movie)) as [[info sims] |] eqn:E.
  - rewrite E. apply keys_dict_set.
  - rewrite dict_get_set_same, !keys_dict_set. apply set_add_idem.
Qed.

Lemma merge_similar_all_keys (from_content : bool) (movies : list similar) :
  forall D : dict Z (similar * Hybrid.pair_sims),
    map fst (fold_left (Hybrid.merge_similar from_content) movies D)
    = set_union (map fst D) (map sim_movieId movies).
Proof.
  induction movies as [| movie rest IH]; intros D; cbn [fold_left map];
    [reflexivity |].
  rewrite IH, merge_similar_keys. reflexivity.
Qed.

Lemma py_take_map {A B : Type} (f : A -> B) (n : Z) (l : list A) :
  map f (py_take n l) = py_take n (map f l).
Proof.
  unfold py_take. rewrite length_map. destruct (0 <=? n)%Z; symmetry; apply firstn_map.
Qed.

(** X14: the hybrid's [get_similar_movies] lists every movie at most once,
    although both sub-models may have proposed it, in descending order of the
    blended similarity, and at most [n] movies for [n >= 0]. *)
Lemma hybrid_similar_rows :
  forall (self : Hybrid.model) (m n : Z) (out : list similar),
    Hybrid.get_similar_movies self m n = Ok out ->
    NoDup (map sim_movieId out) /\
    StronglySorted (desc similarity) out /\
    ((0 <= n)%Z -> (Z.of_nat (length out) <= n)%Z).
Proof.
  intros self m n out Hrun. unfold Hybrid.get_similar_movies in Hrun.
  destruct (negb (Hybrid.is_fitted self)).
  { injection Hrun as <-. repeat split; try constructor. cbn; lia. }
  match type of Hrun with
  | bind ?c _ = _ => destruct c as [cb_similar | e]
  end; cbn [bind] in Hrun; [| discriminate].
  match type of Hrun with
  | bind ?c _ = _ => destruct c as [ib_similar | e]
  end; cbn [bind] in Hrun; [| discriminate].
  injection Hrun as <-.
  split; [| split].
  - rewrite py_take_map. apply py_take_NoDup.
    eapply Permutation_NoDup;
      [apply Permutation_map, Permutation_sym, sort_desc_perm |].
    rewrite map_map. cbn [sim_movieId].
    change (fun x : Z * (similar * Hybrid.pair_sims) => fst x)
      with (@fst Z (similar * Hybrid.pair_sims)).
    rewrite !merge_similar_all_keys.
    apply set_union_NoDup, set_union_NoDup. constructor.
  - apply StronglySorted_py_take, sort_desc_sorted.
  - apply py_take_length.
Qed.

Lemma hybrid_similar_rows_witness :
  exists out,
    Hybrid.get_similar_movies hy_two 1 10 = Ok out /\
    NoDup (map sim_movieId out) /\
    (Z.of_nat (length out) <= 10)%Z.
Proof.
  assert (Hrun : exists out, Hybrid.get_similar_movies hy_two 1 10 = Ok out).
  { eexists. unfold Hybrid.get_similar_movies. cbn -[ItemBased.fit].
    rewrite fit_ib_two. cbn. rdecide. cbn.
    change (Pos.to_nat 20) with 20%nat. cbn. reflexivity. }
  destruct Hrun as [out Hrun]. exists out. split; [exact Hrun |].
  destruct (hybrid_similar_rows hy_two 1 10 out Hrun) as [Hnd [_ Hlen]].
  split; [exact Hnd | apply Hlen; lia].
Defined.

(* ================================================================== *)
(** * The user-item matrix *)

Lemma index_from_enumerate (keys : list Z) :
  forall (idx : nat) (fwd : dict Z nat) (bwd : dict nat Z),
    index_from keys idx fwd = fst (enumerate_into keys idx fwd bwd).
Proof.
  induction keys as [| key keys IH]; intros idx fwd bwd;
    cbn [index_from enumerate_into]; [reflexivity | apply IH].
Qed.

Lemma filter_single_key {K V : Type} (p : K * V -> bool) (e : K * V) :
  forall entries : list (K * V),
    NoDup (map fst entries) -> In e entries ->
    (forall e', In e' entries -> (p e' = true <-> fst e' = fst e)) ->
    filter p entries = [e].
Proof.
  induction entries as [| e0 rest IH]; intros Hnd Hin Hp; [contradiction |].
  cbn [map] in Hnd. apply NoDup_cons_iff in Hnd as [Hfresh Hnd]. cbn [filter].
  destruct Hin as [-> | Hin].
  - rewrite (proj2 (Hp e (or_introl eq_refl)) eq_refl). f_equal.
    assert (Hnone : forall l, (forall e', In e' l -> p e' = false) -> filter p l = []).
    { induction l as [| a l IHl]; intros H; [reflexivity |]. cbn [filter].
      rewrite (H a (or_introl eq_refl)). apply IHl. intros e' He'. apply H. now right. }
    apply Hnone. intros e' He'.
    destruct (p e') eqn:E; [| reflexivity]. exfalso. apply Hfresh.
    apply (Hp e' (or_intror He')) in E. rewrite <- E. now apply in_map.
  - assert (Hp0 : p e0 = false).
    { destruct (p e0) eqn:E; [| reflexivity]. exfalso. apply Hfresh.
      apply (Hp e0 (or_introl eq_refl)) in E. rewrite E. now apply in_map. }
    rewrite Hp0. apply IH; [exact Hnd | exact Hin |].
    intros e' He'. apply Hp. now right.
Qed.

Lemma rating_entries_distinct (U V : dict Z nat) (ratings : list rating_row) :
  NoDup (map (fun r => (userId r, r_movieId r)) ratings) ->
  (forall a b, In a (map userId ratings) -> In b (map userId ratings) ->
               dict_get Z.eqb U a = dict_get Z.eqb U b -> a = b) ->
  (forall a b, In a (map r_movieId ratings) -> In b (map r_movieId ratings) ->
               dict_get Z.eqb V a = dict_get Z.eqb V b -> a = b) ->
  NoDup (map fst
           (map (fun r => (dict_get Z.eqb U (userId r),
                           dict_get Z.eqb V (r_movieId r), rating r)) ratings)).
Proof.
  intros Hnd HU HV. rewrite map_map. cbn [fst].
  induction ratings as [| r rest IH]; cbn [map] in *; [constructor |].
  apply NoDup_cons_iff in Hnd as [Hfresh Hnd]. constructor.
  - intros Hin. apply Hfresh. apply in_map_iff in Hin as [r' [Heq Hr']].
    injection Heq as Hu Hv. apply in_map_iff. exists r'. split; [| exact Hr'].
    f_equal.
    + apply HU; [right; now apply in_map | now left | exact Hu].
    + apply HV; [right; now apply in_map | now left | exact Hv].
  - apply IH; [exact Hnd | |]; intros a b Ha Hb; [apply HU | apply HV]; now right.
Qed.

Lemma entry_toarray (n_rows n_cols : nat)
    (entries : list (option nat * option nat * R)) (u i : nat) :
  (u < n_rows)%nat -> (i < n_cols)%nat ->
  entry (toarray n_rows n_cols entries) u i
  = sum (map snd
           (filter (fun e => match fst (fst e), snd (fst e) with
                             | Some r, Some c => Nat.eqb r u && Nat.eqb c i
                             | _, _ => false
                             end) entries)).
Proof.
  intros Hu Hi. unfold entry, toarray.
  rewrite (nth_map_in _ (seq 0 n_rows) u O []) by (now rewrite length_seq).
  rewrite (nth_map_in _ (seq 0 n_cols) i O 0) by (now rewrite length_seq).
  now rewrite !seq_nth.
Qed.

(** The user-item matrix built under the index mappings that enumerate the
    sorted ids, on whatever dictionaries the enumeration starts from. *)
Lemma rating_matrix_entry (ratings : list rating_row)
    (fu fv : dict Z nat) (bu bv : dict nat Z) :
  let users := sorted_unique (map userId ratings) in
  let items := sorted_unique (map r_movieId ratings) in
  let U := fst (enumerate_into users 0 fu bu) in
  let V := fst (enumerate_into items 0 fv bv) in
  NoDup (map (fun r => (userId r, r_movieId r)) ratings) ->
  forall r, In r ratings ->
    exists ui mi,
      nth_error users ui = Some (userId r) /\
      nth_error items mi = Some (r_movieId r) /\
      dict_get Z.eqb U (userId r) = Some ui /\
      dict_get Z.eqb V (r_movieId r) = Some mi /\
      entry (rating_matrix U V (length users) (length items) ratings) ui mi
      = rating r.
Proof.
  intros users items U V Hnd r Hr.
  assert (HinU : In (userId r) users) by (apply sorted_unique_In; now apply in_map).
  assert (HinV : In (r_movieId r) items) by (apply sorted_unique_In; now apply in_map).
  destruct (In_nth _ _ 0%Z HinU) as [ui [Hui Hnu]].
  destruct (In_nth _ _ 0%Z HinV) as [mi [Hmi Hnv]].
  assert (HU : dict_get Z.eqb U (userId r) = Some ui).
  { rewrite <- Hnu. unfold U.
    now rewrite (enumerate_into_get users (sorted_unique_NoDup _) 0 fu bu ui Hui). }
  assert (HV : dict_get Z.eqb V (r_movieId r) = Some mi).
  { rewrite <- Hnv. unfold V.
    now rewrite (enumerate_into_get items (sorted_unique_NoDup _) 0 fv bv mi Hmi). }
  exists ui, mi. repeat split; try assumption.
  - rewrite <- Hnu. now apply nth_error_nth'.
  - rewrite <- Hnv. now apply nth_error_nth'.
  - unfold rating_matrix. rewrite entry_toarray by assumption.
    rewrite (filter_single_key _ (Some ui, Some mi, rating r)).
    + unfold sum. cbn. lra.
    + apply rating_entries_distinct; [exact Hnd | |]; intros a b Ha Hb Heq.
      * apply (enumerate_into_injective users 0 fu bu a b);
          [apply sorted_unique_NoDup | | | exact Heq]; now apply sorted_unique_In.
      * apply (enumerate_into_injective items 0 fv bv a b);
          [apply sorted_unique_NoDup | | | exact Heq]; now apply sorted_unique_In.
    + apply in_map_iff. exists r. split; [| exact Hr]. now rewrite HU, HV.
    + intros [[ou oi] x] He'. cbn [fst snd]. split.
      * destruct ou as [a |]; [| discriminate]. destruct oi as [b |]; [| discriminate].
        intros H. apply andb_prop in H as [Ha Hb].
        apply Nat.eqb_eq in Ha, Hb. now subst.
      * intros H. injection H as -> ->. now rewrite !Nat.eqb_refl.
Qed.

Lemma sorted_unique_sorted (l : list Z) : StronglySorted Z.lt (sorted_unique l).
Proof.
  unfold sorted_unique. induction l as [| y l IH]; cbn [fold_right]; [constructor |].
  now apply insert_sorted_sorted.
Qed.

(** X15: [create_user_item_matrix] stores every rating of a frame without a
    repeated (user, movie) pair at the row of its user and the column of its
    movie, the rows and columns being numbered by the two sorted id lists it
    returns. *)
Lemma user_item_matrix_round_trip :
  forall (ratings : list rating_row) (fill_value : R) (M : matrix)
         (user_ids movie_ids : list Z),
    NoDup (map (fun r => (userId r, r_movieId r)) ratings) ->
    Vectorizer.create_user_item_matrix ratings fill_value = (M, user_ids, movie_ids) ->
    StronglySorted Z.lt user_ids /\ StronglySorted Z.lt movie_ids /\
    forall r, In r ratings ->
      exists ui mi,
        nth_error user_ids ui = Some (userId r) /\
        nth_error movie_ids mi = Some (r_movieId r) /\
        entry M ui mi = rating r.
Proof.
  intros ratings fill_value M user_ids movie_ids Hnd Hrun.
  unfold Vectorizer.create_user_item_matrix in Hrun.
  injection Hrun as <- <- <-.
  split; [apply sorted_unique_sorted |]. split; [apply sorted_unique_sorted |].
  intros r Hr.
  rewrite (index_from_enumerate _ 0 [] []), (index_from_enumerate _ 0 [] []).
  destruct (rating_matrix_entry ratings [] [] [] [] Hnd r Hr)
    as [ui [mi [H1 [H2 [_ [_ H3]]]]]].
  now exists ui, mi.
Qed.

Lemma user_item_matrix_round_trip_witness :
  exists ui mi,
    nth_error [1; 2]%Z ui = Some 2%Z /\
    nth_error [10; 11; 12]%Z mi = Some 12%Z /\
    entry [[5; 1; 0]; [4; 0; 2]] ui mi = 2.
Proof.
  refine (proj2 (proj2 (user_item_matrix_round_trip ratings_three 0
                          [[5; 1; 0]; [4; 0; 2]] [1; 2]%Z [10; 11; 12]%Z
                          ratings_three_pairs _))
            (RatingRow 2 12 2) _).
  - unfold Vectorizer.create_user_item_matrix.
    cbn -[rating_matrix ratings_three].
    cbn -[rating_matrix]. 
    change [RatingRow 1 10 5; RatingRow 1 11 1; RatingRow 2 10 4; RatingRow 2 12 2]
      with ratings_three.
    now rewrite rating_matrix_three.
  - cbn. tauto.
Defined.

(** X16: [UserBasedModel.fit], on a frame without a repeated (user, movie)
    pair, files every rating under the indices its two dictionaries give the
    user and the movie, whatever the model held before. *)
Lemma user_fit_round_trip :
  forall (self : UserBased.model) (ratings : list rating_row)
         (movies : option (list movie_row)),
    NoDup (map (fun r => (userId r, r_movieId r)) ratings) ->
    let fitted := UserBased.fit self ratings movies in
    forall r, In r ratings ->
      exists ui mi M,
        dict_get Z.eqb (UserBased.user_to_idx fitted) (userId r) = Some ui /\
        dict_get Z.eqb (UserBased.movie_to_idx fitted) (r_movieId r) = Some mi /\
        UserBased.user_item_matrix fitted = Some M /\
        entry M ui mi = rating r.
Proof.
  intros self ratings movies Hnd fitted r Hr.
  destruct (rating_matrix_entry ratings (UserBased.user_to_idx self)
              (UserBased.movie_to_idx self) (UserBased.idx_to_user self)
              (UserBased.idx_to_movie self) Hnd r Hr)
    as [ui [mi [_ [_ [H1 [H2 H3]]]]]].
  exists ui, mi. eexists. repeat split; [exact H1 | exact H2 | exact H3].
Qed.

Lemma user_fit_round_trip_witness :
  exists ui mi M,
    dict_get Z.eqb (UserBased.user_to_idx (ub_three 3)) 2%Z = Some ui /\
    dict_get Z.eqb (UserBased.movie_to_idx (ub_three 3)) 12%Z = Some mi /\
    UserBased.user_item_matrix (ub_three 3) = Some M /\
    entry M ui mi = 2.
Proof.
  rewrite <- (fit_ub_three 3).
  refine (user_fit_round_trip (UserBased.init 20 3) ratings_three None
            ratings_three_pairs (RatingRow 2 12 2) _).
  cbn. tauto.
Defined.

(* ================================================================== *)
(** * The [min_ratings] filter of the item-based model *)

Lemma fresh_index_get (keys : list Z) (k : Z) :
  NoDup keys ->
  (In k keys -> exists j, dict_get Z.eqb (fst (enumerate_into keys 0 [] [])) k = Some j) /\
  (~ In k keys -> dict_get Z.eqb (fst (enumerate_into keys 0 [] [])) k = None).
Proof.
  intros Hnd. split.
  - intros Hin. destruct (In_nth _ _ 0%Z Hin) as [j [Hj Hk]].
    exists (0 + j)%nat. rewrite <- Hk. now apply enumerate_into_get.
  - intros Hout. now rewrite enumerate_into_keeps.
Qed.

Lemma sorted_unique_nil (l : list Z) : sorted_unique l = [] <-> l = [].
Proof.
  split; [| now intros ->].
  destruct l as [| x l]; [reflexivity |]. intros H. exfalso.
  assert (Hin : In x (sorted_unique (x :: l))) by (apply sorted_unique_In; now left).
  now rewrite H in Hin.
Qed.

(** The array the item-based [fit] hands to [cosine_similarity] has a row
    and a column exactly when the [min_ratings] filter keeps a movie. *)
Lemma item_fit_matrix_accepted (self : ItemBased.model) (ratings : list rating_row)
    (movies : option (list movie_row)) :
  let fitted := ItemBased.fit self ratings movies in
  forall M,
    ItemBased.user_item_matrix fitted = Some M ->
    has_rows_and_columns
      (map ItemBased.center_row (transpose (length (ItemBased.movie_ids fitted)) M))
    = true
    <-> ItemBased.movie_ids fitted <> [].
Proof.
  intros fitted M HM. injection HM as <-.
  cbn [ItemBased.fit ItemBased.movie_ids fitted].
  set (filtered := filter _ ratings).
  unfold rating_matrix, toarray, transpose.
  destruct (sorted_unique (map r_movieId filtered)) as [| m ms] eqn:Em.
  - cbn. split; [discriminate | intros H; now contradiction H].
  - split; [discriminate | intros _].
    destruct (sorted_unique (map userId filtered)) as [| u us] eqn:Eu.
    + exfalso. apply sorted_unique_nil, map_eq_nil in Eu.
      rewrite Eu in Em. discriminate.
    + reflexivity.
Qed.

(** X17: after [ItemBasedModel(k, min_ratings).fit(ratings)], a movie is
    known to the model exactly when it has at least one and at least
    [min_ratings] ratings; for any other movie [predict_rating] gives no
    prediction and [get_similar_items] no neighbour. *)
Lemma item_fit_min_ratings :
  forall (k min_ratings : Z) (ratings : list rating_row)
         (movies : option (list movie_row)) (m : Z),
    let fitted := ItemBased.fit (ItemBased.init k min_ratings) ratings movies in
    let count := length (filter (fun r => (r_movieId r =? m)%Z) ratings) in
    (dict_get Z.eqb (ItemBased.movie_to_idx fitted) m <> None
     <-> (0 < count)%nat /\ (min_ratings <= Z.of_nat count)%Z) /\
    (In m (ItemBased.movie_ids fitted)
     <-> (0 < count)%nat /\ (min_ratings <= Z.of_nat count)%Z) /\
    ((Z.of_nat count < min_ratings)%Z \/ count = 0%nat ->
     (forall u, ItemBased.predict_rating fitted u m = Ok None) /\
     (forall n, ItemBased.get_similar_items fitted m n = Ok [])).
Proof.
  intros k min_ratings ratings movies m fitted count.
  set (keep := fun r : rating_row =>
                 (min_ratings
                  <=? Z.of_nat (length (filter (fun r' => (r_movieId r' =? r_movieId r)%Z)
                                               ratings)))%Z).
  assert (Hids : ItemBased.movie_ids fitted
                 = sorted_unique (map r_movieId (filter keep ratings)))
    by reflexivity.
  assert (Hidx : ItemBased.movie_to_idx fitted
                 = fst (enumerate_into (ItemBased.movie_ids fitted) 0 [] []))
    by reflexivity.
  assert (Hin : In m (ItemBased.movie_ids fitted)
                <-> (0 < count)%nat /\ (min_ratings <= Z.of_nat count)%Z).
  { rewrite Hids, sorted_unique_In, in_map_iff. split.
    - intros [r [Hm Hr]]. apply filter_In in Hr as [Hr Hk]. subst m.
      unfold keep in Hk. apply Z.leb_le in Hk. split; [| exact Hk].
      subst count.
      assert (Hr' : In r (filter (fun r' => (r_movieId r' =? r_movieId r)%Z) ratings)).
      { apply filter_In. split; [exact Hr | apply Z.eqb_refl]. }
      assert (Hpos : forall (l : list rating_row) x, In x l -> (0 < length l)%nat).
      { intros [| a l] x Hx; [contradiction | cbn; lia]. }
      exact (Hpos _ _ Hr').
    - intros [Hpos Hmin]. subst count.
      destruct (filter (fun r => (r_movieId r =? m)%Z) ratings) as [| r rest] eqn:Ef;
        [cbn in Hpos; lia |].
      assert (Hr : In r (filter (fun r => (r_movieId r =? m)%Z) ratings))
        by (rewrite Ef; now left).
      apply filter_In in Hr as [Hr Hm]. apply Z.eqb_eq in Hm.
      exists r. split; [exact Hm |]. apply filter_In. split; [exact Hr |].
      unfold keep. apply Z.leb_le. rewrite Hm, Ef. exact Hmin. }
  assert (Hget : dict_get Z.eqb (ItemBased.movie_to_idx fitted) m <> None
                 <-> In m (ItemBased.movie_ids fitted)).
  { rewrite Hidx.
    destruct (fresh_index_get (ItemBased.movie_ids fitted) m) as [Hyes Hno].
    { rewrite Hids. apply sorted_unique_NoDup. }
    split.
    - intros Hsome. destruct (in_dec Z.eq_dec m (ItemBased.movie_ids fitted)) as [H | H];
        [exact H |]. now rewrite (Hno H) in Hsome.
    - intros H. destruct (Hyes H) as [j Hj]. rewrite Hj. discriminate. }
  split; [now rewrite Hget |]. split; [exact Hin |].
  intros Hfew.
  assert (Hnone : dict_get Z.eqb (ItemBased.movie_to_idx fitted) m = None).
  { destruct (dict_get Z.eqb (ItemBased.movie_to_idx fitted) m) eqn:E; [| reflexivity].
    exfalso. assert (Hs : In m (ItemBased.movie_ids fitted))
      by (apply Hget; discriminate).
    apply Hin in Hs. lia. }
  split.
  - intros u. unfold ItemBased.predict_rating. rewrite Hnone.
    destruct (negb _); [reflexivity |]. now destruct (dict_get Z.eqb _ u).
  - intros n. unfold ItemBased.get_similar_items. rewrite Hnone.
    now destruct (negb _).
Qed.

(* ================================================================== *)
(** * Evaluation metrics *)

Lemma sum_cons (x : R) (v : vec) : sum (x :: v) = x + sum v.
Proof. reflexivity. Qed.

Lemma sum_nonneg (v : vec) : (forall x, In x v -> 0 <= x) -> 0 <= sum v.
Proof.
  induction v as [| x v IH]; intros H; [unfold sum; cbn; lra |].
  rewrite sum_cons. pose proof (H x (or_introl eq_refl)).
  assert (0 <= sum v) by (apply IH; intros y Hy; apply H; now right). lra.
Qed.

Lemma sum_zero_all (v : vec) :
  (forall x, In x v -> 0 <= x) -> sum v = 0 -> forall x, In x v -> x = 0.
Proof.
  induction v as [| y v IH]; intros Hpos Hsum x Hx; [contradiction |].
  rewrite sum_cons in Hsum.
  pose proof (Hpos y (or_introl eq_refl)) as Hy.
  assert (Hv : 0 <= sum v) by (apply sum_nonneg; intros z Hz; apply Hpos; now right).
  destruct Hx as [<- | Hx]; [lra |].
  apply IH; [intros z Hz; apply Hpos; now right | lra | exact Hx].
Qed.

Lemma broadcast2_same_length (f : R -> R -> R) (a b : vec) :
  length a = length b -> broadcast2 f a b = Ok (map2 f a b).
Proof. intros H. unfold broadcast2. now rewrite H, Nat.eqb_refl. Qed.

Lemma map2_minus_zero (a b : vec) :
  length a = length b ->
  (forall x, In x (map2 Rminus a b) -> x = 0) -> a = b.
Proof.
  revert b. induction a as [| x a IH]; intros [| y b] Hlen H; try discriminate;
    [reflexivity |].
  cbn [map2] in H. f_equal.
  - pose proof (H (x - y) (or_introl eq_refl)). lra.
  - apply IH; [cbn in Hlen; lia |]. intros z Hz. apply H. now right.
Qed.

Lemma map2_minus_self (a : vec) : forall x, In x (map2 Rminus a a) -> x = 0.
Proof.
  induction a as [| y a IH]; intros x Hx; [contradiction |].
  destruct Hx as [<- | Hx]; [lra | now apply IH].
Qed.

Lemma np_mean_nonempty (v : vec) :
  v <> [] -> np_mean v = Fin (sum v / INR (length v)).
Proof. destruct v; [contradiction | reflexivity]. Qed.

Lemma sum_map_zero (f : R -> R) (v : vec) :
  (forall x, In x v -> f x = 0) -> sum (map f v) = 0.
Proof.
  induction v as [| x v IH]; intros H; [reflexivity |].
  cbn [map]. rewrite sum_cons, (H x (or_introl eq_refl)), IH; [lra |].
  intros y Hy. apply H. now right.
Qed.

(** X18: on two non-empty arrays of the same length, [rmse] and [mae] are
    numbers that are not negative, and each of them is 0 exactly when the
    predictions equal the true ratings; on empty arrays both are [NaN], and
    arrays of different lengths, neither of length one, raise [ValueError]. *)
Lemma rmse_mae_behaviour :
  (forall y_true y_pred : vec,
      y_true <> [] -> length y_true = length y_pred ->
      exists r a,
        ModelEvaluator.rmse y_true y_pred = Ok (Fin r) /\
        ModelEvaluator.mae y_true y_pred = Ok (Fin a) /\
        0 <= r /\ 0 <= a /\
        (r = 0 <-> y_true = y_pred) /\
        (a = 0 <-> y_true = y_pred)) /\
  ModelEvaluator.rmse [] [] = Ok NaN /\
  ModelEvaluator.mae [] [] = Ok NaN /\
  (forall y_true y_pred : vec,
      length y_true <> length y_pred ->
      length y_true <> 1%nat -> length y_pred <> 1%nat ->
      ModelEvaluator.rmse y_true y_pred = Raise ValueError /\
      ModelEvaluator.mae y_true y_pred = Raise ValueError).
Proof.
  split; [| split; [reflexivity | split; [reflexivity |]]].
  - intros y_true y_pred Hne Hlen.
    set (d := map2 Rminus y_true y_pred).
    assert (Hd : d <> []).
    { unfold d. destruct y_true as [| x t]; [contradiction |].
      destruct y_pred as [| y p]; [discriminate | cbn; discriminate]. }
    assert (Hn : 0 < INR (length d)).
    { apply lt_0_INR. destruct d; [contradiction | cbn; lia]. }
    assert (Hin : 0 < / INR (length d)) by now apply Rinv_0_lt_compat.
    assert (Hq : forall x, In x (map (fun x => x ^ 2) d) -> 0 <= x).
    { intros x Hx. apply in_map_iff in Hx as [y [<- _]]. nra. }
    assert (Ha : forall x, In x (map Rabs d) -> 0 <= x).
    { intros x Hx. apply in_map_iff in Hx as [y [<- _]]. apply Rabs_pos. }
    assert (Hsame : y_true = y_pred -> forall x, In x d -> x = 0).
    { intros <-. apply map2_minus_self. }
    exists (sqrt (sum (map (fun x => x ^ 2) d) / INR (length d))),
           (sum (map Rabs d) / INR (length d)).
    unfold ModelEvaluator.rmse, ModelEvaluator.mae.
    rewrite (broadcast2_same_length _ _ _ Hlen). cbn [bind]. fold d.
    rewrite !np_mean_nonempty, !length_map
      by (destruct d; [contradiction | discriminate]).
    split; [reflexivity |]. split; [reflexivity |].
    split; [apply sqrt_pos |].
    split; [apply Rmult_le_pos; [now apply sum_nonneg | lra] |].
    split; split.
    + intros Hr. apply sqrt_eq_0 in Hr.
      2:{ apply Rmult_le_pos; [now apply sum_nonneg | lra]. }
      assert (Hs : sum (map (fun x => x ^ 2) d) = 0).
      { apply (Rmult_eq_reg_r (/ INR (length d))); [unfold Rdiv in Hr; lra | lra]. }
      apply map2_minus_zero; [exact Hlen |]. fold d. intros x Hx.
      pose proof (sum_zero_all _ Hq Hs (x ^ 2) (in_map (fun x => x ^ 2) _ _ Hx)). nra.
    + intros Heq. rewrite sum_map_zero.
      * unfold Rdiv. rewrite Rmult_0_l. apply sqrt_0.
      * intros x Hx. rewrite (Hsame Heq x Hx). ring.
    + intros Hr.
      assert (Hs : sum (map Rabs d) = 0).
      { apply (Rmult_eq_reg_r (/ INR (length d))); [unfold Rdiv in Hr; lra | lra]. }
      apply map2_minus_zero; [exact Hlen |]. fold d. intros x Hx.
      pose proof (sum_zero_all _ Ha Hs (Rabs x) (in_map Rabs _ _ Hx)) as Hx2.
      destruct (Req_dec x 0) as [H0 | H0]; [exact H0 |].
      apply Rabs_no_R0 in H0. contradiction.
    + intros Heq. rewrite sum_map_zero; [unfold Rdiv; ring |].
      intros x Hx. rewrite (Hsame Heq x Hx). apply Rabs_R0.
  - intros y_true y_pred Hlen H1 H2.
    unfold ModelEvaluator.rmse, ModelEvaluator.mae, broadcast2.
    apply Nat.eqb_neq in Hlen. rewrite Hlen.
    destruct y_true as [| x [| x' t]]; destruct y_pred as [| y [| y' p]];
      cbn [length] in H1, H2; try (exfalso; now (apply H1 || apply H2));
      split; reflexivity.
Qed.

Lemma rmse_mae_behaviour_witness :
  exists r a,
    ModelEvaluator.rmse [4; 2] [3; 3] = Ok (Fin r) /\
    ModelEvaluator.mae [4; 2] [3; 3] = Ok (Fin a) /\
    0 <= r /\ 0 <= a /\
    (r = 0 <-> [4; 2] = [3; 3]) /\
    (a = 0 <-> [4; 2] = [3; 3]).
Proof.
  apply (proj1 rmse_mae_behaviour [4; 2] [3; 3]); [discriminate | reflexivity].
Defined.

Lemma set_of_list_In (l : list Z) (x : Z) : In x (set_of_list l) <-> In x l.
Proof. unfold set_of_list. rewrite set_union_In. cbn. tauto. Qed.

Lemma set_of_list_NoDup (l : list Z) : NoDup (set_of_list l).
Proof. apply set_union_NoDup. constructor. Qed.

Lemma set_inter_In (a b : idset) (x : Z) : In x (set_inter a b) <-> In x a /\ In x b.
Proof. unfold set_inter. now rewrite filter_In, mem_In. Qed.

Lemma set_inter_NoDup (a b : idset) : NoDup a -> NoDup (set_inter a b).
Proof. apply NoDup_filter. Qed.

Lemma hits_In (recommendations : list Z) (relevant : idset) (k : Z) :
  (0 < ModelEvaluator.hits recommendations relevant k)%nat
  <-> exists x, In x (py_take k recommendations) /\ In x relevant.
Proof.
  unfold ModelEvaluator.hits. split.
  - intros H.
    destruct (set_inter (set_of_list (py_take k recommendations)) relevant)
      as [| x s] eqn:E; [cbn in H; lia |].
    assert (Hx : In x (set_inter (set_of_list (py_take k recommendations)) relevant))
      by (rewrite E; now left).
    apply (proj1 (set_inter_In _ _ _)) in Hx. destruct Hx as [Hx1 Hx2].
    apply (proj1 (set_of_list_In _ _)) in Hx1. exists x. split; assumption.
  - intros [x [Hx1 Hx2]].
    assert (Hx : In x (set_inter (set_of_list (py_take k recommendations)) relevant)).
    { apply set_inter_In. split; [now apply set_of_list_In | exact Hx2]. }
    destruct (set_inter _ relevant); [contradiction | cbn; lia].
Qed.

Lemma hits_le_k (recommendations : list Z) (relevant : idset) (k : Z) :
  (0 <= k)%Z -> (Z.of_nat (ModelEvaluator.hits recommendations relevant k) <= k)%Z.
Proof.
  intros Hk. unfold ModelEvaluator.hits.
  pose proof (py_take_length k recommendations Hk) as Htake.
  assert (H1 : (length (set_inter (set_of_list (py_take k recommendations)) relevant)
                <= length (set_of_list (py_take k recommendations)))%nat)
    by apply filter_length_le.
  assert (H2 : (length (set_of_list (py_take k recommendations))
                <= length (py_take k recommendations))%nat).
  { apply NoDup_incl_length; [apply set_of_list_NoDup |].
    intros x Hx. now apply (proj1 (set_of_list_In _ _)). }
  lia.
Qed.

Lemma hits_le_relevant (recommendations : list Z) (relevant : idset) (k : Z) :
  NoDup relevant ->
  (ModelEvaluator.hits recommendations relevant k <= length relevant)%nat.
Proof.
  intros Hnd. unfold ModelEvaluator.hits.
  apply NoDup_incl_length; [apply set_inter_NoDup, set_of_list_NoDup |].
  intros x Hx. apply (proj1 (set_inter_In _ _ _)) in Hx. tauto.
Qed.

Lemma ratio_in_unit (a b : R) : 0 <= a <= b -> 0 < b -> 0 <= a / b <= 1.
Proof.
  intros Ha Hb. split.
  - apply Rmult_le_pos; [lra | left; now apply Rinv_0_lt_compat].
  - apply (Rmult_le_reg_r b); [exact Hb |].
    unfold Rdiv. rewrite Rmult_assoc, Rinv_l by lra. lra.
Qed.

(** X19: [precision_at_k], [recall_at_k], [hit_rate_at_k] and [coverage]
    lie between 0 and 1: precision for every input (it is 0 for [k <= 0]),
    recall for every set of relevant items, coverage when the recommended
    items are among the available ones. *)
Lemma ranking_metrics_in_unit_interval :
  (forall recommendations relevant k,
      0 <= ModelEvaluator.precision_at_k recommendations relevant k <= 1 /\
      ((k <= 0)%Z -> ModelEvaluator.precision_at_k recommendations relevant k = 0)) /\
  (forall recommendations relevant k,
      NoDup relevant ->
      0 <= ModelEvaluator.recall_at_k recommendations relevant k <= 1) /\
  (forall recommendations relevant k,
      ModelEvaluator.hit_rate_at_k recommendations relevant k = 0 \/
      ModelEvaluator.hit_rate_at_k recommendations relevant k = 1) /\
  (forall recommended_items all_items,
      NoDup recommended_items -> incl recommended_items all_items ->
      0 <= ModelEvaluator.coverage recommended_items all_items <= 1).
Proof.
  split; [| split; [| split]].
  - intros recommendations relevant k. unfold ModelEvaluator.precision_at_k.
    destruct (k <=? 0)%Z eqn:E.
    + split; [lra | reflexivity].
    + apply Z.leb_gt in E. split; [| lia].
      apply ratio_in_unit; [| now apply IZR_lt].
      split; [apply pos_INR |].
      rewrite INR_IZR_INZ. apply IZR_le, hits_le_k. lia.
  - intros recommendations relevant k Hnd. unfold ModelEvaluator.recall_at_k.
    destruct (Nat.eqb_spec (length relevant) 0) as [E | E]; [lra |].
    apply ratio_in_unit; [| apply lt_0_INR; lia].
    split; [apply pos_INR | apply le_INR; now apply hits_le_relevant].
  - intros recommendations relevant k. unfold ModelEvaluator.hit_rate_at_k.
    destruct (Nat.ltb 0 _); [now right | now left].
  - intros recommended_items all_items Hnd Hincl. unfold ModelEvaluator.coverage.
    destruct (Nat.eqb_spec (length all_items) 0) as [E | E]; [lra |].
    apply ratio_in_unit; [| apply lt_0_INR; lia].
    split; [apply pos_INR | apply le_INR; now apply NoDup_incl_length].
Qed.

Lemma ranking_metrics_in_unit_interval_witness :
  0 <= ModelEvaluator.recall_at_k [3; 1; 2]%Z [1; 9]%Z 2 <= 1.
Proof.
  apply (proj1 (proj2 ranking_metrics_in_unit_interval) [3; 1; 2]%Z [1; 9]%Z 2%Z).
  repeat constructor; cbn; intuition discriminate.
Defined.

(** X20: the hit rate is 1 exactly when one of the first [k]
    recommendations is relevant, which for [k > 0] is when the precision is
    positive and, for a non-empty relevant set, when the recall is. *)
Lemma hit_rate_agrees :
  forall (recommendations : list Z) (relevant : idset) (k : Z),
    (ModelEvaluator.hit_rate_at_k recommendations relevant k = 1
     <-> exists x, In x (py_take k recommendations) /\ In x relevant) /\
    ((0 < k)%Z ->
     (ModelEvaluator.hit_rate_at_k recommendations relevant k = 1
      <-> 0 < ModelEvaluator.precision_at_k recommendations relevant k)) /\
    (relevant <> [] ->
     (ModelEvaluator.hit_rate_at_k recommendations relevant k = 1
      <-> 0 < ModelEvaluator.recall_at_k recommendations relevant k)).
Proof.
  intros recommendations relevant k.
  assert (Hhit : ModelEvaluator.hit_rate_at_k recommendations relevant k = 1
                 <-> (0 < ModelEvaluator.hits recommendations relevant k)%nat).
  { unfold ModelEvaluator.hit_rate_at_k.
    destruct (Nat.ltb_spec 0 (ModelEvaluator.hits recommendations relevant k));
      split; intros; try lra; try lia; reflexivity. }
  assert (Hratio : forall b, 0 < b ->
             (0 < INR (ModelEvaluator.hits recommendations relevant k) / b
              <-> (0 < ModelEvaluator.hits recommendations relevant k)%nat)).
  { intros b Hb. split.
    - intros H. destruct (ModelEvaluator.hits recommendations relevant k); [| lia].
      cbn in H. unfold Rdiv in H. rewrite Rmult_0_l in H. lra.
    - intros H. apply lt_0_INR in H.
      apply Rmult_lt_0_compat; [exact H | now apply Rinv_0_lt_compat]. }
  split; [now rewrite Hhit, hits_In |]. split.
  - intros Hk. unfold ModelEvaluator.precision_at_k.
    replace (k <=? 0)%Z with false by (symmetry; apply Z.leb_gt; lia).
    rewrite Hhit. symmetry. apply Hratio. now apply IZR_lt.
  - intros Hne. unfold ModelEvaluator.recall_at_k.
    destruct (Nat.eqb_spec (length relevant) 0) as [E | E].
    { destruct relevant; [contradiction | discriminate]. }
    rewrite Hhit. symmetry. apply Hratio. apply lt_0_INR. lia.
Qed.

(** X21: for a precision and a recall that are not negative, [f1_at_k] is
    not negative, is 0 exactly when one of the two is 0, and does not depend
    on their order. *)
Lemma f1_at_k_zero_and_order :
  forall p r : R,
    0 <= p -> 0 <= r ->
    0 <= ModelEvaluator.f1_at_k p r /\
    (ModelEvaluator.f1_at_k p r = 0 <-> p = 0 \/ r = 0) /\
    ModelEvaluator.f1_at_k p r = ModelEvaluator.f1_at_k r p.
Proof.
  intros p r Hp Hr. unfold ModelEvaluator.f1_at_k.
  replace (r + p) with (p + r) by ring.
  destruct (Req_dec_T (p + r) 0) as [E | E].
  - rewrite (Reqb_true _ _ E).
    split; [lra |]. split; [| reflexivity].
    split; [intros _; left; lra | reflexivity].
  - rewrite (Reqb_false _ _ E).
    assert (Hs : 0 < p + r) by lra.
    assert (Hi : 0 < / (p + r)) by now apply Rinv_0_lt_compat.
    split; [| split].
    + apply Rmult_le_pos; [| lra].
      apply Rmult_le_pos; [lra | now apply Rmult_le_pos].
    + split.
      * intros H0. unfold Rdiv in H0.
        apply Rmult_integral in H0 as [H0 | H0]; [| lra].
        assert (Hpr : p * r = 0) by lra.
        apply Rmult_integral in Hpr. exact Hpr.
      * intros [-> | ->]; unfold Rdiv; ring.
    + f_equal. ring.
Qed.

Lemma f1_at_k_zero_and_order_witness :
  0 <= ModelEvaluator.f1_at_k (1 / 2) 1 /\
  (ModelEvaluator.f1_at_k (1 / 2) 1 = 0 <-> 1 / 2 = 0 \/ 1 = 0) /\
  ModelEvaluator.f1_at_k (1 / 2) 1 = ModelEvaluator.f1_at_k 1 (1 / 2).
Proof. apply (f1_at_k_zero_and_order (1 / 2) 1); lra. Defined.

(* ================================================================== *)
(** * Helper functions *)

Lemma firstn_then_more {A : Type} (a b : nat) (l : list A) :
  firstn a l ++ firstn b (skipn a l) = firstn (a + b) l.
Proof.
  revert l. induction a as [| a IH]; intros l; [reflexivity |].
  destruct l as [| x l]; cbn [firstn skipn Nat.add app].
  - now rewrite firstn_nil.
  - f_equal. apply IH.
Qed.

(** The pages up to page [p] hold the first [p * limit] items. *)
Lemma pages_prefix {A : Type} (items : list A) (limit : Z) :
  (1 <= limit)%Z ->
  forall p : nat,
    concat (map (fun q => page_items (Helpers.paginate_list items
                                        (Z.of_nat q) limit))
                (seq 1 p))
    = firstn (p * Z.to_nat limit) items.
Proof.
  intros Hl. induction p as [| p IH]; [reflexivity |].
  rewrite seq_S, map_app, concat_app, IH. cbn [map concat Nat.add].
  rewrite app_nil_r.
  unfold Helpers.paginate_list. cbn [page_items]. unfold py_slice.
  set (n := Z.of_nat (length items)).
  replace ((Z.of_nat (S p) - 1) * limit)%Z with (Z.of_nat p * limit)%Z by lia.
  assert (H0 : (0 <= Z.of_nat p * limit)%Z) by lia.
  replace (Z.of_nat p * limit <? 0)%Z with false by (symmetry; apply Z.ltb_ge; lia).
  replace (Z.of_nat p * limit + limit <? 0)%Z with false
    by (symmetry; apply Z.ltb_ge; lia).
  destruct (Z_le_gt_dec n (Z.of_nat p * limit)) as [Hfull | Hmore].
  - rewrite !Z.min_r by lia. rewrite Z.sub_diag. cbn [Z.to_nat firstn].
    rewrite app_nil_r, !firstn_all2; [reflexivity | |]; unfold n in Hfull; nia.
  - rewrite (Z.min_l (Z.of_nat p * limit)) by lia.
    replace (Z.to_nat (Z.of_nat p * limit)) with (p * Z.to_nat limit)%nat by nia.
    destruct (Z_le_gt_dec n (Z.of_nat p * limit + limit)) as [Hlast | Hnot].
    + rewrite Z.min_r by lia.
      rewrite (firstn_all2 (skipn (p * Z.to_nat limit) items))
        by (rewrite length_skipn; unfold n in *; nia).
      rewrite firstn_skipn. symmetry. apply firstn_all2. unfold n in Hlast. nia.
    + rewrite Z.min_l by lia.
      replace (Z.to_nat (Z.of_nat p * limit + limit - Z.of_nat p * limit))
        with (Z.to_nat limit) by lia.
      rewrite firstn_then_more. f_equal. lia.
Qed.

(** X22: for [limit >= 1], [paginate_list] reports
    [ceil(total / limit)] pages; the items of the pages 1, 2, ... up to that
    number, put one after the other, are the list itself; no page holds more
    than [limit] items, and a page beyond the last one holds none. *)
Lemma paginate_list_partitions :
  forall (A : Type) (items : list A) (limit : Z),
    (1 <= limit)%Z ->
    let total := Z.of_nat (length items) in
    let pages := page_pages (Helpers.paginate_list items 1 limit) in
    (forall page, page_pages (Helpers.paginate_list items page limit) = pages /\
                  page_total (Helpers.paginate_list items page limit) = total) /\
    ((pages - 1) * limit < total <= pages * limit)%Z /\
    concat (map (fun q => page_items (Helpers.paginate_list items (Z.of_nat q) limit))
                (seq 1 (Z.to_nat pages)))
    = items /\
    (forall page, (1 <= page)%Z ->
       (Z.of_nat (length (page_items (Helpers.paginate_list items page limit)))
        <= limit)%Z) /\
    (forall page, (pages < page)%Z ->
       page_items (Helpers.paginate_list items page limit) = []).
Proof.
  intros A items limit Hl total pages.
  assert (Hpages : pages = ((total + limit - 1) / limit)%Z).
  { unfold pages, Helpers.paginate_list. cbn [page_pages].
    now replace (0 <? limit)%Z with true by (symmetry; apply Z.ltb_lt; lia). }
  assert (Hceil : ((pages - 1) * limit < total <= pages * limit)%Z).
  { pose proof (Z.div_mod (total + limit - 1) limit) as Hdm.
    pose proof (Z.mod_pos_bound (total + limit - 1) limit) as Hmod.
    rewrite <- Hpages in Hdm. nia. }
  assert (H0 : (0 <= total)%Z) by (unfold total; lia).
  split; [intros page; split; reflexivity |].
  split; [exact Hceil |]. split; [| split].
  - rewrite (pages_prefix items limit Hl). apply firstn_all2.
    unfold total in Hceil. nia.
  - intros page Hp. unfold Helpers.paginate_list. cbn [page_items]. unfold py_slice.
    fold total. rewrite length_firstn.
    replace ((page - 1) * limit <? 0)%Z with false by (symmetry; apply Z.ltb_ge; nia).
    replace ((page - 1) * limit + limit <? 0)%Z with false
      by (symmetry; apply Z.ltb_ge; nia).
    lia.
  - intros page Hp. unfold Helpers.paginate_list. cbn [page_items]. unfold py_slice.
    fold total.
    replace ((page - 1) * limit <? 0)%Z with false by (symmetry; apply Z.ltb_ge; nia).
    replace ((page - 1) * limit + limit <? 0)%Z with false
      by (symmetry; apply Z.ltb_ge; nia).
    rewrite !Z.min_r by nia. now rewrite Z.sub_diag.
Qed.

Lemma paginate_list_partitions_witness :
  concat (map (fun q => page_items (Helpers.paginate_list [1; 2; 3; 4; 5]%Z
                                      (Z.of_nat q) 2))
              (seq 1 (Z.to_nat (page_pages (Helpers.paginate_list [1; 2; 3; 4; 5]%Z
                                              1 2)))))
  = [1; 2; 3; 4; 5]%Z.
Proof.
  apply (paginate_list_partitions Z [1; 2; 3; 4; 5]%Z 2). lia.
Defined.

Lemma Rmin_Rmax_swap (x lo hi : R) :
  lo <= hi -> Rmax lo (Rmin hi x) = Rmin (Rmax x lo) hi.
Proof.
  intros H. unfold Rmax, Rmin.
  destruct (Rle_dec hi x); destruct (Rle_dec x lo);
    repeat match goal with
           | |- context [Rle_dec ?a ?b] => destruct (Rle_dec a b)
           end; lra.
Qed.

(** X23: for [min_val <= max_val], [clip_rating] is the [np.clip] of the
    models: its result lies in [[min_val, max_val]], a rating in that range
    is returned as it is, and clipping twice changes nothing. *)
Lemma clip_rating_is_clip :
  forall rating min_val max_val : R,
    min_val <= max_val ->
    Helpers.clip_rating rating min_val max_val = clip rating min_val max_val /\
    min_val <= Helpers.clip_rating rating min_val max_val <= max_val /\
    (min_val <= rating <= max_val ->
     Helpers.clip_rating rating min_val max_val = rating) /\
    Helpers.clip_rating (Helpers.clip_rating rating min_val max_val) min_val max_val
    = Helpers.clip_rating rating min_val max_val.
Proof.
  intros rating min_val max_val H.
  assert (Heq : forall x, Helpers.clip_rating x min_val max_val = clip x min_val max_val).
  { intros x. unfold Helpers.clip_rating, clip. now apply Rmin_Rmax_swap. }
  pose proof (clip_bounds rating min_val max_val H) as Hb.
  rewrite !Heq. split; [reflexivity |]. split; [exact Hb |].
  split; [apply clip_id | now apply clip_id].
Qed.

Lemma clip_rating_is_clip_witness :
  Helpers.clip_rating 7 (1 / 2) 5 = clip 7 (1 / 2) 5.
Proof. apply (clip_rating_is_clip 7 (1 / 2) 5). lra. Defined.

(** X24: for [min_val < max_val], [normalize_rating] does not decrease,
    sends [min_val] to 0 and [max_val] to 1, and so maps the ratings of
    [[min_val, max_val]] into [[0, 1]]; [denormalize_rating] does not
    decrease either and sends 0 to [min_val]; [normalize_rating] raises
    [ZeroDivisionError] when [min_val = max_val]. *)
Lemma rating_normalization_monotone :
  forall min_val max_val : R,
    (min_val < max_val ->
     Helpers.normalize_rating min_val min_val max_val = Ok 0 /\
     Helpers.normalize_rating max_val min_val max_val = Ok 1 /\
     (forall r1 r2, r1 <= r2 ->
        exists x1 x2,
          Helpers.normalize_rating r1 min_val max_val = Ok x1 /\
          Helpers.normalize_rating r2 min_val max_val = Ok x2 /\
          x1 <= x2) /\
     (forall rating, min_val <= rating <= max_val ->
        exists x,
          Helpers.normalize_rating rating min_val max_val = Ok x /\ 0 <= x <= 1) /\
     Helpers.denormalize_rating 0 min_val max_val = min_val /\
     (forall n1 n2, n1 <= n2 ->
        Helpers.denormalize_rating n1 min_val max_val
        <= Helpers.denormalize_rating n2 min_val max_val)) /\
    (min_val = max_val ->
     forall rating,
       Helpers.normalize_rating rating min_val max_val = Raise ZeroDivisionError).
Proof.
  intros min_val max_val. unfold Helpers.normalize_rating. split.
  - intros Hlt. rewrite Reqb_false by lra.
    assert (Hi : 0 < / (max_val - min_val)) by (apply Rinv_0_lt_compat; lra).
    assert (Hmono : forall r1 r2, r1 <= r2 ->
              (r1 - min_val) / (max_val - min_val)
              <= (r2 - min_val) / (max_val - min_val)).
    { intros r1 r2 H. unfold Rdiv. apply Rmult_le_compat_r; lra. }
    assert (H0 : (min_val - min_val) / (max_val - min_val) = 0)
      by (unfold Rdiv; ring).
    assert (H1 : (max_val - min_val) / (max_val - min_val) = 1)
      by (field; lra).
    split; [now rewrite H0 |]. split; [now rewrite H1 |].
    split; [| split; [| split]].
    + intros r1 r2 H. do 2 eexists. split; [reflexivity |].
      split; [reflexivity | now apply Hmono].
    + intros rating [Hlo Hhi]. eexists. split; [reflexivity |]. split.
      * rewrite <- H0. now apply Hmono.
      * rewrite <- H1. now apply Hmono.
    + unfold Helpers.denormalize_rating. ring.
    + intros n1 n2 H. unfold Helpers.denormalize_rating.
      apply Rplus_le_compat_r, Rmult_le_compat_r; lra.
  - intros -> rating. now rewrite Reqb_true by lra.
Qed.

(** A string without white space at either end. *)
Lemma lstrip_head (s : str) :
  match lstrip s with
  | [] => True
  | c :: _ => isspace c = false
  end.
Proof.
  induction s as [| c s IH]; cbn [lstrip]; [exact I |].
  destruct (isspace c) eqn:E; [exact IH | exact E].
Qed.

Lemma lstrip_keeps_last (u : str) (h : Ascii.ascii) :
  isspace h = false -> exists v, lstrip (u ++ [h]) = v ++ [h].
Proof.
  intros Hh. induction u as [| c u [v IH]]; cbn [app lstrip].
  - rewrite Hh. now exists [].
  - destruct (isspace c); [now exists v | now exists (c :: u)].
Qed.

Lemma strip_ends (s : str) :
  match strip s with
  | [] => True
  | c :: _ => isspace c = false /\ isspace (last (strip s) c) = false
  end.
Proof.
  unfold strip.
  pose proof (lstrip_head s) as Hhead.
  destruct (lstrip s) as [| h t] eqn:Et; [exact I |].
  cbn [rev]. destruct (lstrip_keeps_last (rev t) h Hhead) as [v Hv].
  rewrite Hv, rev_app_distr. cbn [rev app]. split; [exact Hhead |].
  pose proof (lstrip_head (rev t ++ [h])) as Hlast. rewrite Hv in Hlast.
  destruct v as [| c v']; cbn [app rev last] in *; [exact Hhead |].
  destruct (rev v' ++ [c]) as [| x l] eqn:El.
  { destruct (rev v'); discriminate. }
  change (last (h :: x :: l) h) with (last (x :: l) h).
  rewrite <- El, last_last. exact Hlast.
Qed.

(** X25: every genre [parse_genres] returns is a non-empty string without
    white space at its start or at its end; the empty string and the
    placeholder [(no genres listed)] give no genre, and an empty separator
    raises [ValueError] on any other input. *)
Lemma parse_genres_pieces :
  forall genres_str separator : str,
    (forall out, Helpers.parse_genres genres_str separator = Ok out ->
       forall g, In g out ->
         exists c rest, g = c :: rest /\
                        isspace c = false /\ isspace (last g c) = false) /\
    Helpers.parse_genres [] separator = Ok [] /\
    Helpers.parse_genres (list_ascii_of_string "(no genres listed)") separator = Ok [] /\
    (genres_str <> [] ->
     genres_str <> list_ascii_of_string "(no genres listed)" ->
     Helpers.parse_genres genres_str [] = Raise ValueError).
Proof.
  intros genres_str separator. split; [| split; [reflexivity | split]].
  - intros out Hrun g Hg. unfold Helpers.parse_genres in Hrun.
    destruct genres_str as [| c0 s0]; [injection Hrun as <-; contradiction |].
    destruct (str_eqb (c0 :: s0) _); [injection Hrun as <-; contradiction |].
    destruct (split (c0 :: s0) separator) as [pieces | e]; cbn [bind] in Hrun;
      [| discriminate].
    injection Hrun as <-. apply in_map_iff in Hg as [p [<- Hp]].
    apply filter_In in Hp as [_ Hp].
    pose proof (strip_ends p) as Hends.
    destruct (strip p) as [| c rest]; [discriminate |].
    now exists c, rest.
  - unfold Helpers.parse_genres, str_eqb. cbn [list_ascii_of_string].
    destruct (list_eq_dec _ _ _); [reflexivity | contradiction].
  - intros Hne Hph. unfold Helpers.parse_genres, str_eqb.
    destruct genres_str as [| c0 s0]; [contradiction |].
    destruct (list_eq_dec _ _ _); [contradiction | reflexivity].
Qed.

Lemma parse_genres_example :
  Helpers.parse_genres (list_ascii_of_string "Action| Comedy ||Drama")
    (list_ascii_of_string "|")
  = Ok (map list_ascii_of_string ["Action"; "Comedy"; "Drama"]%string).
Proof. vm_compute. reflexivity. Qed.

Lemma parse_genres_pieces_witness :
  exists c rest,
    list_ascii_of_string "Comedy" = c :: rest /\
    isspace c = false /\ isspace (last (list_ascii_of_string "Comedy") c) = false.
Proof.
  refine (proj1 (parse_genres_pieces
                   (list_ascii_of_string "Action| Comedy ||Drama")
                   (list_ascii_of_string "|")) _ parse_genres_example
            (list_ascii_of_string "Comedy") _).
  cbn. tauto.
Defined.

(* ================================================================== *)
(** * Pearson correlation *)

Lemma entry_set_entry (M : matrix) (a b i j : nat) (x : R) :
  (a < length M)%nat -> (b < length (nth a M []))%nat ->
  entry (set_entry a b x M) i j
  = if Nat.eqb i a && Nat.eqb j b then x else entry M i j.
Proof.
  intros Ha Hb. unfold entry, set_entry.
  destruct (Nat.eqb_spec i a) as [-> | Hia]; cbn [andb].
  - rewrite nth_set_nth_eq by exact Ha.
    destruct (Nat.eqb_spec j b) as [-> | Hjb].
    + now rewrite nth_set_nth_eq.
    + now rewrite nth_set_nth_neq by congruence.
  - now rewrite nth_set_nth_neq by congruence.
Qed.

(** A square matrix of size [n]. *)
Lemma set_entry_shape (n a b : nat) (x : R) (M : matrix) :
  length M = n /\ (forall i, (i < n)%nat -> length (nth i M []) = n) ->
  length (set_entry a b x M) = n /\
  (forall i, (i < n)%nat -> length (nth i (set_entry a b x M) []) = n).
Proof.
  intros [HM Hrows]. unfold set_entry. split; [now rewrite length_set_nth |].
  intros i Hi. destruct (Nat.eq_dec a i) as [-> | Hne].
  - rewrite nth_set_nth_eq by lia. rewrite length_set_nth. now apply Hrows.
  - rewrite nth_set_nth_neq by exact Hne. now apply Hrows.
Qed.

Lemma common_count_sym (u v : vec) : common_count u v = common_count v u.
Proof.
  unfold common_count, common_mask. f_equal. f_equal.
  revert v. induction u as [| a u IH]; intros [| b v]; cbn [map2]; try reflexivity.
  now rewrite IH, andb_comm.
Qed.

Lemma dot_squares (v : vec) : dot v v = sum (map (fun x => x ^ 2) v).
Proof.
  induction v as [| x v IH]; [reflexivity |].
  cbn [map]. rewrite dot_cons, sum_cons, IH. ring.
Qed.

Lemma pair_enough_common (u v : vec) (min_common : Z) (corr : R) :
  Pearson.pair u v min_common = Some corr ->
  (min_common <= Z.of_nat (common_count u v))%Z.
Proof.
  unfold Pearson.pair. intros H.
  destruct (min_common <=? Z.of_nat (common_count u v))%Z eqn:Ec; [| discriminate].
  now apply Z.leb_le.
Qed.

(** A row against itself: the quotient is [s / sqrt (s * s)] for the sum [s]
    of the squares, which is positive when the quotient is taken. *)
Lemma pair_self (u : vec) (min_common : Z) (corr : R) :
  Pearson.pair u u min_common = Some corr -> corr = 1.
Proof.
  unfold Pearson.pair. intros H.
  destruct (min_common <=? Z.of_nat (common_count u u))%Z; [| discriminate].
  set (c := Pearson.centered (mask_sel (common_mask u u) u)) in *.
  destruct (Rltb 0 _) eqn:Ed; [| discriminate].
  apply Rltb_spec in Ed. injection H as <-.
  fold (dot c c). rewrite <- !dot_squares in *.
  pose proof (dot_self_nonneg c) as Hc.
  rewrite sqrt_square in * by exact Hc.
  field. lra.
Qed.

Lemma entry_zeros (n i j : nat) : entry (repeat (repeat 0 n) n) i j = 0.
Proof.
  unfold entry.
  destruct (Nat.lt_ge_cases i n) as [Hi | Hi].
  - rewrite nth_repeat_lt by exact Hi. apply nth_repeat.
  - rewrite (nth_overflow (repeat (repeat 0 n) n)) by (now rewrite repeat_length).
    now destruct j.
Qed.

Lemma pearson_invariant_zeros (X : matrix) (min_common : Z) (n : nat) :
  pearson_invariant X min_common n (repeat (repeat 0 n) n).
Proof.
  split; [split |].
  - apply repeat_length.
  - intros i Hi. rewrite nth_repeat_lt by exact Hi. apply repeat_length.
  - intros a b. left. apply entry_zeros.
Qed.

Lemma pearson_expected_sym (X : matrix) (min_common : Z) (a b : nat) :
  pearson_expected X min_common a b = pearson_expected X min_common b a.
Proof. unfold pearson_expected. now rewrite Nat.min_comm, Nat.max_comm. Qed.

Lemma pearson_expected_ordered (X : matrix) (min_common : Z) (i j : nat) :
  (i <= j)%nat ->
  pearson_expected X min_common i j
  = match Pearson.pair (nth i X []) (nth j X []) min_common with
    | Some corr => corr
    | None => 0
    end.
Proof.
  intros H. unfold pearson_expected. now rewrite Nat.min_l, Nat.max_r.
Qed.

(** One round of the inner loop: the invariant is kept, final entries stay
    final, and the two entries of the pair are final afterwards. *)
Lemma pearson_step (X : matrix) (min_common : Z) (n i j : nat) (S : matrix) :
  (i <= j)%nat -> (j < n)%nat ->
  pearson_invariant X min_common n S ->
  let S' := match Pearson.pair (nth i X []) (nth j X []) min_common with
            | Some corr => set_entry j i corr (set_entry i j corr S)
            | None => S
            end in
  pearson_invariant X min_common n S' /\
  (forall a b, entry S a b = pearson_expected X min_common a b ->
               entry S' a b = pearson_expected X min_common a b) /\
  entry S' i j = pearson_expected X min_common i j /\
  entry S' j i = pearson_expected X min_common j i.
Proof.
  intros Hij Hj [Hshape Hfinal] S'.
  pose proof (pearson_expected_ordered X min_common i j Hij) as Hexp.
  pose proof (pearson_expected_sym X min_common j i) as Hsym.
  subst S'.
  destruct (Pearson.pair (nth i X []) (nth j X []) min_common) as [corr |].
  - pose proof (set_entry_shape n i j corr S Hshape) as Hshape1.
    pose proof (set_entry_shape n j i corr _ Hshape1) as Hshape2.
    assert (Hentry : forall a b,
               entry (set_entry j i corr (set_entry i j corr S)) a b
               = if (Nat.eqb a j && Nat.eqb b i) || (Nat.eqb a i && Nat.eqb b j)
                 then corr else entry S a b).
    { intros a b.
      rewrite entry_set_entry
        by (destruct Hshape1 as [H1 H2]; rewrite ?H1, ?H2 by lia; lia).
      rewrite entry_set_entry
        by (destruct Hshape as [H1 H2]; rewrite ?H1, ?H2 by lia; lia).
      destruct (Nat.eqb a j && Nat.eqb b i); [reflexivity |].
      now destruct (Nat.eqb a i && Nat.eqb b j). }
    assert (Hwritten : forall a b,
               (Nat.eqb a j && Nat.eqb b i) || (Nat.eqb a i && Nat.eqb b j) = true ->
               corr = pearson_expected X min_common a b).
    { intros a b E. apply orb_prop in E as [E | E]; apply andb_prop in E as [E1 E2];
        apply Nat.eqb_eq in E1, E2; subst a b; congruence. }
    split; [split; [exact Hshape2 |] | split; [| split]].
    + intros a b. rewrite Hentry.
      destruct (_ || _) eqn:E; [right; now apply Hwritten | apply Hfinal].
    + intros a b Hab. rewrite Hentry.
      destruct (_ || _) eqn:E; [now apply Hwritten | exact Hab].
    + rewrite Hentry, !Nat.eqb_refl, orb_true_r. congruence.
    + rewrite Hentry, !Nat.eqb_refl. cbn [andb orb]. congruence.
  - split; [split; assumption | split; [auto | split]].
    + destruct (Hfinal i j) as [H0 | H0]; [congruence | exact H0].
    + destruct (Hfinal j i) as [H0 | H0]; [congruence | exact H0].
Qed.

Lemma pearson_inner_loop (X : matrix) (min_common : Z) (n i : nat) :
  forall (js : list nat) (S : matrix),
    (forall j, In j js -> (i <= j < n)%nat) ->
    pearson_invariant X min_common n S ->
    let S' := Pearson.inner_loop X min_common i js S in
    pearson_invariant X min_common n S' /\
    (forall a b, entry S a b = pearson_expected X min_common a b ->
                 entry S' a b = pearson_expected X min_common a b) /\
    (forall j, In j js ->
               entry S' i j = pearson_expected X min_common i j /\
               entry S' j i = pearson_expected X min_common j i).
Proof.
  induction js as [| j js IH]; intros S Hjs Hinv; cbn [Pearson.inner_loop].
  - split; [exact Hinv | split; [auto | intros j []]].
  - destruct (pearson_step X min_common n i j S) as [Hinv1 [Hkeep1 [Hij Hji]]];
      [apply Hjs; now left | apply Hjs; now left | exact Hinv |].
    cbv zeta in Hinv1, Hkeep1, Hij, Hji.
    destruct (IH _ (fun j' Hj' => Hjs j' (or_intror Hj')) Hinv1)
      as [Hinv2 [Hkeep2 Hdone]].
    split; [exact Hinv2 |]. split; [intros a b Hab; now apply Hkeep2, Hkeep1 |].
    intros j' [<- | Hj']; [split; now apply Hkeep2 | now apply Hdone].
Qed.

Lemma pearson_outer_loop (X : matrix) (min_common : Z) (n : nat) :
  forall (rows : list nat) (S : matrix),
    (forall i, In i rows -> (i < n)%nat) ->
    pearson_invariant X min_common n S ->
    let S' := Pearson.outer_loop X min_common n rows S in
    pearson_invariant X min_common n S' /\
    (forall a b, entry S a b = pearson_expected X min_common a b ->
                 entry S' a b = pearson_expected X min_common a b) /\
    (forall i j, In i rows -> (i <= j < n)%nat ->
                 entry S' i j = pearson_expected X min_common i j /\
                 entry S' j i = pearson_expected X min_common j i).
Proof.
  induction rows as [| i rows IH]; intros S Hrows Hinv; cbn [Pearson.outer_loop].
  - split; [exact Hinv | split; [auto | intros i j []]].
  - destruct (pearson_inner_loop X min_common n i (seq i (n - i)) S)
      as [Hinv1 [Hkeep1 Hdone1]]; [| exact Hinv |].
    { intros j Hj. apply in_seq in Hj. lia. }
    cbv zeta in Hinv1, Hkeep1, Hdone1.
    destruct (IH _ (fun i' Hi' => Hrows i' (or_intror Hi')) Hinv1)
      as [Hinv2 [Hkeep2 Hdone2]].
    split; [exact Hinv2 |]. split; [intros a b Hab; now apply Hkeep2, Hkeep1 |].
    intros i' j [<- | Hi'] Hj; [| now apply Hdone2].
    destruct (Hdone1 j) as [H1 H2]; [apply in_seq; lia |].
    split; now apply Hkeep2.
Qed.

Lemma pearson_entries (X : matrix) (min_common : Z) (a b : nat) :
  (a < length X)%nat -> (b < length X)%nat ->
  entry (Pearson.compute_pearson_correlation X min_common) a b
  = pearson_expected X min_common a b.
Proof.
  intros Ha Hb. unfold Pearson.compute_pearson_correlation.
  destruct (pearson_outer_loop X min_common (length X) (seq 0 (length X))
              (repeat (repeat 0 (length X)) (length X)))
    as [_ [_ Hdone]]; [| apply pearson_invariant_zeros |].
  { intros i Hi. apply in_seq in Hi. lia. }
  cbv zeta in Hdone.
  destruct (Nat.le_ge_cases a b) as [Hab | Hab].
  - apply (Hdone a b); [apply in_seq; lia | lia].
  - apply (Hdone b a); [apply in_seq; lia | lia].
Qed.

Lemma pearson_shape (X : matrix) (min_common : Z) :
  let S := Pearson.compute_pearson_correlation X min_common in
  length S = length X /\
  (forall i, (i < length X)%nat -> length (nth i S []) = length X).
Proof.
  unfold Pearson.compute_pearson_correlation.
  destruct (pearson_outer_loop X min_common (length X) (seq 0 (length X))
              (repeat (repeat 0 (length X)) (length X)))
    as [[Hshape _] _]; [| apply pearson_invariant_zeros | exact Hshape].
  intros i Hi. apply in_seq in Hi. lia.
Qed.

Lemma pearson_outside (X : matrix) (min_common : Z) (a b : nat) :
  (length X <= a)%nat \/ (length X <= b)%nat ->
  entry (Pearson.compute_pearson_correlation X min_common) a b = 0.
Proof.
  destruct (pearson_shape X min_common) as [Hlen Hrows]. cbv zeta in Hlen, Hrows.
  intros H. unfold entry.
  destruct (Nat.lt_ge_cases a (length X)) as [Ha | Ha].
  - apply nth_overflow. rewrite Hrows by exact Ha. lia.
  - rewrite (nth_overflow (Pearson.compute_pearson_correlation X min_common))
      by lia.
    now destruct b.
Qed.

Lemma pearson_expected_few (X : matrix) (min_common : Z) (a b : nat) :
  (Z.of_nat (common_count (nth a X []) (nth b X [])) < min_common)%Z ->
  pearson_expected X min_common a b = 0.
Proof.
  unfold pearson_expected.
  destruct (Pearson.pair _ _ min_common) as [corr |] eqn:E; [| reflexivity].
  pose proof (pair_enough_common _ _ _ _ E) as Hcount.
  intros Hfew. exfalso.
  destruct (Nat.le_ge_cases a b) as [Hab | Hab].
  - rewrite Nat.min_l, Nat.max_r in Hcount by exact Hab. lia.
  - rewrite Nat.min_r, Nat.max_l, common_count_sym in Hcount by exact Hab. lia.
Qed.

Lemma pearson_expected_self (X : matrix) (min_common : Z) (a : nat) :
  pearson_expected X min_common a a = 0 \/ pearson_expected X min_common a a = 1.
Proof.
  unfold pearson_expected. rewrite Nat.min_id, Nat.max_id.
  destruct (Pearson.pair _ _ min_common) as [corr |] eqn:E; [right | now left].
  exact (pair_self _ _ _ E).
Qed.

(** X26: the matrix [compute_pearson_correlation] returns is square of the
    size of its input and symmetric; its entry for two rows is what the loop
    body computes from their co-rated values with the row of the smaller
    index first, and 0 when the body stores nothing; it is 0 wherever the
    two rows have fewer than [min_common] positions at which both are rated,
    and a diagonal entry is 1 or 0. *)
Lemma pearson_correlation_matrix :
  forall (X : matrix) (min_common : Z),
    let S := Pearson.compute_pearson_correlation X min_common in
    length S = length X /\
    is_square S /\ is_symmetric S /\
    (forall a b, (a < length X)%nat -> (b < length X)%nat ->
       entry S a b = pearson_expected X min_common a b) /\
    (forall a b,
       (Z.of_nat (common_count (nth a X []) (nth b X [])) < min_common)%Z ->
       entry S a b = 0) /\
    (forall a, entry S a a = 0 \/ entry S a a = 1).
Proof.
  intros X min_common S.
  destruct (pearson_shape X min_common) as [Hlen Hrows]. cbv zeta in Hlen, Hrows.
  assert (Hall : forall a b,
             entry S a b = 0 /\ ((length X <= a)%nat \/ (length X <= b)%nat) \/
             entry S a b = pearson_expected X min_common a b /\
             (a < length X)%nat /\ (b < length X)%nat).
  { intros a b.
    destruct (Nat.lt_ge_cases a (length X)) as [Ha | Ha];
      destruct (Nat.lt_ge_cases b (length X)) as [Hb | Hb];
      [right; split; [now apply pearson_entries | split; assumption] | left ..];
      (split; [apply pearson_outside |]); auto. }
  split; [exact Hlen |]. split; [| split; [| split; [| split]]].
  - unfold is_square. apply Forall_forall. intros row Hrow.
    destruct (In_nth _ _ [] Hrow) as [i [Hi <-]].
    fold S in Hlen. rewrite Hlen in *. now apply Hrows.
  - intros a b.
    destruct (Hall a b) as [[H0 Hout] | [He [Ha Hb]]].
    + rewrite H0. symmetry. apply pearson_outside. tauto.
    + rewrite He, pearson_expected_sym. symmetry. now apply pearson_entries.
  - intros a b Ha Hb. now apply pearson_entries.
  - intros a b Hfew.
    destruct (Hall a b) as [[H0 _] | [He _]]; [exact H0 |].
    rewrite He. now apply pearson_expected_few.
  - intros a.
    destruct (Hall a a) as [[H0 _] | [He _]]; [now left |].
    rewrite He. apply pearson_expected_self.
Qed.

(* ================================================================== *)
(** * Normalised discounted cumulative gain *)

Lemma dcg_loop_dot (rels : list R) :
  forall (i : nat) (dcg : R),
    dcg_loop i rels dcg = dcg + dot (map gain rels) (discounts i (length rels)).
Proof.
  induction rels as [| rel rest IH]; intros i dcg; cbn [dcg_loop map length].
  - rewrite dot_nil_l. lra.
  - rewrite IH. unfold discounts. cbn [seq map]. rewrite dot_cons.
    unfold discount, Rdiv. lra.
Qed.

Lemma ln_2_pos : 0 < ln 2.
Proof. rewrite <- ln_1. apply ln_increasing; lra. Qed.

Lemma discount_pos (i : nat) : 0 < discount i.
Proof.
  unfold discount, log2. apply Rinv_0_lt_compat.
  pose proof (pos_INR i). pose proof ln_2_pos.
  apply Rmult_lt_0_compat; [| now apply Rinv_0_lt_compat].
  rewrite <- ln_1. apply ln_increasing; lra.
Qed.

Lemma discount_decreasing (i j : nat) : (i <= j)%nat -> discount j <= discount i.
Proof.
  intros Hij. unfold discount, log2.
  pose proof (pos_INR i). pose proof ln_2_pos. apply le_INR in Hij.
  assert (Hi : 0 < ln (INR i + 2)) by (rewrite <- ln_1; apply ln_increasing; lra).
  assert (Hle : ln (INR i + 2) <= ln (INR j + 2)).
  { destruct (Req_dec (INR i) (INR j)) as [-> | Hne]; [lra |].
    left. apply ln_increasing; lra. }
  apply Rinv_le_contravar.
  - apply Rmult_lt_0_compat; [exact Hi | now apply Rinv_0_lt_compat].
  - apply Rmult_le_compat_r; [left; now apply Rinv_0_lt_compat | exact Hle].
Qed.

Lemma gain_monotone (x y : R) : x <= y -> gain x <= gain y.
Proof.
  intros H. unfold gain.
  assert (Rpower 2 x <= Rpower 2 y) by (apply Rle_Rpower; lra). lra.
Qed.

Lemma gain_0 : gain 0 = 0.
Proof. unfold gain. rewrite Rpower_O by lra. ring. Qed.

Lemma gain_nonneg (x : R) : 0 <= x -> 0 <= gain x.
Proof. intros H. rewrite <- gain_0. now apply gain_monotone. Qed.

(** Summation by parts: prefix sums that are dominated, weighted by
    decreasing weights that are not negative, give a dominated sum.  [d] is
    the surplus carried over from the positions before, [wp] a bound on the
    weights. *)
Lemma weighted_sum_dominated (w : vec) :
  forall (a b : vec) (d wp : R),
    0 <= d -> 0 <= wp ->
    StronglySorted (fun x y => y <= x) w ->
    (forall x, In x w -> 0 <= x <= wp) ->
    (forall j, sum (firstn j a) <= d + sum (firstn j b)) ->
    dot a w <= wp * d + dot b w.
Proof.
  induction w as [| w0 w IH]; intros a b d wp Hd Hwp Hs Hw Hpre.
  - rewrite !dot_nil_r. nra.
  - inversion Hs as [| ? ? Hs' Hhead]; subst.
    destruct (Hw w0 (or_introl eq_refl)) as [Hw0 Hw0p].
    assert (Hdot : forall c : vec, dot c (w0 :: w) = hd 0 c * w0 + dot (tl c) w).
    { intros [| x c]; [cbn [hd tl]; rewrite !dot_nil_l; lra | apply dot_cons]. }
    assert (Hsum : forall (c : vec) j,
               sum (firstn (S j) c) = hd 0 c + sum (firstn j (tl c))).
    { intros [| x c] j; [| reflexivity].
      cbn [hd tl]. rewrite !firstn_nil. unfold sum. cbn [fold_right]. lra. }
    pose proof (Hpre 1%nat) as H1. rewrite !Hsum in H1.
    rewrite !firstn_O in H1. unfold sum in H1. cbn [fold_right] in H1.
    rewrite !Hdot.
    assert (IH' : dot (tl a) w <= w0 * (d + hd 0 b - hd 0 a) + dot (tl b) w).
    { apply IH; [lra | exact Hw0 | exact Hs' | |].
      - intros x Hx. split; [apply Hw; now right |].
        rewrite Forall_forall in Hhead. now apply Hhead.
      - intros j. pose proof (Hpre (S j)) as Hj. rewrite !Hsum in Hj. lra. }
    nra.
Qed.

Lemma sum_app (u v : vec) : sum (u ++ v) = sum u + sum v.
Proof.
  induction u as [| x u IH]; [unfold sum; cbn; lra |].
  cbn [app]. rewrite !sum_cons, IH. lra.
Qed.

(** The first [j] entries of a list sorted in descending order add up to at
    least as much as any [j] entries of it. *)
Lemma top_sum_dominates (b : vec) :
  StronglySorted (fun x y => y <= x) b ->
  (forall x, In x b -> 0 <= x) ->
  forall (j : nat) (c rest : vec),
    Permutation (c ++ rest) b -> (length c <= j)%nat ->
    sum c <= sum (firstn j b).
Proof.
  induction 1 as [| b0 b Hs IH Hhead]; intros Hpos j c rest Hperm Hlen.
  - apply Permutation_sym, Permutation_nil in Hperm.
    apply app_eq_nil in Hperm as [-> _].
    rewrite firstn_nil. lra.
  - destruct c as [| x c].
    { unfold sum at 1. cbn [fold_right]. apply sum_nonneg.
      intros y Hy. apply Hpos. now apply firstn_In in Hy. }
    destruct j as [| j]; [cbn in Hlen; lia |].
    cbn [firstn]. rewrite (sum_cons b0).
    assert (Hpos' : forall y, In y b -> 0 <= y) by (intros y Hy; apply Hpos; now right).
    destruct (in_dec Req_dec_T b0 (x :: c)) as [Hin | Hout].
    + apply in_split in Hin as [c1 [c2 Hc]].
      rewrite Hc, <- app_assoc in Hperm. cbn [app] in Hperm.
      apply Permutation_sym, Permutation_cons_app_inv, Permutation_sym in Hperm.
      rewrite app_assoc in Hperm.
      assert (Hl : (length (c1 ++ c2) <= j)%nat).
      { assert (length (x :: c) = length (c1 ++ b0 :: c2)) by now rewrite Hc.
        rewrite length_app in *. cbn [length] in *. lia. }
      pose proof (IH Hpos' j (c1 ++ c2) rest Hperm Hl) as Hle.
      rewrite Hc, sum_app, sum_cons. rewrite sum_app in Hle. lra.
    + assert (Hin : In b0 rest).
      { assert (Hb0 : In b0 ((x :: c) ++ rest)).
        { eapply Permutation_in; [apply Permutation_sym, Hperm | now left]. }
        apply in_app_or in Hb0 as [H | H]; [contradiction | exact H]. }
      apply in_split in Hin as [r1 [r2 Hr]].
      rewrite Hr in Hperm.
      assert (Hperm' : Permutation (c ++ x :: r1 ++ r2) b).
      { apply Permutation_sym in Hperm. rewrite app_assoc in Hperm.
        apply Permutation_cons_app_inv, Permutation_sym in Hperm.
        rewrite <- app_assoc in Hperm. cbn [app] in Hperm.
        etransitivity; [| exact Hperm]. apply Permutation_sym, Permutation_middle. }
      assert (Hx : x <= b0).
      { rewrite Forall_forall in Hhead. apply Hhead.
        eapply Permutation_in; [exact Hperm' |]. apply in_or_app. right. now left. }
      assert (Hl : (length c <= j)%nat) by (cbn [length] in Hlen; lia).
      pose proof (IH Hpos' j c (x :: r1 ++ r2) Hperm' Hl). rewrite (sum_cons x). lra.
Qed.

Lemma NoDup_incl_rest {A : Type} (l l' : list A) :
  NoDup l -> incl l l' -> exists rest, Permutation (l ++ rest) l'.
Proof.
  revert l'. induction l as [| x l IH]; intros l' Hnd Hincl.
  - now exists l'.
  - apply NoDup_cons_iff in Hnd as [Hx Hnd].
    destruct (in_split x l' (Hincl x (or_introl eq_refl))) as [l1 [l2 ->]].
    destruct (IH (l1 ++ l2) Hnd) as [rest Hrest].
    { intros y Hy. assert (Hy' : In y (l1 ++ x :: l2)) by (apply Hincl; now right).
      apply in_app_or in Hy' as [H | [H | H]]; apply in_or_app; auto.
      subst. contradiction. }
    exists rest. cbn [app]. rewrite Hrest. apply Permutation_middle.
Qed.

Lemma relevance_of_keys (scores : dict Z R) :
  NoDup (map fst scores) ->
  map (Ndcg.relevance scores) (map fst scores) = map snd scores.
Proof.
  intros Hnd. rewrite map_map. apply map_ext_in. intros [key v] Hin.
  unfold Ndcg.relevance. cbn [fst snd]. now rewrite (dict_get_In scores key v Hnd Hin).
Qed.

Lemma relevance_absent (scores : dict Z R) (item : Z) :
  mem item (map fst scores) = false -> gain (Ndcg.relevance scores item) = 0.
Proof.
  intros H. unfold Ndcg.relevance. rewrite dict_get_mem in H.
  destruct (dict_get Z.eqb scores item); [discriminate | apply gain_0].
Qed.

Lemma sum_gain_known (scores : dict Z R) (items : list Z) :
  sum (map (fun x => gain (Ndcg.relevance scores x)) items)
  = sum (map (fun x => gain (Ndcg.relevance scores x))
             (filter (fun x => mem x (map fst scores)) items)).
Proof.
  induction items as [| x items IH]; [reflexivity |].
  cbn [map filter]. rewrite sum_cons, IH.
  destruct (mem x (map fst scores)) eqn:E.
  - cbn [map]. now rewrite sum_cons.
  - rewrite (relevance_absent scores x E). lra.
Qed.

Lemma dot_discounts_more (a : vec) :
  forall (i n : nat),
    (length a <= n)%nat ->
    dot a (discounts i (length a)) = dot a (discounts i n).
Proof.
  induction a as [| x a IH]; intros i n Hn; [now rewrite !dot_nil_l |].
  destruct n as [| n]; [cbn in Hn; lia |].
  unfold discounts. cbn [length seq map]. rewrite !dot_cons. f_equal.
  apply IH. cbn in Hn. lia.
Qed.

Lemma discounts_sorted (i n : nat) :
  StronglySorted (fun x y => y <= x) (discounts i n) /\
  (forall x, In x (discounts i n) -> 0 <= x <= discount i).
Proof.
  unfold discounts. split.
  - revert i. induction n as [| n IH]; intros i; cbn [seq map]; constructor;
      [apply IH |].
    apply Forall_forall. intros x Hx. apply in_map_iff in Hx as [j [<- Hj]].
    apply in_seq in Hj. apply discount_decreasing. lia.
  - intros x Hx. apply in_map_iff in Hx as [j [<- Hj]]. apply in_seq in Hj.
    split; [left; apply discount_pos | apply discount_decreasing; lia].
Qed.

Lemma dot_nonneg (u v : vec) :
  (forall x, In x u -> 0 <= x) -> (forall y, In y v -> 0 <= y) -> 0 <= dot u v.
Proof.
  revert v. induction u as [| x u IH]; intros [| y v] Hu Hv;
    rewrite ?dot_nil_l, ?dot_nil_r; try lra.
  rewrite dot_cons.
  pose proof (Hu x (or_introl eq_refl)). pose proof (Hv y (or_introl eq_refl)).
  assert (0 <= dot u v) by (apply IH; intros z Hz; [apply Hu | apply Hv]; now right).
  nra.
Qed.

(** The discounted gain of the first [k] recommendations is at most that of
    the [k] largest relevance values. *)
Lemma dcg_le_ideal (recommendations : list Z) (scores : dict Z R) (K : nat) :
  NoDup recommendations ->
  NoDup (map fst scores) ->
  (forall v, In v (map snd scores) -> 0 <= v) ->
  let a := map gain (map (Ndcg.relevance scores) (firstn K recommendations)) in
  let b := map gain (firstn K (sort_desc (fun rel : R => rel) (map snd scores))) in
  dot a (discounts 0 K) <= dot b (discounts 0 K).
Proof.
  intros Hrecs Hkeys Hpos a b.
  set (sorted := sort_desc (fun rel : R => rel) (map snd scores)).
  assert (Hsorted : StronglySorted (fun x y => y <= x) (map gain sorted)).
  { apply (StronglySorted_map_key (desc (fun rel : R => rel))).
    - intros x y Hxy. apply gain_monotone. exact Hxy.
    - apply sort_desc_sorted. }
  assert (Hnonneg : forall x, In x (map gain sorted) -> 0 <= x).
  { intros x Hx. apply in_map_iff in Hx as [v [<- Hv]]. apply gain_nonneg, Hpos.
    eapply Permutation_in; [apply sort_desc_perm | exact Hv]. }
  destruct (discounts_sorted 0 K) as [Hw1 Hw2].
  pose proof (weighted_sum_dominated (discounts 0 K) a b 0 (discount 0)
                (Rle_refl 0) (Rlt_le _ _ (discount_pos 0)) Hw1 Hw2) as Habel.
  rewrite Rmult_0_r, Rplus_0_l in Habel. apply Habel. clear Habel.
  intros j. rewrite Rplus_0_l. unfold a, b.
  rewrite !map_map, <- !firstn_map, !firstn_firstn, !firstn_map.
  fold sorted.
  set (items := firstn (Nat.min j K) recommendations).
  rewrite <- (firstn_map gain).
  rewrite sum_gain_known.
  set (keys := filter (fun x => mem x (map fst scores)) items).
  assert (Hnd : NoDup keys).
  { apply NoDup_filter. unfold items.
    rewrite <- (firstn_skipn (Nat.min j K) recommendations) in Hrecs.
    now apply NoDup_app_remove_r in Hrecs. }
  assert (Hincl : incl keys (map fst scores)).
  { intros x Hx. apply filter_In in Hx as [_ Hx]. now apply mem_In. }
  destruct (NoDup_incl_rest keys (map fst scores) Hnd Hincl) as [rest Hrest].
  apply (top_sum_dominates (map gain sorted) Hsorted Hnonneg (Nat.min j K)
           (map (fun x => gain (Ndcg.relevance scores x)) keys)
           (map (fun x => gain (Ndcg.relevance scores x)) rest)).
  - rewrite <- map_app.
    transitivity (map gain (map snd scores)).
    + rewrite <- (relevance_of_keys scores Hkeys), map_map.
      now apply Permutation_map.
    + apply Permutation_map, Permutation_sym, sort_desc_perm.
  - rewrite length_map. unfold keys.
    etransitivity; [apply filter_length_le |]. unfold items.
    rewrite length_firstn. lia.
Qed.

(** X27: for [k >= 0], recommendations without a repeated item and
    relevance values that are not negative, [ndcg_at_k] lies in [0, 1]; it
    is 1 when the recommended items have the relevance values of the ideal
    ranking, in its order, unless the ideal gain is 0. *)
Lemma ndcg_in_unit_interval :
  forall (recommendations : list Z) (relevance_scores : dict Z R) (k : Z),
    (0 <= k)%Z ->
    NoDup recommendations ->
    NoDup (map fst relevance_scores) ->
    (forall rel, In rel (map snd relevance_scores) -> 0 <= rel) ->
    0 <= Ndcg.ndcg_at_k recommendations relevance_scores k <= 1 /\
    (map (Ndcg.relevance relevance_scores) (py_take k recommendations)
     = py_take k (sort_desc (fun rel : R => rel) (map snd relevance_scores)) ->
     Ndcg.ndcg_at_k recommendations relevance_scores k = 1 \/
     dcg_loop 0 (py_take k (sort_desc (fun rel : R => rel)
                              (map snd relevance_scores))) 0 = 0).
Proof.
  intros recommendations scores k Hk Hrecs Hkeys Hpos.
  unfold Ndcg.ndcg_at_k.
  set (ideal := py_take k (sort_desc (fun rel : R => rel) (map snd scores))).
  set (top := map (Ndcg.relevance scores) (py_take k recommendations)).
  split.
  2:{ intros Heq. fold top in Heq. rewrite Heq.
      destruct (Req_dec_T (dcg_loop 0 ideal 0) 0) as [E | E]; [now right |].
      left. rewrite (Reqb_false _ _ E). now field. }
  rewrite !dcg_loop_dot, !Rplus_0_l.
  assert (Htake : forall (A : Type) (l : list A), py_take k l = firstn (Z.to_nat k) l).
  { intros A l. unfold py_take. now replace (0 <=? k)%Z with true
      by (symmetry; now apply Z.leb_le). }
  assert (Hlt : (length top <= Z.to_nat k)%nat).
  { unfold top. rewrite length_map, Htake, length_firstn. lia. }
  assert (Hli : (length ideal <= Z.to_nat k)%nat).
  { unfold ideal. rewrite Htake, length_firstn. lia. }
  rewrite <- (length_map gain top), <- (length_map gain ideal).
  rewrite (dot_discounts_more (map gain top) 0 (Z.to_nat k))
    by (now rewrite length_map).
  rewrite (dot_discounts_more (map gain ideal) 0 (Z.to_nat k))
    by (now rewrite length_map).
  pose proof (dcg_le_ideal recommendations scores (Z.to_nat k) Hrecs Hkeys Hpos)
    as Hle.
  cbv zeta in Hle. rewrite <- !Htake in Hle. fold top ideal in Hle.
  assert (Hw : forall y, In y (discounts 0 (Z.to_nat k)) -> 0 <= y).
  { intros y Hy. now apply (discounts_sorted 0 (Z.to_nat k)). }
  assert (Hd : 0 <= dot (map gain top) (discounts 0 (Z.to_nat k))).
  { apply dot_nonneg; [| exact Hw].
    intros x Hx. apply in_map_iff in Hx as [rel [<- Hrel]].
    unfold top in Hrel. apply in_map_iff in Hrel as [item [<- _]].
    apply gain_nonneg. unfold Ndcg.relevance.
    destruct (dict_get Z.eqb scores item) as [v |] eqn:E; [| lra].
    apply Hpos. apply in_map_iff. exists (item, v). split; [reflexivity |].
    clear - E. induction scores as [| [k0 v0] scores IH]; [discriminate |].
    cbn [dict_get] in E. destruct (Z.eqb_spec item k0) as [-> | Hne].
    - injection E as ->. now left.
    - right. now apply IH. }
  destruct (Req_dec_T (dot (map gain ideal) (discounts 0 (Z.to_nat k))) 0) as [E | E].
  - rewrite (Reqb_true _ _ E). lra.
  - rewrite (Reqb_false _ _ E). apply ratio_in_unit; lra.
Qed.

Lemma ndcg_in_unit_interval_witness :
  0 <= Ndcg.ndcg_at_k [3; 1]%Z [(1%Z, 4); (2%Z, 5)] 2 <= 1.
Proof.
  apply (ndcg_in_unit_interval [3; 1]%Z [(1%Z, 4); (2%Z, 5)] 2).
  - lia.
  - repeat constructor; cbn; intuition discriminate.
  - repeat constructor; cbn; intuition discriminate.
  - cbn. intros rel [<- | [<- | []]]; lra.
Defined.

(* ================================================================== *)
(** * Explanations *)

Lemma similar_rated_loop_entries (cm : ContentBased.model) (movie_id : Z) :
  forall (history : list rated) (acc out : list similar_rated),
    Explain.similar_rated_loop cm movie_id history acc = Ok out ->
    forall s, In s out ->
      In s acc \/
      (1 / 10 < sr_similarity s /\
       In {| rated_movieId := sr_movieId s; rated_rating := Some (sr_rating s) |}
          history).
Proof.
  induction history as [| [rid rr] rest IH]; intros acc out Hrun s Hs;
    cbn [Explain.similar_rated_loop] in Hrun.
  - injection Hrun as <-. now left.
  - assert (Hrest : forall acc', Explain.similar_rated_loop cm movie_id rest acc'
                                 = Ok out ->
                                 (forall x, In x acc' ->
                                    In x acc \/
                                    (1 / 10 < sr_similarity x /\
                                     In {| rated_movieId := sr_movieId x;
                                           rated_rating := Some (sr_rating x) |}
                                        (Rated rid rr :: rest))) ->
                                 In s acc \/
                                 (1 / 10 < sr_similarity s /\
                                  In {| rated_movieId := sr_movieId s;
                                        rated_rating := Some (sr_rating s) |}
                                     (Rated rid rr :: rest))).
    { intros acc' Hrun' Hacc'.
      destruct (IH acc' out Hrun' s Hs) as [H | [H1 H2]];
        [now apply Hacc' | right; split; [exact H1 | now right]]. }
    cbn [rated_movieId rated_rating] in Hrun.
    destruct (dict_get Z.eqb (ContentBased.movie_id_to_idx cm) rid) as [rated_idx |];
      [| apply (Hrest acc Hrun); now left].
    destruct (dict_get Z.eqb (ContentBased.movie_id_to_idx cm) movie_id)
      as [movie_idx |]; [| apply (Hrest acc Hrun); now left].
    destruct (the (ContentBased.similarity_matrix cm)) as [S | e];
      cbn [bind] in Hrun; [| discriminate].
    destruct (getitem S movie_idx) as [row | e]; cbn [bind] in Hrun; [| discriminate].
    destruct (getitem row rated_idx) as [sim | e]; cbn [bind] in Hrun;
      [| discriminate].
    destruct (Rltb (1 / 10) sim) eqn:Esim; [| apply (Hrest acc Hrun); now left].
    destruct rr as [rating |]; [| discriminate].
    apply (Hrest _ Hrun). intros x Hx.
    apply in_app_or in Hx as [Hx | [<- | []]]; [now left |].
    right. cbn [sr_similarity sr_movieId sr_rating].
    split; [now apply Rltb_spec | now left].
Qed.

Lemma user_similar_loop_length (self : UserBased.model) (similarities : vec)
    (indices : list nat) (out : list (Z * R)) :
  UserBased.similar_loop self similarities indices = Ok out ->
  length out = length indices.
Proof.
  intros H. apply user_similar_loop_keys in H.
  now rewrite <- (length_map snd), H, length_map.
Qed.

Lemma similar_users_at_most (self : UserBased.model) (u n : Z) (out : list (Z * R)) :
  (0 <= n)%Z ->
  UserBased.get_similar_users self u n = Ok out ->
  (Z.of_nat (length out) <= n)%Z.
Proof.
  intros Hn Hrun. unfold UserBased.get_similar_users in Hrun.
  destruct (negb (UserBased.is_fitted self)); [injection Hrun as <-; cbn; lia |].
  destruct (dict_get Z.eqb (UserBased.user_to_idx self) u);
    [| injection Hrun as <-; cbn; lia].
  destruct (the (UserBased.user_similarity self)) as [S | e]; cbn [bind] in Hrun;
    [| discriminate].
  destruct (getitem S n0) as [row | e]; cbn [bind] in Hrun; [| discriminate].
  rewrite (user_similar_loop_length _ _ _ _ Hrun). now apply py_take_length.
Qed.

(** X28: an explanation of a fitted hybrid model names the movie asked for;
    it lists the content, item and user models in this order, each at most
    once and with its weight of the blend; the content entry shows at most
    five of the user's rated movies, each with a similarity above 0.1, in
    descending order of similarity; the user entry counts at most five
    similar users; and the predicted rating is the one [predict_rating]
    gives for the same history. *)
Lemma explanation_contents :
  forall (self : Hybrid.model) (u m : Z) (rated_arg : option (list rated))
         (e : explanation),
    Explain.explain_recommendation self u m rated_arg = Ok (Some e) ->
    ex_movieId e = m /\
    StronglySorted lt (map method_rank (ex_methods e)) /\
    (forall entry, In entry (ex_methods e) ->
       match entry with
       | ContentEntry w _ sims =>
           w = Hybrid.content_weight self /\
           (length sims <= 5)%nat /\
           StronglySorted (desc sr_similarity) sims /\
           (forall s, In s sims ->
              1 / 10 < sr_similarity s /\
              In {| rated_movieId := sr_movieId s;
                    rated_rating := Some (sr_rating s) |}
                 (Hybrid.user_history self u rated_arg))
       | ItemEntry w _ => w = Hybrid.item_weight self
       | UserEntry w _ c => w = Hybrid.user_weight self /\ (c <= 5)%nat
       end) /\
    Hybrid.predict_rating self u m (Some (Hybrid.user_history self u rated_arg))
    = Ok (ex_predicted_rating e).
Proof.
  intros self u m rated_arg e Hrun. unfold Explain.explain_recommendation in Hrun.
  destruct (negb (Hybrid.is_fitted self)); [discriminate |].
  set (history := Hybrid.user_history self u rated_arg) in *.
  (* the content entry *)
  assert (H1 : exists methods1,
             match Hybrid.content_model self, history with
             | Some cm, _ :: _ =>
                 similar_rated <- Explain.similar_rated_loop cm m history [] ;;
                 Ok [ContentEntry (Hybrid.content_weight self)
                       (String.append "Similar to "
                          (String.append
                             (string_of_Z
                                (Z.of_nat (length (sort_desc sr_similarity
                                                     similar_rated))))
                             " movies you liked"))
                       (py_take 5 (sort_desc sr_similarity similar_rated))]
             | _, _ => Ok []
             end = Ok methods1 /\
             (methods1 = [] \/
              exists reason sims,
                methods1 = [ContentEntry (Hybrid.content_weight self) reason sims] /\
                (length sims <= 5)%nat /\
                StronglySorted (desc sr_similarity) sims /\
                (forall s, In s sims ->
                   1 / 10 < sr_similarity s /\
                   In {| rated_movieId := sr_movieId s;
                         rated_rating := Some (sr_rating s) |} history))).
  { destruct (Hybrid.content_model self) as [cm |].
    2:{ cbn [bind] in Hrun. exists []. split; [reflexivity | now left]. }
    destruct history as [| r0 rest] eqn:Eh.
    { exists []. split; [reflexivity | now left]. }
    destruct (Explain.similar_rated_loop cm m (r0 :: rest) []) as [sr | err] eqn:Eloop;
      cbn [bind] in Hrun |- *; [| discriminate].
    eexists. split; [reflexivity |]. right. do 2 eexists. split; [reflexivity |].
    split; [| split].
    - pose proof (py_take_length 5 (sort_desc sr_similarity sr)). lia.
    - apply StronglySorted_py_take, sort_desc_sorted.
    - intros s Hs. apply py_take_incl in Hs.
      eapply Permutation_in in Hs; [| apply sort_desc_perm].
      destruct (similar_rated_loop_entries cm m _ _ _ Eloop s Hs) as [[] | H].
      exact H. }
  destruct H1 as [methods1 [E1 Hm1]]. rewrite E1 in Hrun. cbn [bind] in Hrun.
  set (methods2 :=
         match Hybrid.item_model self with
         | Some im =>
             match dict_get Z.eqb (ItemBased.movie_to_idx im) m with
             | Some _ =>
                 methods1
                 ++ [ItemEntry (Hybrid.item_weight self)
                       "Users who rated movies you rated also rated this highly"]
             | None => methods1
             end
         | None => methods1
         end) in *.
  assert (Hm2 : methods2 = methods1 \/
                exists reason, methods2 = methods1 ++ [ItemEntry (Hybrid.item_weight self) reason]).
  { unfold methods2. destruct (Hybrid.item_model self) as [im |]; [| now left].
    destruct (dict_get Z.eqb (ItemBased.movie_to_idx im) m); [| now left].
    right. now eexists. }
  clearbody methods2.
  match type of Hrun with
  | bind ?c _ = _ => destruct c as [methods3 | err] eqn:E3
  end; cbn [bind] in Hrun; [| discriminate].
  assert (Hm3 : methods3 = methods2 \/
                exists reason c, methods3 = methods2 ++ [UserEntry (Hybrid.user_weight self) reason c] /\
                                 (c <= 5)%nat).
  { destruct (Hybrid.user_model self) as [um |];
      [| injection E3 as <-; now left].
    destruct (dict_get Z.eqb (UserBased.user_to_idx um) u);
      [| injection E3 as <-; now left].
    destruct (UserBased.get_similar_users um u 5) as [similar_users | err] eqn:Eu;
      cbn [bind] in E3; [| discriminate].
    injection E3 as <-. right. do 2 eexists. split; [reflexivity |].
    pose proof (similar_users_at_most um u 5 similar_users ltac:(lia) Eu). lia. }
  destruct (Hybrid.predict_rating self u m (Some history)) as [pred | err];
    cbn [bind] in Hrun; [| discriminate].
  injection Hrun as <-. cbn [ex_movieId ex_methods ex_predicted_rating].
  split; [reflexivity |]. split; [| split; [| reflexivity]].
  - destruct Hm1 as [-> | [reason [sims [-> _]]]];
      destruct Hm2 as [-> | [r2 ->]];
      destruct Hm3 as [-> | [r3 [c [-> _]]]];
      cbn [app map method_rank]; repeat constructor.
  - intros entry Hin.
    assert (Hcases : In entry methods1 \/
                     (exists r, entry = ItemEntry (Hybrid.item_weight self) r) \/
                     (exists r c, entry = UserEntry (Hybrid.user_weight self) r c /\
                                  (c <= 5)%nat)).
    { destruct Hm3 as [-> | [r3 [c [-> Hc]]]].
      - destruct Hm2 as [-> | [r2 ->]]; [now left |].
        apply in_app_or in Hin as [H | [<- | []]]; [now left | right; left; now eexists].
      - apply in_app_or in Hin as [Hin | [<- | []]];
          [| right; right; now do 2 eexists].
        destruct Hm2 as [-> | [r2 ->]]; [now left |].
        apply in_app_or in Hin as [H | [<- | []]]; [now left | right; left; now eexists]. }
    destruct Hcases as [H | [[r ->] | [r [c [-> Hc]]]]]; [| reflexivity | now split].
    destruct Hm1 as [-> | [reason [sims [-> Hsims]]]]; [contradiction |].
    destruct H as [<- | []]. split; [reflexivity | exact Hsims].
Qed.

Lemma explanation_contents_witness :
  exists e,
    Explain.explain_recommendation hy_two 99 2 (Some [Rated 2 (Some 4)]) = Ok (Some e) /\
    ex_movieId e = 2%Z /\
    map method_rank (ex_methods e) = [0; 1]%nat /\
    ex_predicted_rating e = Some (Fin 4).
Proof.
  assert (Hrun : exists e,
            Explain.explain_recommendation hy_two 99 2 (Some [Rated 2 (Some 4)])
            = Ok (Some e) /\
            map method_rank (ex_methods e) = [0; 1]%nat).
  { eexists. unfold Explain.explain_recommendation, Hybrid.user_history.
    cbv zeta. rewrite hybrid_predict_2_in_hy_two.
    cbn -[ItemBased.fit]. rewrite fit_ib_two. cbn. rdecide. cbn.
    split; reflexivity. }
  destruct Hrun as [e [Hrun Hm]]. exists e.
  destruct (explanation_contents hy_two 99 2 (Some [Rated 2 (Some 4)]) e Hrun)
    as [Hid [_ [_ Hpred]]].
  split; [exact Hrun |]. split; [exact Hid |]. split; [exact Hm |].
  cbn [Hybrid.user_history] in Hpred. rewrite hybrid_predict_2_in_hy_two in Hpred.
  now injection Hpred as <-.
Defined.

(* ================================================================== *)
(** * Processed ratings *)

Lemma dropna_In (df : list raw_rating) (r : rating_row) :
  In r (DataProcessor.handle_missing_values_drop df)
  <-> In (RawRating (Some (userId r)) (Some (r_movieId r)) (Some (rating r))) df.
Proof.
  induction df as [| row rest IH]; [tauto |].
  cbn [DataProcessor.handle_missing_values_drop In].
  assert (Hskip : (row = RawRating (Some (userId r)) (Some (r_movieId r))
                           (Some (rating r)) -> False) ->
                  (In r (DataProcessor.handle_missing_values_drop rest)
                   <-> row = RawRating (Some (userId r)) (Some (r_movieId r))
                               (Some (rating r))
                       \/ In (RawRating (Some (userId r)) (Some (r_movieId r))
                                (Some (rating r))) rest)).
  { intros Hne. rewrite IH. tauto. }
  destruct row as [[u |] [m |] [x |]]; cbn [raw_userId raw_movieId raw_rating_value];
    try (apply Hskip; discriminate).
  cbn [In]. rewrite IH. destruct r as [u' m' x']. cbn [userId r_movieId rating].
  split; intros [H | H]; auto; left; congruence.
Qed.

Lemma remove_duplicates_last_incl (df : list rating_row) (r : rating_row) :
  In r (DataProcessor.remove_duplicates_last df) -> In r df.
Proof.
  induction df as [| row rest IH]; cbn [DataProcessor.remove_duplicates_last];
    [auto |].
  destruct (existsb _ rest); [intros H; right; now apply IH |].
  intros [<- | H]; [now left | right; now apply IH].
Qed.

Lemma remove_duplicates_last_pairs (df : list rating_row) (u m : Z) :
  In (u, m) (map (fun r => (userId r, r_movieId r))
               (DataProcessor.remove_duplicates_last df))
  <-> In (u, m) (map (fun r => (userId r, r_movieId r)) df).
Proof.
  induction df as [| row rest IH]; cbn [DataProcessor.remove_duplicates_last map];
    [tauto |].
  destruct (existsb _ rest) eqn:E.
  - rewrite IH. split; [now right |]. intros [H | H]; [| exact H].
    apply existsb_exists in E as [later [Hl Heq]].
    apply andb_prop in Heq as [Hu Hm]. apply Z.eqb_eq in Hu, Hm.
    apply in_map_iff. exists later. split; [| exact Hl]. congruence.
  - cbn [map In]. now rewrite IH.
Qed.

Lemma remove_duplicates_last_NoDup (df : list rating_row) :
  NoDup (map (fun r => (userId r, r_movieId r))
           (DataProcessor.remove_duplicates_last df)).
Proof.
  induction df as [| row rest IH]; cbn [DataProcessor.remove_duplicates_last map];
    [constructor |].
  destruct (existsb _ rest) eqn:E; [exact IH |].
  cbn [map]. constructor; [| exact IH].
  intros Hin. apply (proj1 (remove_duplicates_last_pairs _ _ _)) in Hin.
  apply in_map_iff in Hin as [later [Heq Hl]]. injection Heq as Hu Hm.
  assert (Ht : existsb (fun later => (userId later =? userId row)%Z
                                     && (r_movieId later =? r_movieId row)%Z) rest
               = true).
  { apply existsb_exists. exists later. split; [exact Hl |].
    now rewrite Hu, Hm, !Z.eqb_refl. }
  congruence.
Qed.

Lemma remove_duplicates_last_is_last (df : list rating_row) (r : rating_row) :
  In r (DataProcessor.remove_duplicates_last df) ->
  exists before after,
    df = before ++ r :: after /\
    forall later, In later after ->
      (userId later, r_movieId later) <> (userId r, r_movieId r).
Proof.
  induction df as [| row rest IH]; cbn [DataProcessor.remove_duplicates_last];
    [contradiction |].
  destruct (existsb _ rest) eqn:E.
  - intros H. destruct (IH H) as [before [after [-> Hafter]]].
    now exists (row :: before), after.
  - intros [<- | H].
    + exists [], rest. split; [reflexivity |]. intros later Hl Heq.
      injection Heq as Hu Hm.
      assert (Ht : existsb (fun later => (userId later =? userId row)%Z
                                         && (r_movieId later =? r_movieId row)%Z)
                           rest = true).
      { apply existsb_exists. exists later. split; [exact Hl |].
        now rewrite Hu, Hm, !Z.eqb_refl. }
      congruence.
    + destruct (IH H) as [before [after [-> Hafter]]].
      now exists (row :: before), after.
Qed.

Lemma dropna_split (df : list raw_rating) :
  forall (before after : list rating_row) (r : rating_row),
    DataProcessor.handle_missing_values_drop df = before ++ r :: after ->
    exists raw_before raw_after,
      df = raw_before
           ++ RawRating (Some (userId r)) (Some (r_movieId r)) (Some (rating r))
           :: raw_after /\
      DataProcessor.handle_missing_values_drop raw_after = after.
Proof.
  induction df as [| row rest IH]; intros before after r Heq.
  - destruct before; discriminate.
  - cbn [DataProcessor.handle_missing_values_drop] in Heq.
    assert (Hskip : DataProcessor.handle_missing_values_drop rest
                    = before ++ r :: after ->
                    exists raw_before raw_after,
                      row :: rest
                      = raw_before
                        ++ RawRating (Some (userId r)) (Some (r_movieId r))
                             (Some (rating r))
                        :: raw_after /\
                      DataProcessor.handle_missing_values_drop raw_after = after).
    { intros H. destruct (IH _ _ _ H) as [rb [ra [-> Hra]]].
      now exists (row :: rb), ra. }
    destruct row as [[u |] [m |] [x |]];
      cbn [raw_userId raw_movieId raw_rating_value] in Heq; try (now apply Hskip).
    destruct before as [| b before]; cbn [app] in Heq; injection Heq as Hhead Htail.
    + subst r. cbn [userId r_movieId rating]. now exists [], rest.
    + destruct (IH _ _ _ Htail) as [rb [ra [-> Hra]]].
      now exists (RawRating (Some u) (Some m) (Some x) :: rb), ra.
Qed.

(** X29: [process_ratings] returns a frame the models can be fitted on: no
    (user, movie) pair occurs twice, every rating lies in [0.5, 5.0], the
    pairs are those of the complete raw rows, and the rating of a pair is the
    clipped value of the last complete raw row of the pair; the predictions
    of a user-based model fitted on it lie in [0.5, 5.0]. *)
Lemma processed_ratings_fit_for_training :
  forall ratings_df : list raw_rating,
    let processed := DataProcessor.process_ratings ratings_df in
    NoDup (map (fun r => (userId r, r_movieId r)) processed) /\
    (forall r, In r processed -> valid_rating (rating r)) /\
    (forall u m,
       In (u, m) (map (fun r => (userId r, r_movieId r)) processed)
       <-> exists x, In (RawRating (Some u) (Some m) (Some x)) ratings_df) /\
    (forall r, In r processed ->
       exists x raw_before raw_after,
         ratings_df
         = raw_before
           ++ RawRating (Some (userId r)) (Some (r_movieId r)) (Some x)
           :: raw_after /\
         rating r = clip x (1 / 2) 5 /\
         forall y, ~ In (RawRating (Some (userId r)) (Some (r_movieId r)) (Some y))
                        raw_after) /\
    (forall self movies u m v,
       UserBased.predict_rating (UserBased.fit self processed movies) u m
       = Ok (Some v) ->
       valid_rating v).
Proof.
  intros ratings_df processed.
  set (complete := DataProcessor.handle_missing_values_drop ratings_df).
  set (unique := DataProcessor.remove_duplicates_last complete).
  assert (Hpairs : map (fun r => (userId r, r_movieId r)) processed
                   = map (fun r => (userId r, r_movieId r)) unique).
  { unfold processed, DataProcessor.process_ratings, DataProcessor.handle_outliers.
    fold complete unique. now rewrite map_map. }
  assert (Hnd : NoDup (map (fun r => (userId r, r_movieId r)) processed)).
  { rewrite Hpairs. apply remove_duplicates_last_NoDup. }
  assert (Hvalid : forall r, In r processed -> valid_rating (rating r)).
  { intros r Hr. unfold processed, DataProcessor.process_ratings,
      DataProcessor.handle_outliers in Hr.
    apply in_map_iff in Hr as [row [<- _]]. cbn [rating].
    unfold valid_rating. apply clip_bounds. lra. }
  split; [exact Hnd |]. split; [exact Hvalid |]. split; [| split].
  - intros u m. rewrite Hpairs. unfold unique.
    rewrite remove_duplicates_last_pairs, in_map_iff. split.
    + intros [r [Heq Hr]]. injection Heq as <- <-. exists (rating r).
      now apply dropna_In.
    + intros [x Hx]. exists {| userId := u; r_movieId := m; rating := x |}.
      split; [reflexivity | now apply dropna_In].
  - intros r Hr. unfold processed, DataProcessor.process_ratings,
      DataProcessor.handle_outliers in Hr.
    apply in_map_iff in Hr as [row [<- Hrow]]. cbn [userId r_movieId rating].
    destruct (remove_duplicates_last_is_last _ _ Hrow) as [before [after [Hsplit Hlast]]].
    destruct (dropna_split _ _ _ _ Hsplit) as [rb [ra [Hraw Hra]]].
    exists (rating row), rb, ra. split; [exact Hraw |]. split; [reflexivity |].
    intros y Hy.
    apply (Hlast {| userId := userId row; r_movieId := r_movieId row; rating := y |});
      [| reflexivity].
    rewrite <- Hra. now apply dropna_In.
  - intros self movies u m v Hrun.
    destruct (UserBased.user_item_matrix (UserBased.fit self processed movies))
      as [M |] eqn:HM; [| discriminate HM].
    apply (user_prediction_in_range (UserBased.fit self processed movies) u m M v HM);
      [| exact (user_fit_matrix_valid self processed movies M Hvalid Hnd HM)
       | exact Hrun].
    cbn [UserBased.fit UserBased.user_item_matrix UserBased.user_means] in *.
    injection HM as <-. reflexivity.
Qed.

(* ================================================================== *)
(** * Rounding in binary64 *)

(** The similarity the user-based [fit] stores for two users with the same
    ratings is the float after 1. *)
Lemma binary64_similarity_of_equal_users :
  Binary64.compute_user_similarity Binary64.equal_users
    (Binary64.compute_user_means Binary64.equal_users)
  = [[PrimFloat.zero; PrimFloat.next_up PrimFloat.one];
     [PrimFloat.next_up PrimFloat.one; PrimFloat.zero]] /\
  PrimFloat.ltb PrimFloat.one (PrimFloat.next_up PrimFloat.one) = true.
Proof. split; vm_compute; reflexivity. Qed.

(** The weighted mean of two ratings 5.0 is the float after 5. *)
Lemma binary64_mean_of_two_fives :
  Binary64.weighted_mean Binary64.two_fives
  = Some (PrimFloat.next_up Binary64.max_rating) /\
  PrimFloat.ltb Binary64.max_rating (PrimFloat.next_up Binary64.max_rating) = true.
Proof. split; vm_compute; reflexivity. Qed.
